(** * HomLet client routes: contact requests, ratings, dashboard

  A shallow embedding of [src/models/ContactRequest.js]: the
  [ContactRequest] schema and the four client route handlers
  ([GET /dashboard], [POST /contact-agent], [GET /rate/:agentId],
  [POST /rate/:agentId]), over an explicit document store.

  - JavaScript numbers are IEEE-754 binary64 values ([spec_float] at
    precision 53, exponent bound 1024), so [<], [>], [+] and [/] are the
    operations the handlers really execute.
  - Request fields are the values a parsed body or query string holds:
    primitive values, objects and arrays; [ToBoolean], [ToNumber],
    [ToString] and [parseInt] follow ECMA-262, the conversion of an
    object that throws included.
  - What this file does not contain is a parameter: how Mongoose casts a
    value to an identifier, what it makes of an object or an array in a
    query, what the [Rating] schema accepts, and what the regular
    expression engine does with a pattern beyond plain text and the dot.
  - The handlers are written in a state-and-exception monad: a store call
    or a property access on [null] may throw, and [try]/[catch] is a
    combinator. *)

From Stdlib Require Import ZArith String Ascii List Bool Lia SpecFloat.
From stdpp Require Import base option list gmap strings sorting.

Open Scope Z_scope.

(** ** Numbers *)

Module Number.

Definition number := spec_float.

Definition prec : Z := 53.
Definition emax : Z := 1024.

Definition NaN : number := S754_nan.
Definition pos_zero : number := S754_zero false.
Definition neg_zero : number := S754_zero true.

(** The number nearest to an integer (ties to even); exact below 2^53. *)
Definition of_Z (z : Z) : number := binary_normalize prec emax z 0 false.

Definition of_nat (n : nat) : number := of_Z (Z.of_nat n).

(** The number nearest to [m * 10^e], with the sign [s]: the value of a
    decimal literal. A zero mantissa keeps the sign. *)
Definition of_decimal (s : bool) (m : Z) (e : Z) : number :=
  match m with
  | Zpos p =>
      if 0 <=? e
      then binary_normalize prec emax (if s then - (m * 10 ^ e) else m * 10 ^ e) 0 s
      else SFdiv prec emax (S754_finite s p 0)
                           (S754_finite false (Z.to_pos (10 ^ (- e))) 0)
  | _ => S754_zero s
  end.

Definition add : number -> number -> number := SFadd prec emax.
Definition div : number -> number -> number := SFdiv prec emax.

(** [x < y] and [x <= y] of ECMA-262 (false when either side is NaN). *)
Definition ltb : number -> number -> bool := SFltb.
Definition leb : number -> number -> bool := SFleb.

Definition is_nan (x : number) : bool :=
  match x with S754_nan => true | _ => false end.

Definition is_zero (x : number) : bool :=
  match x with S754_zero _ => true | _ => false end.

(** A binary64 value proper: the mantissa is normalised for its exponent. *)
Definition valid (x : number) : bool := valid_binary prec emax x.

(** Rounding toward zero to an integral number, the sign kept. *)
Definition trunc (x : number) : number :=
  match x with
  | S754_finite s m e =>
      if 0 <=? e then x
      else match Z.shiftr (Zpos m) (- e) with
           | Z0 => S754_zero s
           | q => binary_normalize prec emax (if s then - q else q) 0 s
           end
  | _ => x
  end.

Definition is_integer (x : number) : bool :=
  match x with
  | S754_finite _ _ _ => match SFcompare (trunc x) x with Some Eq => true | _ => false end
  | S754_zero _ => true
  | _ => false
  end.

End Number.

Export Number.

(** ** Text

  A string value is the UTF-8 text it arrived as; the conversions read its
  bytes. *)

Module Text.

#[local] Open Scope N_scope.

Definition bytes (s : string) : list N :=
  map N_of_ascii (list_ascii_of_string s).

(** [StrWhiteSpaceChar]: TAB, LF, VT, FF, CR, SP, U+00A0, U+1680,
    U+2000..U+200A, U+2028, U+2029, U+202F, U+205F, U+3000, U+FEFF. *)
Definition general_punctuation_space (b : N) : bool :=
  ((128 <=? b) && (b <=? 138)) || (b =? 168) || (b =? 169) || (b =? 175).

Fixpoint skip_white_space (l : list N) : list N :=
  match l with
  | 9 :: r | 10 :: r | 11 :: r | 12 :: r | 13 :: r | 32 :: r => skip_white_space r
  | 194 :: 160 :: r => skip_white_space r
  | 225 :: 154 :: 128 :: r => skip_white_space r
  | 226 :: 128 :: b :: r =>
      if general_punctuation_space b then skip_white_space r else l
  | 226 :: 129 :: 159 :: r => skip_white_space r
  | 227 :: 128 :: 128 :: r => skip_white_space r
  | 239 :: 187 :: 191 :: r => skip_white_space r
  | _ => l
  end.

(** The same on a reversed text, for the trailing end. *)
Fixpoint skip_white_space_rev (l : list N) : list N :=
  match l with
  | 9 :: r | 10 :: r | 11 :: r | 12 :: r | 13 :: r | 32 :: r => skip_white_space_rev r
  | 160 :: 194 :: r => skip_white_space_rev r
  | 128 :: 154 :: 225 :: r => skip_white_space_rev r
  | b :: 128 :: 226 :: r =>
      if general_punctuation_space b then skip_white_space_rev r else l
  | 159 :: 129 :: 226 :: r => skip_white_space_rev r
  | 128 :: 128 :: 227 :: r => skip_white_space_rev r
  | 191 :: 187 :: 239 :: r => skip_white_space_rev r
  | _ => l
  end.

Definition trim (l : list N) : list N :=
  rev (skip_white_space_rev (rev (skip_white_space l))).

(** The value of a digit in a radix up to 36, if it is one. *)
Definition digit (radix : Z) (b : N) : option Z :=
  let d := if (48 <=? b) && (b <=? 57) then Some (Z.of_N b - 48)%Z
           else if (97 <=? b) && (b <=? 122) then Some (Z.of_N b - 87)%Z
           else if (65 <=? b) && (b <=? 90) then Some (Z.of_N b - 55)%Z
           else None in
  match d with
  | Some v => if (v <? radix)%Z then Some v else None
  | None => None
  end.

(** Reads the longest run of digits: the value accumulated onto [acc], how
    many digits were read, and the rest. *)
Fixpoint read_digits (radix : Z) (acc : Z) (l : list N) : Z * nat * list N :=
  match l with
  | b :: r =>
      match digit radix b with
      | Some v =>
          let '(z, n, rest) := read_digits radix (acc * radix + v)%Z r in (z, S n, rest)
      | None => (acc, O, l)
      end
  | [] => (acc, O, [])
  end.

Definition is_nil {A} (l : list A) : bool :=
  match l with [] => true | _ => false end.

(** [NonDecimalIntegerLiteral] after its [0x], [0o] or [0b] prefix. *)
Definition non_decimal (radix : Z) (l : list N) : number :=
  let '(z, n, rest) := read_digits radix 0 l in
  match n with
  | O => NaN
  | S _ => if is_nil rest then of_Z z else NaN
  end.

(** [ExponentPart_opt] closing a decimal literal of mantissa [m] with
    [nf] fraction digits. *)
Definition exponent_part (s : bool) (m : Z) (nf : nat) (l : list N) : number :=
  match l with
  | [] => of_decimal s m (- Z.of_nat nf)
  | 101 :: r | 69 :: r =>
      let '(neg, r') := match r with
                        | 43 :: t => (false, t)
                        | 45 :: t => (true, t)
                        | _ => (false, r)
                        end in
      let '(x, nx, rest) := read_digits 10 0 r' in
      match nx with
      | O => NaN
      | S _ => if is_nil rest
               then of_decimal s m ((if neg then - x else x) - Z.of_nat nf)
               else NaN
      end
  | _ => NaN
  end.

(** [StrUnsignedDecimalLiteral] with the sign [s] already read. *)
Definition unsigned_decimal (s : bool) (l : list N) : number :=
  if decide (l = bytes "Infinity") then S754_infinity s
  else
    let '(i, ni, r1) := read_digits 10 0 l in
    match r1 with
    | 46 :: r =>
        let '(m, nf, r2) := read_digits 10 i r in
        match (ni + nf)%nat with
        | O => NaN
        | S _ => exponent_part s m nf r2
        end
    | _ =>
        match ni with
        | O => NaN
        | S _ => exponent_part s i O r1
        end
    end.

(** [StringToNumber] of ECMA-262. *)
Definition StringToNumber (str : string) : number :=
  match trim (bytes str) with
  | [] => pos_zero
  | 48 :: 120 :: r | 48 :: 88 :: r => non_decimal 16 r
  | 48 :: 111 :: r | 48 :: 79 :: r => non_decimal 8 r
  | 48 :: 98 :: r | 48 :: 66 :: r => non_decimal 2 r
  | 43 :: r => unsigned_decimal false r
  | 45 :: r => unsigned_decimal true r
  | l => unsigned_decimal false l
  end.

(** [parseInt(string)] with no radix argument: leading white space, a
    sign, an optional [0x] prefix, then the longest run of digits. *)
Definition parseInt_string (str : string) : number :=
  let S0 := skip_white_space (bytes str) in
  let '(sign, S1) := match S0 with
                     | 45 :: t => (true, t)
                     | 43 :: t => (false, t)
                     | _ => (false, S0)
                     end in
  let '(R, S2) := match S1 with
                  | 48 :: 120 :: t | 48 :: 88 :: t => (16%Z, t)
                  | _ => (10%Z, S1)
                  end in
  let '(mathInt, n, _) := read_digits R 0 S2 in
  match n with
  | O => NaN
  | S _ =>
      match mathInt with
      | Z0 => S754_zero sign
      | _ => binary_normalize prec emax (if sign then - mathInt else mathInt) 0 sign
      end
  end.

End Text.

Export Text.

(** ** Numbers as text *)

Module NumberToString.

(** [Number::toString] in radix 10.

    The last [k] decimal digits of [z], most significant first. *)
Fixpoint digits (k : nat) (z : Z) : string :=
  match k with
  | O => ""
  | S k' => digits k' (z / 10) +:+ String (ascii_of_N (Z.to_N (48 + z mod 10))) ""
  end.

(** How many decimal digits a positive integer has. *)
Fixpoint count_digits (fuel : nat) (z : Z) : nat :=
  match fuel with
  | O => 1%nat
  | S fuel' => if (z <? 10) then 1%nat else S (count_digits fuel' (z / 10))
  end.

Definition decimal (z : Z) : string :=
  digits (count_digits (Z.to_nat (Z.log2 z)) z) z.

Fixpoint zeros (k : nat) : string :=
  match k with
  | O => ""
  | S k' => String "0" (zeros k')
  end.

(** [m * 2^e * 10^p] as a fraction. *)
Definition scaled (m : positive) (e p : Z) : Z * Z :=
  (Zpos m * 2 ^ Z.max e 0 * 10 ^ Z.max p 0, 2 ^ Z.max (- e) 0 * 10 ^ Z.max (- p) 0).

(** The least [n] from [n0] on with [m * 2^e < 10^n]. *)
Fixpoint decimal_exponent (fuel : nat) (m : positive) (e n0 : Z) : Z :=
  match fuel with
  | O => n0
  | S fuel' =>
      let '(num, den) := scaled m e (- n0) in
      if (num <? den) then n0 else decimal_exponent fuel' m e (n0 + 1)
  end.

Definition same (x : number) (m : positive) (e : Z) : bool :=
  match x with
  | S754_finite false m' e' => ((e' =? e) && (Zpos m' =? Zpos m))
  | _ => false
  end.

(** The digits [s], their number [k] and the exponent [n] of
    [Number::toString]: [s * 10^(n-k)] is the shortest decimal that reads
    back as [m * 2^e]; of two, the nearer, and the even one on a tie. *)
Fixpoint shortest (fuel : nat) (k : Z) (m : positive) (e n : Z) : Z * Z * Z :=
  match fuel with
  | O => (Zpos m, k, n)
  | S fuel' =>
      let '(num, den) := scaled m e (k - n) in
      let lo := (num / den) in
      let hi := (lo + 1) in
      let ok_lo := same (of_decimal false lo (n - k)) m e in
      let ok_hi := same (of_decimal false hi (n - k)) m e in
      let pick s := if (s =? 10 ^ k) then (1, 1, n + 1) else (s, k, n) in
      if ok_lo && ok_hi then
        match (2 * num ?= (2 * lo + 1) * den) with
        | Lt => pick lo
        | Gt => pick hi
        | Eq => pick (if Z.even lo then lo else hi)
        end
      else if ok_lo then pick lo
      else if ok_hi then pick hi
      else shortest fuel' (k + 1) m e n
  end.

Definition exponent_suffix (n : Z) : string :=
  "e" +:+ (if (n - 1 <? 0) then "-" else "+") +:+ decimal (Z.abs (n - 1)).

(** Of a positive finite number: positional notation for a magnitude
    from 1e-6 up to, but not at, 1e21, and exponent notation otherwise. *)
Definition positive_toString (m : positive) (e : Z) : string :=
  let n0 := decimal_exponent 8 m e (((Z.log2 (Zpos m) + e) * 30103) / 100000 - 2) in
  let '(s, k, n) := shortest 17 1 m e n0 in
  let ds := digits (Z.to_nat k) s in
  if ((k <=? n) && (n <=? 21)) then ds +:+ zeros (Z.to_nat (n - k))
  else if ((0 <? n) && (n <=? 21))
  then substring 0 (Z.to_nat n) ds +:+ "." +:+ substring (Z.to_nat n) (Z.to_nat (k - n)) ds
  else if ((-6 <? n) && (n <=? 0)) then "0." +:+ zeros (Z.to_nat (- n)) +:+ ds
  else if (k =? 1) then ds +:+ exponent_suffix n
  else substring 0 1 ds +:+ "." +:+ substring 1 (Z.to_nat (k - 1)) ds +:+ exponent_suffix n.

Definition Number_toString (x : number) : string :=
  match x with
  | S754_nan => "NaN"
  | S754_zero _ => "0"
  | S754_infinity s => if s then "-Infinity" else "Infinity"
  | S754_finite s m e => (if s then "-" else "") +:+ positive_toString m e
  end.

End NumberToString.

Export NumberToString.

(** ** Values

  The values a parsed request body or query string can hold: the
  primitive values, and objects and arrays of values. An object holds
  data: none of its fields is a function. *)

Module Value.

#[local] Set Warnings "-register-all".

Inductive value :=
| Undefined
| Null
| Boolean (b : bool)
| Num (n : number)
| Str (s : string)
| Obj (fields : list (string * value))
| Arr (items : list value).

#[global] Instance value_inhabited : Inhabited value := populate Undefined.

(** Neither an object nor an array. *)
Definition primitive (v : value) : bool :=
  match v with
  | Obj _ | Arr _ => false
  | _ => true
  end.

(** Whether a value can be made a primitive. An object is made one by
    the [toString] of [Object.prototype]; a field [toString] of its own,
    which is no function, hides it, and the conversion of such an
    object, and of an array that holds one, throws a TypeError. *)
Fixpoint convertible (v : value) : bool :=
  match v with
  | Obj fields => negb (existsb (fun kv => String.eqb (fst kv) "toString") fields)
  | Arr items => forallb convertible items
  | _ => true
  end.

(** [ToBoolean]: what [!v] negates. *)
Definition ToBoolean (v : value) : bool :=
  match v with
  | Undefined | Null => false
  | Boolean b => b
  | Num n => negb (is_zero n || is_nan n)
  | Str s => negb (is_nil (bytes s))
  | Obj _ | Arr _ => true
  end.

(** [ToString] of a value that can be made a primitive. An array is
    written as [Array.prototype.join] does, its elements separated by
    commas, [undefined] and [null] as nothing. *)
Fixpoint ToString (v : value) : string :=
  match v with
  | Undefined => "undefined"
  | Null => "null"
  | Boolean b => if b then "true" else "false"
  | Num n => Number_toString n
  | Str s => s
  | Obj _ => "[object Object]"
  | Arr items =>
      (fix join (l : list value) : string :=
         match l with
         | [] => ""
         | x :: l' =>
             match x with
             | Undefined | Null => ""
             | _ => ToString x
             end +:+
             match l' with
             | [] => ""
             | _ :: _ => "," +:+ join l'
             end
         end) items
  end.

(** [ToNumber]: an object or an array is first made a primitive, which
    is its string. Where that conversion throws, NaN stands in: the
    handlers throw before they compare. *)
Definition ToNumber (v : value) : number :=
  match v with
  | Undefined => NaN
  | Null => pos_zero
  | Boolean true => of_Z 1
  | Boolean false => pos_zero
  | Num n => n
  | Str s => StringToNumber s
  | Obj _ | Arr _ => if convertible v then StringToNumber (ToString v) else NaN
  end.

(** [v < k] and [v > k] against a number [k]: the left operand is not
    compared as a string, so both sides go through [ToNumber]. *)
Definition lt (v : value) (k : number) : bool := ltb (ToNumber v) k.
Definition gt (v : value) (k : number) : bool := ltb k (ToNumber v).

(** [Number::toString] writes a number in positional notation when its
    magnitude is at least 1e-6 and below 1e21, and with an exponent
    otherwise. *)
Definition positional (n : number) : bool :=
  leb (of_decimal false 1 (-6)) (SFabs n) && ltb (SFabs n) (of_Z (10 ^ 21)).

(** [parseInt(n)] of a number: [parseInt] reads [ToString(n)]. In
    positional notation the digits before the point are the integer part
    of [n]; in exponent notation they are read off the string. *)
Definition parseInt_number (n : number) : number :=
  match n with
  | S754_nan | S754_infinity _ => NaN
  | S754_zero _ => pos_zero
  | S754_finite _ _ _ =>
      if positional n then trunc n else parseInt_string (Number_toString n)
  end.

(** [parseInt(v)] with no radix argument. *)
Definition parseInt (v : value) : number :=
  match v with
  | Num n => parseInt_number n
  | _ => parseInt_string (ToString v)
  end.

End Value.

Export Value.

(** ** Regular expressions

  [new RegExp(pattern, 'i')] for the patterns whose meaning is settled
  here: printable ASCII text in which every character stands for itself
  except the dot, which stands for any one character. A pattern with an
  escape, an anchor, a quantifier, a group, a class or an alternative is
  left to the engine, which the routes take as a parameter. *)

Module RegExp.

#[local] Open Scope N_scope.

Inductive atom := Lit (c : N) | AnyChar.

Definition printable (b : N) : bool := (32 <=? b) && (b <=? 126).

(** [\ ^ $ * + ? ( ) [ ] { } |] *)
Definition syntax_character (b : N) : bool :=
  existsb (N.eqb b) [92; 94; 36; 42; 43; 63; 40; 41; 91; 93; 123; 125; 124].

Fixpoint compile (pattern : list N) : option (list atom) :=
  match pattern with
  | [] => Some []
  | b :: r =>
      if negb (printable b) || syntax_character b then None
      else match compile r with
           | Some atoms => Some ((if b =? 46 then AnyChar else Lit b) :: atoms)
           | None => None
           end
  end.

(** Case folding of the flag [i] on ASCII letters. *)
Definition fold_case (b : N) : N :=
  if (97 <=? b) && (b <=? 122) then b - 32 else b.

Definition atom_matches (a : atom) (b : N) : bool :=
  match a with
  | Lit c => fold_case c =? fold_case b
  | AnyChar => true
  end.

Fixpoint matches_here (atoms : list atom) (subject : list N) : bool :=
  match atoms, subject with
  | [], _ => true
  | a :: atoms', b :: subject' => atom_matches a b && matches_here atoms' subject'
  | _ :: _, [] => false
  end.

(** An unanchored search: a match may start anywhere. *)
Fixpoint search (atoms : list atom) (subject : list N) : bool :=
  matches_here atoms subject ||
  match subject with
  | [] => false
  | _ :: subject' => search atoms subject'
  end.

Definition has_any_char (atoms : list atom) : bool :=
  existsb (fun a => match a with AnyChar => true | Lit _ => false end) atoms.

(** [test]: [None] where a dot would meet text that is not printable
    ASCII (a line terminator, or a character of several bytes). *)
Definition test (atoms : list atom) (subject : string) : option bool :=
  if has_any_char atoms && negb (forallb printable (bytes subject)) then None
  else Some (search atoms (bytes subject)).

(** [needle] occurs in [subject], letter case apart. *)
Fixpoint prefix_ci (needle subject : list N) : bool :=
  match needle, subject with
  | [], _ => true
  | c :: needle', b :: subject' => (fold_case c =? fold_case b) && prefix_ci needle' subject'
  | _ :: _, [] => false
  end.

Fixpoint substring_ci (needle subject : list N) : bool :=
  prefix_ci needle subject ||
  match subject with
  | [] => false
  | _ :: subject' => substring_ci needle subject'
  end.

(** Text in which no character has a meaning of its own in a pattern. *)
Definition plain_text (pattern : string) : bool :=
  forallb (fun b => printable b && negb (syntax_character b) && negb (b =? 46))
          (bytes pattern).

End RegExp.

(** ** Ratings in range

  A rating value between 1 and 5 as a request carries it: a number of a
  JSON body, the decimal digit of a form field, or any value whose number
  lies between 1 and 5 and of which [parseInt], whose result is what is
  stored, reads an integer from 1 to 5. *)

Definition digit_string (k : Z) : string :=
String (ascii_of_N (Z.to_N (48 + k))) "".

Inductive in_range : value -> Prop :=
| in_range_number (x : number) :
  valid x = true -> leb (of_Z 1) x = true -> leb x (of_Z 5) = true -> in_range (Num x)
| in_range_digit (k : Z) :
  1 <= k <= 5 -> in_range (Str (digit_string k))
| in_range_read (v : value) (k : Z) :
  leb (of_Z 1) (ToNumber v) = true -> leb (ToNumber v) (of_Z 5) = true ->
  1 <= k <= 5 -> parseInt v = of_Z k -> in_range v.

(** ** Documents and collections *)

(** [status] of a contact request: [enum: ['pending', 'contacted', 'closed']]. *)
Inductive Status := pending | contacted | closed.

Section Routes.

(** Document identifiers, and Mongoose's cast of a request value that
    stands for one identifier (a string of 24 hexadecimal digits, say);
    [None] when the cast fails. *)
Context {ObjectId : Type} `{Countable ObjectId}.
Variable castObjectId : value -> option ObjectId.

(** What a query makes of an object or an array that stands for no one
    identifier, as the condition on a reference path: the query operators
    it spells ([{$ne: null}]), or for an array the list of [$in], as the
    set of identifiers that meet them; [None] when the cast fails. *)
Variable castOperators : value -> option (ObjectId -> bool).

(** The same for a condition on a path of strings. *)
Variable castStringOperators : value -> option (string -> bool).

(** The regular expression engine on the patterns that are given no
    meaning above: whether [new RegExp(pattern, 'i')] takes the pattern
    (it throws a SyntaxError otherwise), and whether the pattern is found
    in a text. *)
Variable RegExp_valid : string -> bool.
Variable RegExp_matches : string -> string -> bool.

(** The validation the [Rating] schema runs on [rating] before a save.
    The schema is declared in [models/Rating.js]. *)
Variable ratingValidator : number -> bool.

(** [contactRequestSchema], with the two timestamps of
    [timestamps: true]. *)
Record ContactRequest := {
  request_client : ObjectId;
  request_agent : ObjectId;
  request_property : ObjectId;
  request_status : Status;
  request_notes : string;
  request_createdAt : Z;
  request_updatedAt : Z
}.

(** [new ContactRequest({client, agent, property})]: the schema defaults
    fill [status] and [notes]. *)
Definition new_ContactRequest (client agent property : ObjectId) (now : Z) : ContactRequest :=
  {| request_client := client; request_agent := agent; request_property := property;
     request_status := pending; request_notes := "";
     request_createdAt := now; request_updatedAt := now |}.

(** The fields of a [Rating] that the routes write and read. The comment
    is kept as the request carries it: no route reads it back. *)
Record Rating := {
  rating_client : ObjectId;
  rating_agent : ObjectId;
  rating_property : ObjectId;
  rating_rating : number;
  rating_comment : value
}.

(** The fields of a [User] that the routes read and write. *)
Record User := {
  fullName : string;
  email : string;
  phone : string;
  role : string;
  unlockedAgents : list ObjectId;
  user_rating : number;
  totalRatings : nat
}.

Record Location := { area : string; state : string }.

(** The fields of a [Property] that the routes read. *)
Record Property := {
  title : string;
  location : Location;
  price : number;
  propertyType : string;
  property_status : string;
  property_agent : ObjectId;
  property_createdAt : Z
}.

(** A document read from a collection, with its [_id]. *)
Record Document (A : Type) := { _id : ObjectId; fields : A }.
Arguments _id {A} _.
Arguments fields {A} _.

Record Mail := { mail_from : string; mail_to : string; subject : string; html : string }.

(** The condition of a query on a reference path, once cast: the
    identifier to be equal to ([None] for [undefined] and [null], which
    no stored reference equals), or the identifiers that meet the
    operators of the query. *)
Inductive Condition :=
| is_id (o : option ObjectId)
| meets (p : ObjectId -> bool).

#[warning="-uniform-inheritance"]
Coercion is_id : option >-> Condition.

Definition holds (c : Condition) (x : ObjectId) : bool :=
  match c with
  | is_id (Some o) => bool_decide (o = x)
  | is_id None => false
  | meets p => p x
  end.

(** The calls that leave the handler, in the order they are made. *)
Inductive Call :=
| ContactRequest_findOne_call (client : ObjectId) (agent property : Condition)
| ContactRequest_save_call (r : ContactRequest)
| User_findById_call (id : Condition)
| User_save_call (id : ObjectId)
| Property_findById_call (id : Condition)
| Property_find_call
| Rating_findOne_call (client : ObjectId) (agent property : Condition)
| Rating_find_call (agent : Condition)
| Rating_save_call (r : Rating)
| sendMail_call (m : Mail).

(** What a handler can observe and change: the four collections, the
    flash messages of the session, the error console, the mail accepted by
    the transport, and the calls made so far. *)
Record World := {
  users : gmap ObjectId User;
  properties : gmap ObjectId Property;
  contactRequests : list ContactRequest;
  ratings : list Rating;
  flashes : list (string * string);
  console : list string;
  outbox : list Mail;
  calls : list Call
}.

(** Updates of one component of the world. *)
Definition set_users (f : gmap ObjectId User -> gmap ObjectId User) (w : World) : World :=
  {| users := f (users w); properties := properties w;
     contactRequests := contactRequests w; ratings := ratings w;
     flashes := flashes w; console := console w; outbox := outbox w; calls := calls w |}.

Definition set_contactRequests (f : list ContactRequest -> list ContactRequest) (w : World)
    : World :=
  {| users := users w; properties := properties w;
     contactRequests := f (contactRequests w); ratings := ratings w;
     flashes := flashes w; console := console w; outbox := outbox w; calls := calls w |}.

Definition set_ratings (f : list Rating -> list Rating) (w : World) : World :=
  {| users := users w; properties := properties w;
     contactRequests := contactRequests w; ratings := f (ratings w);
     flashes := flashes w; console := console w; outbox := outbox w; calls := calls w |}.

Definition set_flashes (f : list (string * string) -> list (string * string)) (w : World)
    : World :=
  {| users := users w; properties := properties w;
     contactRequests := contactRequests w; ratings := ratings w;
     flashes := f (flashes w); console := console w; outbox := outbox w; calls := calls w |}.

Definition set_console (f : list string -> list string) (w : World) : World :=
  {| users := users w; properties := properties w;
     contactRequests := contactRequests w; ratings := ratings w;
     flashes := flashes w; console := f (console w); outbox := outbox w; calls := calls w |}.

Definition set_outbox (f : list Mail -> list Mail) (w : World) : World :=
  {| users := users w; properties := properties w;
     contactRequests := contactRequests w; ratings := ratings w;
     flashes := flashes w; console := console w; outbox := f (outbox w); calls := calls w |}.

Definition set_calls (f : list Call -> list Call) (w : World) : World :=
  {| users := users w; properties := properties w;
     contactRequests := contactRequests w; ratings := ratings w;
     flashes := flashes w; console := console w; outbox := outbox w; calls := f (calls w) |}.

(** What a handler reads of its surroundings: the clock, the locale
    formatting of dates and numbers, [process.env.EMAIL_USER] and
    [req.app.locals.emailTransporter] ([None] when it is not set;
    otherwise whether it accepts a given mail). *)
Record Env := {
  now : Z;
  now_toLocaleString : string;
  number_toLocaleString : number -> string;
  EMAIL_USER : option string;
  emailTransporter : option (Mail -> bool)
}.

(** ** Handler monad *)

Inductive Error :=
| CastError (path : string)
| ValidationError (path : string)
| TypeError (message : string)
| SyntaxError (pattern : string)
| MailError.

(** How a computation ends: with a value or with an exception. *)
Inductive Completion (A : Type) :=
| Normal (a : A)
| Throw (e : Error).
Arguments Normal {A} _.
Arguments Throw {A} _.

Definition M (A : Type) : Type := World -> Completion A * World.

Definition ret {A} (a : A) : M A := fun w => (Normal a, w).

Definition bind {A B} (m : M A) (k : A -> M B) : M B :=
  fun w => match m w with
           | (Normal a, w') => k a w'
           | (Throw e, w') => (Throw e, w')
           end.

Definition throw {A} (e : Error) : M A := fun w => (Throw e, w).

(** [try { body } catch (error) { handler }] *)
Definition try_catch {A} (body : M A) (handler : Error -> M A) : M A :=
  fun w => match body w with
           | (Throw e, w') => handler e w'
           | r => r
           end.

Definition modify (f : World -> World) : M unit := fun w => (Normal tt, f w).

Definition gets {A} (f : World -> A) : M A := fun w => (Normal (f w), w).

Notation "'do' x <- m ; k" := (bind m (fun x => k))
  (at level 10, x name, m at level 100, k at level 200).
Notation "'exec' m ; k" := (bind m (fun _ => k))
  (at level 10, m at level 100, k at level 200).

Fixpoint for_each {A} (l : list A) (f : A -> M unit) : M unit :=
  match l with
  | [] => ret tt
  | x :: l' => exec f x ; for_each l' f
  end.

(** ** Effects *)

Definition call (c : Call) : M unit :=
  modify (set_calls (fun l => l ++ [c])).

(** [req.flash(key, message)] *)
Definition flash (key message : string) : M unit :=
  modify (set_flashes (fun l => l ++ [(key, message)])).

(** [console.error(label, error)] *)
Definition console_error (label : string) : M unit :=
  modify (set_console (fun l => l ++ [label])).

(** The conversion of a value to a primitive, where an operator or a
    built-in function needs one: it throws on a value that cannot be
    converted. *)
Definition ToPrimitive (v : value) : M unit :=
  if convertible v then ret tt
  else throw (TypeError "Cannot convert object to primitive value").

(** [emailTransporter.sendMail(mail)]: throws when there is no transport
    or when the transport refuses the mail. *)
Definition sendMail (env : Env) (m : Mail) : M unit :=
  match emailTransporter env with
  | None => throw (TypeError "Cannot read properties of undefined (reading 'sendMail')")
  | Some accepts =>
      exec call (sendMail_call m) ;
      if accepts m
      then modify (set_outbox (fun l => l ++ [m]))
      else throw MailError
  end.

(** ** Collections *)

(** The cast of a query condition on a reference path: [undefined] and
    [null] stay as they are (the driver sends both as [null], which no
    stored reference equals); a value that stands for one identifier is
    cast to it; any other object or array is cast as query operators;
    and the query throws when the cast fails. *)
Definition castFilter (path : string) (v : value) : M Condition :=
  match v with
  | Undefined | Null => ret (is_id None)
  | _ => match castObjectId v with
         | Some o => ret (is_id (Some o))
         | None =>
             if primitive v then throw (CastError path)
             else match castOperators v with
                  | Some p => ret (meets p)
                  | None => throw (CastError path)
                  end
         end
  end.

(** Modelled from the spec: [client], [agent], [property] of a Rating are
    required references, so a document without one, or with a value that
    is no identifier, fails validation when it is saved. *)
Definition castRequired (path : string) (v : value) : M ObjectId :=
  match v with
  | Undefined | Null => throw (ValidationError path)
  | _ => match castObjectId v with
         | Some o => ret o
         | None => throw (ValidationError path)
         end
  end.

Definition same_triple (client : ObjectId) (agent property : Condition)
    (c a p : ObjectId) : bool :=
  bool_decide (client = c) && holds agent a && holds property p.

(** The first document of a collection whose [_id] meets a condition, in
    the order the store keeps them. *)
Definition first_by_id {A} (c : Condition) (m : gmap ObjectId A) : option (Document A) :=
  match c with
  | is_id (Some i) => match m !! i with
                      | Some x => Some {| _id := i; fields := x |}
                      | None => None
                      end
  | is_id None => None
  | meets p => match find (fun ix => p ix.1) (map_to_list m) with
               | Some ix => Some {| _id := ix.1; fields := ix.2 |}
               | None => None
               end
  end.

(** [ContactRequest.findOne({client, agent, property})] *)
Definition ContactRequest_findOne (client : ObjectId) (agent property : value)
    : M (option ContactRequest) :=
  do a <- castFilter "agent" agent ;
  do p <- castFilter "property" property ;
  exec call (ContactRequest_findOne_call client a p) ;
  gets (fun w => find (fun r => same_triple client a p (request_client r)
                                  (request_agent r) (request_property r))
                      (contactRequests w)).

(** [contactRequest.save()] *)
Definition ContactRequest_save (r : ContactRequest) : M unit :=
  exec call (ContactRequest_save_call r) ;
  modify (set_contactRequests (fun l => l ++ [r])).

Definition User_lookup (id : Condition) : M (option (Document User)) :=
  exec call (User_findById_call id) ;
  gets (fun w => first_by_id id (users w)).

(** [User.findById(id)] on a value of the request. *)
Definition User_findById (id : value) : M (option (Document User)) :=
  do i <- castFilter "_id" id ;
  User_lookup i.

(** [User.findById(req.session.user._id)] *)
Definition User_findById_session (sessionUser : ObjectId) : M (option (Document User)) :=
  User_lookup (Some sessionUser).

(** [agent.save()] *)
Definition User_save (d : Document User) : M unit :=
  exec call (User_save_call (_id d)) ;
  modify (set_users (fun m => <[_id d := fields d]> m)).

(** [Property.findById(id)] *)
Definition Property_findById (id : value) : M (option (Document Property)) :=
  do i <- castFilter "_id" id ;
  exec call (Property_findById_call i) ;
  gets (fun w => first_by_id i (properties w)).

(** [Rating.findOne({client, agent, property})] *)
Definition Rating_findOne (client : ObjectId) (agent property : value) : M (option Rating) :=
  do a <- castFilter "agent" agent ;
  do p <- castFilter "property" property ;
  exec call (Rating_findOne_call client a p) ;
  gets (fun w => find (fun r => same_triple client a p (rating_client r)
                                  (rating_agent r) (rating_property r))
                      (ratings w)).

(** [Rating.find({agent})] *)
Definition Rating_find (agent : value) : M (list Rating) :=
  do a <- castFilter "agent" agent ;
  exec call (Rating_find_call a) ;
  gets (fun w => filter (fun r => holds a (rating_agent r) = true) (ratings w)).

(** [new Rating({client, agent, property, rating, comment}).save()]: the
    document is validated, then inserted. *)
Definition Rating_save (client : ObjectId) (agent property : value) (rating : number)
    (comment : value) : M unit :=
  do a <- castRequired "agent" agent ;
  do p <- castRequired "property" property ;
  if ratingValidator rating
  then
    let r := {| rating_client := client; rating_agent := a; rating_property := p;
                rating_rating := rating; rating_comment := comment |} in
    exec call (Rating_save_call r) ;
    modify (set_ratings (fun l => l ++ [r]))
  else throw (ValidationError "rating").

(** ** Responses *)

(** The filter of the dashboard query: [status] is always there, the
    other conditions when their parameter was given. *)
Record PriceCondition := { gte : option number; lte : option number }.

(** A regular expression is known by its pattern; [propertyType] holds
    the parameter as it came, to be cast when the query is made. *)
Record Filter := {
  filter_status : string;
  filter_location_state : option string;
  filter_location_area : option string;
  filter_price : option PriceCondition;
  filter_propertyType : option value
}.

(** [req.query] of the dashboard: each parameter is a string, an object
    or an array, or [undefined] when it is absent. *)
Record Query := {
  query_state : value;
  query_area : value;
  query_minPrice : value;
  query_maxPrice : value;
  query_type : value
}.

(** A property with [populate('agent', 'fullName phone')] applied: of
    the agent, the [_id] and the two fields selected. *)
Record Populated := {
  populated_property : Document Property;
  populated_agent : option (Document (string * string))
}.

Inductive Body :=
| error_body (error : string)
| success_body (message : string).

Inductive Response :=
| json (status : nat) (body : Body)
| redirect (path : string)
| render_dashboard (view title : string) (properties : list Populated)
    (client : option (Document User)) (filters : Query)
| render_rate_agent (view title : string) (agent : Document User)
    (properties : list (Document Property)).

(** ** POST /contact-agent *)

Definition adminEmails : list string :=
  ["anthonyajibola65@gmail.com"; "Kennethuwota12@gmail.com"].

Definition emailContent (env : Env) (client agent : User) (property : Property) : string :=
  "
      <h2>🏠 New Contact Request - HomLet</h2>
      <p><strong>Client:</strong> " +:+ fullName client +:+ " (" +:+ email client +:+ ")</p>
      <p><strong>Phone:</strong> " +:+ phone client +:+ "</p>
      <p><strong>Agent:</strong> " +:+ fullName agent +:+ " (" +:+ email agent +:+ ")</p>
      <p><strong>Property:</strong> " +:+ title property +:+ "</p>
      <p><strong>Location:</strong> " +:+ area (location property) +:+ ", "
      +:+ state (location property) +:+ "</p>
      <p><strong>Price:</strong> ₦" +:+ number_toLocaleString env (price property) +:+ "</p>
      <p><strong>Time:</strong> " +:+ now_toLocaleString env +:+ "</p>
      <hr>
      <p>Please follow up on this contact request.</p>
    ".

(** [process.env.EMAIL_USER || 'noreply@homlet.com'] *)
Definition sender (env : Env) : string :=
  match EMAIL_USER env with
  | Some (String c u) => String c u
  | _ => "noreply@homlet.com"
  end.

Definition createRequest (env : Env) (sessionUser : ObjectId) (agentId propertyId : value)
    : M Response :=
  try_catch
    ((* Validate inputs *)
     if negb (ToBoolean agentId) || negb (ToBoolean propertyId)
     then ret (json 400 (error_body "Missing agent or property ID"))
     else
       (* Check if contact request already exists *)
       do existingRequest <- ContactRequest_findOne sessionUser agentId propertyId ;
       match existingRequest with
       | Some _ =>
           ret (json 400 (error_body "You have already contacted this agent for this property"))
       | None =>
           (* Get client, agent, and property details *)
           do client <- User_findById_session sessionUser ;
           do agent <- User_findById agentId ;
           do property <- Property_findById propertyId ;
           match client, agent, property with
           | Some client, Some agent, Some property =>
               (* Create contact request *)
               let contactRequest :=
                 new_ContactRequest (_id client) (_id agent) (_id property) (now env) in
               exec ContactRequest_save contactRequest ;
               (* Send email notifications *)
               let emailContent :=
                 emailContent env (fields client) (fields agent) (fields property) in
               exec for_each adminEmails (fun email =>
                 try_catch
                   (sendMail env
                      {| mail_from := sender env;
                         mail_to := email;
                         subject := "🏠 New Contact Request - " +:+ fullName (fields client)
                                      +:+ " contacted " +:+ fullName (fields agent);
                         html := emailContent |})
                   (fun emailError => console_error "Email sending error:")) ;
               ret (json 200 (success_body "Contact request sent successfully"))
           | _, _, _ =>
               ret (json 404 (error_body "Client, agent, or property not found"))
           end
       end)
    (fun error =>
       exec console_error "Contact agent error:" ;
       ret (json 500 (error_body "Failed to send contact request"))).

(** ** GET /rate/:agentId *)

(** [Property.find({agent})] *)
Definition Property_find_agent (agent : ObjectId) : M (list (Document Property)) :=
  exec call Property_find_call ;
  gets (fun w => map (fun iq => {| _id := iq.1; fields := iq.2 |})
                   (filter (fun iq => property_agent iq.2 = agent)
                           (map_to_list (properties w)))).

Definition rateAgentPage (sessionUser : ObjectId) (agentId : string) : M Response :=
  try_catch
    (do agent <- User_findById (Str agentId) ;
     let not_found :=
       exec flash "error_msg" "Agent not found" ;
       ret (redirect "/client/dashboard") in
     match agent with
     | None => not_found
     | Some agent =>
         if negb (String.eqb (role (fields agent)) "agent") then not_found
         else
           do client <- User_findById_session sessionUser ;
           match client with
           | None => throw (TypeError "Cannot read properties of null (reading 'unlockedAgents')")
           | Some client =>
               if negb (bool_decide (_id agent ∈ unlockedAgents (fields client)))
               then
                 exec flash "error_msg" "You can only rate agents you have unlocked" ;
                 ret (redirect "/client/dashboard")
               else
                 (* Get properties by this agent that the client has accessed *)
                 do properties <- Property_find_agent (_id agent) ;
                 ret (render_rate_agent "client/rate-agent" "Rate Agent" agent properties)
           end
     end)
    (fun error =>
       exec console_error "Rate agent error:" ;
       exec flash "error_msg" "Error loading rating page" ;
       ret (redirect "/client/dashboard")).

(** ** POST /rate/:agentId *)

(** [allRatings.reduce((sum, r) => sum + r.rating, 0)] *)
Definition totalRating (allRatings : list Rating) : number :=
  fold_left (fun sum r => add sum (rating_rating r)) allRatings pos_zero.

(** [totalRating / allRatings.length] *)
Definition avgRating (allRatings : list Rating) : number :=
  div (totalRating allRatings) (of_nat (length allRatings)).

Definition submitRating (sessionUser : ObjectId) (agentId : string)
    (rating comment propertyId : value) : M Response :=
  try_catch
    ((* Validate rating *)
     (* [!rating] is false of every object and array, so [rating < 1] is
        reached for each of them, and converts it *)
     exec ToPrimitive rating ;
     if negb (ToBoolean rating) || lt rating (of_Z 1) || gt rating (of_Z 5)
     then
       exec flash "error_msg" "Please provide a valid rating (1-5)" ;
       ret (redirect ("/client/rate/" +:+ agentId))
     else
       (* Check if client has already rated this agent for this property *)
       do existingRating <- Rating_findOne sessionUser (Str agentId) propertyId ;
       match existingRating with
       | Some _ =>
           exec flash "error_msg" "You have already rated this agent for this property" ;
           ret (redirect "/client/dashboard")
       | None =>
           (* Create new rating *)
           exec Rating_save sessionUser (Str agentId) propertyId (parseInt rating) comment ;
           (* Update agent's average rating *)
           do agent <- User_findById (Str agentId) ;
           do allRatings <- Rating_find (Str agentId) ;
           match agent with
           | None => throw (TypeError "Cannot set properties of null (setting 'rating')")
           | Some agent =>
               let agent' :=
                 {| _id := _id agent;
                    fields := {| fullName := fullName (fields agent);
                                 email := email (fields agent);
                                 phone := phone (fields agent);
                                 role := role (fields agent);
                                 unlockedAgents := unlockedAgents (fields agent);
                                 user_rating := avgRating allRatings;
                                 totalRatings := length allRatings |} |} in
               exec User_save agent' ;
               exec flash "success_msg" "Rating submitted successfully!" ;
               ret (redirect "/client/dashboard")
           end
       end)
    (fun error =>
       exec console_error "Submit rating error:" ;
       exec flash "error_msg" "Error submitting rating" ;
       ret (redirect "/client/dashboard")).

(** ** GET /dashboard *)

(** [if (param)]: a query parameter counts when it is truthy, so a
    non-empty string, an object or an array. *)
Definition given (param : value) : option value :=
  if ToBoolean param then Some param else None.

(** Whether [new RegExp(pattern, 'i')] takes the pattern. *)
Definition regexp_valid (pattern : string) : bool :=
  match RegExp.compile (bytes pattern) with
  | Some _ => true
  | None => RegExp_valid pattern
  end.

(** Whether the regular expression of a pattern is found in a text. *)
Definition regexp_test (pattern subject : string) : bool :=
  match RegExp.compile (bytes pattern) with
  | Some atoms =>
      match RegExp.test atoms subject with
      | Some found => found
      | None => RegExp_matches pattern subject
      end
  | None => RegExp_matches pattern subject
  end.

(** [new RegExp(pattern, 'i')]: the pattern is the parameter as a
    string. *)
Definition new_RegExp (pattern : value) : M string :=
  exec ToPrimitive pattern ;
  if regexp_valid (ToString pattern) then ret (ToString pattern)
  else throw (SyntaxError (ToString pattern)).

Definition buildFilter (q : Query) : M Filter :=
  let filter := {| filter_status := "active"; filter_location_state := None;
                   filter_location_area := None; filter_price := None;
                   filter_propertyType := None |} in
  do filter <-
    match given (query_state q) with
    | Some state =>
        do re <- new_RegExp state ;
        ret {| filter_status := filter_status filter;
               filter_location_state := Some re;
               filter_location_area := filter_location_area filter;
               filter_price := filter_price filter;
               filter_propertyType := filter_propertyType filter |}
    | None => ret filter
    end ;
  do filter <-
    match given (query_area q) with
    | Some area =>
        do re <- new_RegExp area ;
        ret {| filter_status := filter_status filter;
               filter_location_state := filter_location_state filter;
               filter_location_area := Some re;
               filter_price := filter_price filter;
               filter_propertyType := filter_propertyType filter |}
    | None => ret filter
    end ;
  do filter <-
    match given (query_minPrice q) with
    | Some minPrice =>
        exec ToPrimitive minPrice ;
        ret {| filter_status := filter_status filter;
               filter_location_state := filter_location_state filter;
               filter_location_area := filter_location_area filter;
               filter_price := Some {| gte := Some (parseInt minPrice); lte := None |};
               filter_propertyType := filter_propertyType filter |}
    | None => ret filter
    end ;
  do filter <-
    match given (query_maxPrice q) with
    | Some maxPrice =>
        exec ToPrimitive maxPrice ;
        ret {| filter_status := filter_status filter;
               filter_location_state := filter_location_state filter;
               filter_location_area := filter_location_area filter;
               filter_price :=
                 Some {| gte := match filter_price filter with
                                | Some c => gte c
                                | None => None
                                end;
                         lte := Some (parseInt maxPrice) |};
               filter_propertyType := filter_propertyType filter |}
    | None => ret filter
    end ;
  let filter :=
    match given (query_type q) with
    | Some type =>
        {| filter_status := filter_status filter;
           filter_location_state := filter_location_state filter;
           filter_location_area := filter_location_area filter;
           filter_price := filter_price filter;
           filter_propertyType := Some type |}
    | None => filter
    end in
  ret filter.

(** A bound of the price condition that is NaN cannot be cast to a
    number: the query throws. *)
Definition castable (bound : option number) : bool :=
  match bound with
  | Some n => negb (is_nan n)
  | None => true
  end.

(** The cast of a condition on a path of strings: a primitive value is
    its string, to be equal to; an object or an array is cast as query
    operators; [None] when the cast fails. *)
Definition castString (v : value) : option (string -> bool) :=
  if primitive v then Some (String.eqb (ToString v)) else castStringOperators v.

Definition price_matches (c : option PriceCondition) (p : number) : bool :=
  match c with
  | None => true
  | Some c =>
      match gte c with Some lo => leb lo p | None => true end &&
      match lte c with Some hi => leb p hi | None => true end
  end.

Definition regex_matches (re : option string) (subject : string) : bool :=
  match re with
  | None => true
  | Some pattern => regexp_test pattern subject
  end.

Definition type_matches (t : option value) (subject : string) : bool :=
  match t with
  | None => true
  | Some v => match castString v with
              | Some condition => condition subject
              | None => false
              end
  end.

(** Whether a property satisfies every condition of the filter. *)
Definition matches (f : Filter) (q : Property) : bool :=
  String.eqb (property_status q) (filter_status f)
  && price_matches (filter_price f) (price q)
  && type_matches (filter_propertyType f) (propertyType q)
  && regex_matches (filter_location_state f) (state (location q))
  && regex_matches (filter_location_area f) (area (location q)).

Definition select (f : Filter) (l : list (ObjectId * Property)) : list (Document Property) :=
  map (fun iq => {| _id := iq.1; fields := iq.2 |})
      (filter (fun iq => matches f iq.2 = true) l).

(** [sort({ createdAt: -1 })] *)
Definition newer_first (a b : Document Property) : Prop :=
  property_createdAt (fields b) <= property_createdAt (fields a).

#[global] Instance newer_first_dec a b : Decision (newer_first a b).
Proof. unfold newer_first. apply _. Defined.

(** [populate('agent', 'fullName phone')] *)
Definition populate (us : gmap ObjectId User) (d : Document Property) : Populated :=
  {| populated_property := d;
     populated_agent := match us !! property_agent (fields d) with
                        | Some u => Some {| _id := property_agent (fields d);
                                            fields := (fullName u, phone u) |}
                        | None => None
                        end |}.

(** [Property.find(filter).populate(...).sort(...)]: the filter is cast,
    then the query is made. *)
Definition Property_find (f : Filter) : M (list Populated) :=
  if match filter_price f with
     | Some c => castable (gte c) && castable (lte c)
     | None => true
     end
     && match filter_propertyType f with
        | Some v => match castString v with
                    | Some _ => true
                    | None => false
                    end
        | None => true
        end
  then
    exec call Property_find_call ;
    gets (fun w => map (populate (users w))
                       (merge_sort newer_first (select f (map_to_list (properties w)))))
  else throw (CastError "filter").

Definition dashboard (sessionUser : ObjectId) (q : Query) : M Response :=
  try_catch
    (do filter <- buildFilter q ;
     do properties <- Property_find filter ;
     do client <- User_findById_session sessionUser ;
     ret (render_dashboard "client/dashboard" "Client Dashboard" properties client q))
    (fun error =>
       exec console_error "Dashboard error:" ;
       exec flash "error_msg" "Error loading dashboard" ;
       ret (redirect "/")).

(** ** Collections as the claims speak of them *)

(** The four collections, apart from what a request only logs. *)
Definition store (w : World)
    : gmap ObjectId User * gmap ObjectId Property * list ContactRequest * list Rating :=
  (users w, properties w, contactRequests w, ratings w).

Definition request_triple (r : ContactRequest) : ObjectId * ObjectId * ObjectId :=
  (request_client r, request_agent r, request_property r).

Definition rating_triple (r : Rating) : ObjectId * ObjectId * ObjectId :=
  (rating_client r, rating_agent r, rating_property r).

(** No two contact requests and no two ratings share a triple. *)
Definition unique_triples (w : World) : Prop :=
  NoDup (map request_triple (contactRequests w)) /\
  NoDup (map rating_triple (ratings w)).

(** The identifier a reference value of the request stands for. *)
Definition reference (v : value) : option ObjectId :=
  match v with
  | Undefined | Null => None
  | _ => castObjectId v
  end.

(** The ratings stored for an agent. *)
Definition ratings_of (agent : ObjectId) (l : list Rating) : list Rating :=
  filter (fun r => Some agent = Some (rating_agent r)) l.

(** The mail sent to one operator address. *)
Definition notification (env : Env) (client agent : User) (property : Property)
    (to : string) : Mail :=
  {| mail_from := sender env;
     mail_to := to;
     subject := "🏠 New Contact Request - " +:+ fullName client
                  +:+ " contacted " +:+ fullName agent;
     html := emailContent env client agent property |}.

(** Whether the transport takes a mail. *)
Definition accepted (env : Env) (m : Mail) : bool :=
  match emailTransporter env with
  | Some accepts => accepts m
  | None => false
  end.

(** The calls of the notification loop: one per mail when there is a
    transport, none when there is none to call. *)
Definition sendMail_calls (env : Env) (mails : list Mail) : list Call :=
  match emailTransporter env with
  | Some _ => map sendMail_call mails
  | None => []
  end.

(** The results of [POST /contact-agent] by the names the specification
    gives them. *)
Definition MissingField : Response := json 400 (error_body "Missing agent or property ID").
Definition DuplicateRequest : Response :=
  json 400 (error_body "You have already contacted this agent for this property").
Definition NotFound : Response := json 404 (error_body "Client, agent, or property not found").
Definition Unexpected : Response := json 500 (error_body "Failed to send contact request").
Definition Success : Response := json 200 (success_body "Contact request sent successfully").

(** A contact request is on record for the triple. *)
Definition requested (w : World) (client agent property : ObjectId) : Prop :=
  (client, agent, property) ∈ map request_triple (contactRequests w).

#[global] Instance requested_dec w client agent property :
  Decision (requested w client agent property).
Proof. unfold requested. apply _. Defined.

(** The calls of a request that gets past the duplicate check. *)
Definition lookups (u a p : ObjectId) : list Call :=
  [ContactRequest_findOne_call u (Some a) (Some p);
   User_findById_call (Some u); User_findById_call (Some a);
   Property_findById_call (Some p)].

(** The same calls when the agent and the property are given by
    conditions. *)
Definition lookups_for (u : ObjectId) (agent property : Condition) : list Call :=
  [ContactRequest_findOne_call u agent property;
   User_findById_call (Some u); User_findById_call agent;
   Property_findById_call property].

(** A triple of the client whose agent and property meet two
    conditions. *)
Definition meeting (client : ObjectId) (agent property : Condition)
    (t : ObjectId * ObjectId * ObjectId) : Prop :=
  t.1.1 = client /\ holds agent t.1.2 = true /\ holds property t.2 = true.

#[global] Instance meeting_dec client agent property t :
  Decision (meeting client agent property t).
Proof. unfold meeting. apply _. Defined.

(** A contact request, or a rating, of the client is on record whose
    agent and property meet the conditions. *)
Definition on_record (w : World) (client : ObjectId) (agent property : Condition) : Prop :=
  Exists (meeting client agent property) (map request_triple (contactRequests w)).

Definition rated_meeting (w : World) (client : ObjectId) (agent property : Condition)
    : Prop :=
  Exists (meeting client agent property) (map rating_triple (ratings w)).

(** What a query makes of a reference value: the condition it is cast
    to, or a failed cast ([None]). *)
Definition query_reference (v : value) : option Condition :=
  match v with
  | Undefined | Null => Some (is_id None)
  | _ => match castObjectId v with
         | Some o => Some (is_id (Some o))
         | None => if primitive v then None else meets <$> castOperators v
         end
  end.

(** The condition under which [POST /rate/:agentId] turns a rating away. *)
Definition rejected (rating : value) : bool :=
  negb (ToBoolean rating) || lt rating (of_Z 1) || gt rating (of_Z 5).

(** A rating passes the validation: the comparison does not throw, and
    the rating is not turned away. *)
Definition validated (rating : value) : bool :=
  convertible rating && negb (rejected rating).

(** A rating is on record for the triple. *)
Definition rated (w : World) (client agent property : ObjectId) : Prop :=
  (client, agent, property) ∈ map rating_triple (ratings w).

#[global] Instance rated_dec w client agent property :
  Decision (rated w client agent property).
Proof. unfold rated. apply _. Defined.

(** The results of [POST /rate/:agentId] by the names the specification
    gives them: each is a flash message and a redirect. *)
Definition InvalidRating_flash : string * string :=
  ("error_msg", "Please provide a valid rating (1-5)").
Definition DuplicateRating_flash : string * string :=
  ("error_msg", "You have already rated this agent for this property").
Definition Unexpected_flash : string * string :=
  ("error_msg", "Error submitting rating").
Definition Success_flash : string * string :=
  ("success_msg", "Rating submitted successfully!").

(** The agent's document after the aggregate is written back. *)
Definition with_aggregate (agent : User) (allRatings : list Rating) : User :=
  {| fullName := fullName agent; email := email agent; phone := phone agent;
     role := role agent; unlockedAgents := unlockedAgents agent;
     user_rating := avgRating allRatings; totalRatings := length allRatings |}.

(** The world after the [catch] of [POST /rate/:agentId]. *)
Definition failed (w : World) : World :=
  set_flashes (fun l => l ++ [Unexpected_flash])
    (set_console (fun l => l ++ ["Submit rating error:"]) w).

(** The world after a rating [r] is stored and the aggregate of its agent
    is read. *)
Definition stored (r : Rating) (po : option ObjectId) (w : World) : World :=
  set_calls (fun l => l ++ [Rating_find_call (Some (rating_agent r))])
    (set_calls (fun l => l ++ [User_findById_call (Some (rating_agent r))])
      (set_ratings (fun l => l ++ [r])
        (set_calls (fun l => l ++ [Rating_save_call r])
          (set_calls (fun l => l ++ [Rating_findOne_call (rating_client r)
                                       (Some (rating_agent r)) po]) w)))).

(** The properties a rendered dashboard lists, in order. *)
Definition listed (r : Completion Response) : list (Document Property) :=
  match r with
  | Normal (render_dashboard _ _ properties _ _) => map populated_property properties
  | _ => []
  end.

(** The condition the two price parameters put on [price]. *)
Definition price_condition (q : Query) : option PriceCondition :=
  match given (query_minPrice q), given (query_maxPrice q) with
  | None, None => None
  | Some lo, None => Some {| gte := Some (parseInt lo); lte := None |}
  | None, Some hi => Some {| gte := None; lte := Some (parseInt hi) |}
  | Some lo, Some hi => Some {| gte := Some (parseInt lo); lte := Some (parseInt hi) |}
  end.

(** The filter the handler builds when both patterns are regular
    expressions. *)
Definition filter_of (q : Query) : Filter :=
  {| filter_status := "active";
     filter_location_state := ToString <$> given (query_state q);
     filter_location_area := ToString <$> given (query_area q);
     filter_price := price_condition q;
     filter_propertyType := given (query_type q) |}.

(** What the parameters of a dashboard query ask of a property: an
    active status, and for each parameter given, its own condition. *)
Definition satisfies (q : Query) (p : Property) : Prop :=
  property_status p = "active" /\
  (forall v, given (query_state q) = Some v ->
     regexp_test (ToString v) (state (location p)) = true) /\
  (forall v, given (query_area q) = Some v ->
     regexp_test (ToString v) (area (location p)) = true) /\
  (forall v, given (query_minPrice q) = Some v -> leb (parseInt v) (price p) = true) /\
  (forall v, given (query_maxPrice q) = Some v -> leb (price p) (parseInt v) = true) /\
  (forall v, given (query_type q) = Some v ->
     exists condition, castString v = Some condition /\ condition (propertyType p) = true).

(** A text parameter of the dashboard that is given and of which
    [new RegExp] makes no regular expression: it cannot be made a string,
    or the string is no pattern. *)
Definition pattern_fails (param : value) : bool :=
  match given param with
  | Some v => negb (convertible v) || negb (regexp_valid (ToString v))
  | None => false
  end.

(** A [type] parameter that is given and cannot be cast to a condition
    on [propertyType]. *)
Definition type_fails (param : value) : bool :=
  match given param with
  | Some v => match castString v with
              | Some _ => false
              | None => true
              end
  | None => false
  end.

(** The same surroundings with another mail transport. *)
Definition with_transporter (env : Env) (t : option (Mail -> bool)) : Env :=
  {| now := now env; now_toLocaleString := now_toLocaleString env;
     number_toLocaleString := number_toLocaleString env;
     EMAIL_USER := EMAIL_USER env; emailTransporter := t |}.

(** One operation of the two services, and a run of them one at a time. *)
Inductive Operation :=
| CreateRequest (env : Env) (sessionUser : ObjectId) (agentId propertyId : value)
| SubmitRating (sessionUser : ObjectId) (agentId : string) (rating comment propertyId : value).

Definition step (o : Operation) (w : World) : World :=
  match o with
  | CreateRequest env u agentId propertyId => (createRequest env u agentId propertyId w).2
  | SubmitRating u agentId rating comment propertyId =>
      (submitRating u agentId rating comment propertyId w).2
  end.

Definition run (os : list Operation) (w : World) : World :=
  fold_left (fun w o => step o w) os w.

(** ** The router *)

(** A request to one of the four routes, past [isAuthenticated] and
    [isClient]. *)
Inductive Request :=
| GET_dashboard (sessionUser : ObjectId) (query : Query)
| POST_contact_agent (env : Env) (sessionUser : ObjectId) (agentId propertyId : value)
| GET_rate (sessionUser : ObjectId) (agentId : string)
| POST_rate (sessionUser : ObjectId) (agentId : string) (rating comment propertyId : value).

Definition router (r : Request) : M Response :=
  match r with
  | GET_dashboard u q => dashboard u q
  | POST_contact_agent env u agentId propertyId => createRequest env u agentId propertyId
  | GET_rate u agentId => rateAgentPage u agentId
  | POST_rate u agentId rating comment propertyId =>
      submitRating u agentId rating comment propertyId
  end.

(** The requests served one after the other, each to its end. *)
Definition serve (rs : list Request) (w : World) : World :=
  fold_left (fun w r => (router r w).2) rs w.

(** ** The routes beyond the claims *)

(** The world after the [catch] of [GET /rate/:agentId]. *)
Definition page_failed (w : World) : World :=
  set_flashes (fun l => l ++ [("error_msg", "Error loading rating page")])
    (set_console (fun l => l ++ ["Rate agent error:"]) w).

(** The world after the [catch] of [GET /dashboard]. *)
Definition dashboard_failed (w : World) : World :=
  set_flashes (fun l => l ++ [("error_msg", "Error loading dashboard")])
    (set_console (fun l => l ++ ["Dashboard error:"]) w).

(** The world after the [catch] of [POST /contact-agent]. *)
Definition request_failed (w : World) : World :=
  set_console (fun l => l ++ ["Contact agent error:"]) w.

(** The documents [Property.find({ agent })] returns. *)
Definition properties_of (agent : ObjectId) (w : World) : list (Document Property) :=
  map (fun iq => {| _id := iq.1; fields := iq.2 |})
      (filter (fun iq => property_agent iq.2 = agent) (map_to_list (properties w))).

(** The document of the session's user, [null] when there is none. *)
Definition session_document (sessionUser : ObjectId) (w : World) : option (Document User) :=
  match users w !! sessionUser with
  | Some u => Some {| _id := sessionUser; fields := u |}
  | None => None
  end.

(** What a user document holds apart from the aggregate of the ratings. *)
Definition identity (u : User) : string * string * string * string * list ObjectId :=
  (fullName u, email u, phone u, role u, unlockedAgents u).

(** Every rated user on record carries the mean and the number of the
    ratings stored for them. *)
Definition aggregate_consistent (w : World) : Prop :=
  forall a agent, users w !! a = Some agent -> ratings_of a (ratings w) <> [] ->
    user_rating agent = avgRating (ratings_of a (ratings w)) /\
    totalRatings agent = length (ratings_of a (ratings w)).

(** A text parameter of the dashboard that is not given, or is plain
    text. *)
Definition plain_param (param : value) : bool :=
  match given param with
  | Some (Str s) => RegExp.plain_text s
  | Some _ => false
  | None => true
  end.

(** A parameter that is not given, or can be made a string. *)
Definition readable (param : value) : bool :=
  match given param with
  | Some v => convertible v
  | None => true
  end.

(** A price parameter of the dashboard that is not given, or of which
    [parseInt] makes a number. *)
Definition numeric_param (param : value) : bool :=
  match given param with
  | Some v => convertible v && negb (is_nan (parseInt v))
  | None => true
  end.

(** A dashboard query that fails as a whole: a pattern that is no regular
    expression, a price bound that is no number, or a type that cannot be
    cast. *)
Definition query_fails (q : Query) : bool :=
  pattern_fails (query_state q) || pattern_fails (query_area q)
  || negb (numeric_param (query_minPrice q)) || negb (numeric_param (query_maxPrice q))
  || type_fails (query_type q).

(** The four messages [POST /rate/:agentId] can leave. *)
Definition rating_flashes : list (string * string) :=
  [InvalidRating_flash; DuplicateRating_flash; Unexpected_flash; Success_flash].

(** The five answers of [POST /contact-agent]. *)
Definition request_answers : list Response :=
  [MissingField; DuplicateRequest; NotFound; Unexpected; Success].

End Routes.

Arguments _id {ObjectId A} _.
Arguments fields {ObjectId A} _.
Arguments Normal {A} _.
Arguments Throw {A} _.

(** ** A concrete deployment

  Identifiers as the 96-bit numbers their 24 hexadecimal digits spell, a
  [Rating] schema with [min: 1] and [max: 5], and a small world. *)

Module Fixture.

Definition castObjectId (v : value) : option N :=
  match v with
  | Str s =>
      let '(z, n, rest) := read_digits 16 0 (bytes s) in
      if (n =? 24)%nat && is_nil rest then Some (Z.to_N z) else None
  | _ => None
  end.

(** Of the query operators, [$ne] against [null] and the list of an
    array of identifiers; nothing else is cast here. *)
Definition castOperators (v : value) : option (N -> bool) :=
  match v with
  | Obj [("$ne", Null)] => Some (fun _ => true)
  | Arr items =>
      match mapM castObjectId items with
      | Some ids => Some (fun x => bool_decide (x ∈ ids))
      | None => None
      end
  | _ => None
  end.

(** On a path of strings, [$ne] against a string and the list of an
    array of strings. *)
Definition castStringOperators (v : value) : option (string -> bool) :=
  match v with
  | Obj [("$ne", Str s)] => Some (fun x => negb (String.eqb s x))
  | Arr items =>
      match mapM (fun i => match i with Str s => Some s | _ => None end) items with
      | Some texts => Some (fun x => bool_decide (x ∈ texts))
      | None => None
      end
  | _ => None
  end.

(** An engine that takes no pattern beyond plain text and the dot. *)
Definition RegExp_valid (pattern : string) : bool := false.
Definition RegExp_matches (pattern subject : string) : bool := false.

Definition ratingValidator (n : number) : bool := leb (of_Z 1) n && leb n (of_Z 5).

Definition env (transport : option (Mail -> bool)) : Env :=
  {| now := 1700000000000;
     now_toLocaleString := "11/14/2023, 10:13:20 PM";
     number_toLocaleString := fun _ => "250,000";
     EMAIL_USER := None;
     emailTransporter := transport |}.

Definition ada : N := 1.
Definition bola : N := 2.
Definition chidi : N := 3.
Definition agent_id : N := 10.
Definition flat : N := 20.
Definition duplex : N := 21.

Definition hex (n : N) : string :=
  match n with
  | 1%N => "000000000000000000000001"
  | 2%N => "000000000000000000000002"
  | 3%N => "000000000000000000000003"
  | 10%N => "00000000000000000000000a"
  | 20%N => "000000000000000000000014"
  | _ => "000000000000000000000015"
  end.

Definition client_user (name : string) (unlocked : list N) : @User N :=
  {| fullName := name; email := name +:+ "@example.com"; phone := "0800";
     role := "client"; unlockedAgents := unlocked;
     user_rating := pos_zero; totalRatings := 0 |}.

Definition agent_user : @User N :=
  {| fullName := "Agent"; email := "agent@example.com"; phone := "0900";
     role := "agent"; unlockedAgents := [];
     user_rating := pos_zero; totalRatings := 0 |}.

Definition property_in (st : string) (p : number) (created : Z) : @Property N :=
  {| title := "Home"; location := {| area := "Ikeja"; state := st |};
     price := p; propertyType := "apartment"; property_status := "active";
     property_agent := agent_id; property_createdAt := created |}.

Definition world : @World N _ _ :=
  {| users := <[ada := client_user "Ada" []]>
              (<[bola := client_user "Bola" []]>
              (<[chidi := client_user "Chidi" []]>
              (<[agent_id := agent_user]> ∅)));
     properties := <[flat := property_in "Lagos" (of_Z 5) 100]>
                   (<[duplex := property_in "Abuja" (of_Z 2000) 200]> ∅);
     contactRequests := [];
     ratings := [];
     flashes := [];
     console := [];
     outbox := [];
     calls := [] |}.

(** The same world once Ada has rated the agent for the flat. *)
Definition ada_rating : @Rating N :=
  {| rating_client := ada; rating_agent := agent_id; rating_property := flat;
     rating_rating := of_Z 5; rating_comment := Str "Helpful" |}.

Definition rated_world : @World N _ _ :=
  set_ratings (fun l => l ++ [ada_rating]) world.

(** Three clients rate the agent 5, 3 and 4, for two properties. *)
Definition three_ratings : list (@Operation N) :=
  [SubmitRating ada (hex agent_id) (Num (of_Z 5)) Undefined (Str (hex flat));
   SubmitRating bola (hex agent_id) (Str "3") Undefined (Str (hex flat));
   SubmitRating chidi (hex agent_id) (Num (of_Z 4)) (Str "Good") (Str (hex duplex))].

(** Ada contacts the agent about the flat twice, then rates the agent
    twice. *)
Definition repeated : list (@Operation N) :=
  [CreateRequest (env None) ada (Str (hex agent_id)) (Str (hex flat));
   CreateRequest (env None) ada (Str (hex agent_id)) (Str (hex flat));
   SubmitRating ada (hex agent_id) (Num (of_Z 5)) Undefined (Str (hex flat));
   SubmitRating ada (hex agent_id) (Num (of_Z 2)) Undefined (Str (hex flat))].

Definition param (text : option string) : value :=
  match text with
  | Some s => Str s
  | None => Undefined
  end.

Definition query (st minPrice : option string) : Query :=
  {| query_state := param st; query_area := Undefined; query_minPrice := param minPrice;
     query_maxPrice := Undefined; query_type := Undefined |}.

(** The same world once Ada has unlocked the agent. *)
Definition unlocked_world : @World N _ _ :=
  set_users (fun m => <[ada := client_user "Ada" [agent_id]]> m) world.

(** An identifier that is well formed and names no user. *)
Definition nobody : N := 255.
Definition nobody_hex : string := "0000000000000000000000ff".

(** Requests to the four routes: Ada looks at the dashboard, contacts the
    agent and opens the rating page; Ada and Bola rate the agent 5 and 2;
    Ada tries again. *)
Definition session : list (@Request N) :=
  [GET_dashboard ada (query (Some "lag") None);
   POST_contact_agent (env None) ada (Str (hex agent_id)) (Str (hex flat));
   GET_rate ada (hex agent_id);
   POST_rate ada (hex agent_id) (Num (of_Z 5)) Undefined (Str (hex flat));
   POST_rate bola (hex agent_id) (Str "2") (Str "Slow") (Str (hex flat));
   POST_rate ada (hex agent_id) (Num (of_Z 1)) Undefined (Str (hex flat))].

End Fixture.

Example of_Z_4 : of_Z 4 = S754_finite false 4503599627370496 (-50).
Proof. reflexivity. Qed.

Example of_decimal_4_7 : trunc (of_decimal false 47 (-1)) = of_Z 4.
Proof. vm_compute. reflexivity. Qed.

Example of_decimal_tenth_plus :
add (of_decimal false 1 (-1)) (of_decimal false 2 (-1)) <> of_decimal false 3 (-1).
Proof. vm_compute. discriminate. Qed.

Example StringToNumber_plain : StringToNumber " 4.7 " = of_decimal false 47 (-1).
Proof. vm_compute. reflexivity. Qed.

Example StringToNumber_exponent : StringToNumber "0.5e1" = of_Z 5.
Proof. vm_compute. reflexivity. Qed.

Example StringToNumber_hex : StringToNumber "0x1f" = of_Z 31.
Proof. vm_compute. reflexivity. Qed.

Example StringToNumber_empty : StringToNumber "" = pos_zero.
Proof. reflexivity. Qed.

Example StringToNumber_letters : StringToNumber "abc" = NaN.
Proof. reflexivity. Qed.

Example StringToNumber_trailing : StringToNumber "3abc" = NaN.
Proof. reflexivity. Qed.

Example parseInt_string_prefix : parseInt_string "3abc" = of_Z 3.
Proof. vm_compute. reflexivity. Qed.

Example parseInt_string_exponent : parseInt_string "45e-1" = of_Z 45.
Proof. vm_compute. reflexivity. Qed.

Example parseInt_string_fraction : parseInt_string "0.5e1" = pos_zero.
Proof. vm_compute. reflexivity. Qed.

Example parseInt_string_letters : parseInt_string "abc" = NaN.
Proof. reflexivity. Qed.

Example ToBoolean_zero_string : ToBoolean (Str "0") = true.
Proof. reflexivity. Qed.

Example lt_zero_string : lt (Str "0") (of_Z 1) = true.
Proof. vm_compute. reflexivity. Qed.

Example parseInt_4_7 : parseInt (Num (of_decimal false 47 (-1))) = of_Z 4.
Proof. vm_compute. reflexivity. Qed.

Example Number_toString_positional :
  Number_toString (of_decimal false 47 (-1)) = "4.7" /\
  Number_toString (of_decimal true 125 (-2)) = "-1.25" /\
  Number_toString (of_Z 5) = "5".
Proof. repeat split; by vm_compute. Qed.

Example Number_toString_exponent :
  Number_toString (of_decimal false 1 21) = "1e+21" /\
  Number_toString (of_decimal false 5 (-7)) = "5e-7".
Proof. repeat split; by vm_compute. Qed.

(** In positional notation the digits before the point are the integer
    part. *)
Example parseInt_positional :
  let read x := parseInt_string (Number_toString x) in
  read (of_decimal false 47 (-1)) = trunc (of_decimal false 47 (-1)) /\
  read (of_decimal true 15 (-1)) = trunc (of_decimal true 15 (-1)) /\
  read (of_decimal false 5 (-1)) = trunc (of_decimal false 5 (-1)) /\
  read (of_decimal false 123456789 (-3)) = trunc (of_decimal false 123456789 (-3)) /\
  read (of_decimal false 1 20) = trunc (of_decimal false 1 20).
Proof. cbn zeta beta. repeat split; by vm_compute. Qed.

Example parseInt_exponent :
  parseInt (Num (of_decimal false 1 21)) = of_Z 1 /\
  parseInt (Num (of_decimal false 5 (-7))) = of_Z 5.
Proof. repeat split; by vm_compute. Qed.

Example ToString_array :
  ToString (Arr [Num (of_Z 1); Null; Str "a"]) = "1,,a" /\
  ToString (Arr [Arr [Str "x"; Str "y"]; Boolean true]) = "x,y,true" /\
  ToString (Obj [("$ne", Null)]) = "[object Object]".
Proof. repeat split; by vm_compute. Qed.

Example ToNumber_array :
  ToNumber (Arr [Str "3"]) = of_Z 3 /\ parseInt (Arr [Str "3"]) = of_Z 3 /\
  ToNumber (Obj []) = NaN /\ ToBoolean (Arr []) = true.
Proof. repeat split; by vm_compute. Qed.

(** * Properties *)

Create HintDb handler discriminated.

#[global] Hint Unfold ret bind throw try_catch modify gets call flash
console_error ToPrimitive ContactRequest_findOne ContactRequest_save User_lookup User_findById
User_findById_session User_save Property_findById Property_find_agent Rating_findOne
Rating_find Rating_save : handler.

Arguments castFilter : simpl never.
Arguments castRequired : simpl never.
Arguments for_each : simpl never.
Arguments sendMail : simpl never.
Arguments emailContent : simpl never.
Arguments buildFilter : simpl never.
Arguments select : simpl never.

(** Unfolds the monad and the collection calls, and computes as far as the
  casts, which the lemmas below rewrite one at a time. *)
Ltac run := autounfold with handler; cbn.

(** Membership in a list written out. *)
Ltac member := repeat first [apply list_elem_of_here | apply list_elem_of_further].

(** Reads a component of an updated world, and nothing else. *)
Ltac project :=
cbn [fst snd users properties contactRequests ratings flashes console outbox calls
     set_users set_contactRequests set_ratings set_flashes set_console set_outbox
     set_calls failed stored store].

(** ** Numbers between 1 and 5 *)

Module NumberFacts.

Lemma of_Z_1 : of_Z 1 = S754_finite false 4503599627370496 (-52).
Proof. reflexivity. Qed.

Lemma of_Z_5 : of_Z 5 = S754_finite false 5629499534213120 (-50).
Proof. reflexivity. Qed.

Lemma digits2_pos_size (m : positive) : digits2_pos m = Pos.size m.
Proof. induction m; cbn; congruence. Qed.

Lemma compare_finite (m1 m2 : positive) (e1 e2 : Z) :
  SFcompare (S754_finite false m1 e1) (S754_finite false m2 e2) =
    Some match Z.compare e1 e2 with
         | Lt => Lt
         | Gt => Gt
         | Eq => Pos.compare m1 m2
         end.
Proof. reflexivity. Qed.

Lemma compare_cases (a b : positive) :
  match Pos.compare a b with
  | Eq => a = b
  | Lt => (Z.pos a < Z.pos b)%Z
  | Gt => (Z.pos b < Z.pos a)%Z
  end.
Proof.
  destruct (Pos.compare a b) eqn:Hc.
  - by apply Pos.compare_eq_iff.
  - by apply Pos.compare_lt_iff in Hc.
  - by apply Pos.compare_gt_iff in Hc.
Qed.

(** A number that is not NaN and is neither below 1 nor above 5 is
    finite and positive, with an exponent between -52 and -50. *)
Lemma between_finite (x : number) :
  is_nan x = false -> ltb x (of_Z 1) = false -> ltb (of_Z 5) x = false ->
  exists m e, x = S754_finite false m e /\
    ((e = -52 /\ 4503599627370496 <= Z.pos m) \/ e = -51 \/
     (e = -50 /\ Z.pos m <= 5629499534213120)).
Proof.
  change (of_Z 1) with (S754_finite false 4503599627370496 (-52)).
  change (of_Z 5) with (S754_finite false 5629499534213120 (-50)).
  unfold ltb, SFltb.
  destruct x as [s | s | | s m e]; [destruct s; discriminate .. | discriminate |].
  destruct s; [discriminate |]. rewrite !compare_finite.
  intros _ H1 H5. exists m, e. split; [done |].
  destruct (Z.compare_spec e (-52)) as [Heq | Hlt | Hgt]; [| discriminate |].
  - left. split; [done |].
    pose proof (compare_cases m 4503599627370496) as Hc.
    destruct (Pos.compare m 4503599627370496); [subst m; done | discriminate | lia].
  - destruct (Z.compare_spec (-50) e) as [Heq | Hlt | Hgt'];
      [| discriminate | right; left; lia].
    right. right. split; [done |].
    pose proof (compare_cases 5629499534213120 m) as Hc.
    destruct (Pos.compare 5629499534213120 m); [subst m; done | discriminate | lia].
Qed.

(** [1 <= x] and [x <= 5] say as much. *)
Lemma leb_between (x : number) :
  leb (of_Z 1) x = true -> leb x (of_Z 5) = true ->
  is_nan x = false /\ is_zero x = false /\
  ltb x (of_Z 1) = false /\ ltb (of_Z 5) x = false.
Proof.
  change (of_Z 1) with (S754_finite false 4503599627370496 (-52)).
  change (of_Z 5) with (S754_finite false 5629499534213120 (-50)).
  unfold leb, SFleb, ltb, SFltb.
  destruct x as [s | s | | s m e]; [destruct s; discriminate .. | discriminate |].
  destruct s; [discriminate |]. rewrite !compare_finite.
  intros H1 H5. repeat split.
  - destruct (Z.compare_spec e (-52)) as [Heq | Hlt | Hgt]; [| | done].
    + subst e. rewrite Z.compare_refl in H1. rewrite Pos.compare_antisym.
      by destruct (Pos.compare 4503599627370496 m).
    + destruct (Z.compare_spec (-52) e); [lia | lia | discriminate].
  - destruct (Z.compare_spec (-50) e) as [Heq | Hlt | Hgt]; [| | done].
    + subst e. rewrite Z.compare_refl in H5. rewrite Pos.compare_antisym.
      by destruct (Pos.compare m 5629499534213120).
    + destruct (Z.compare_spec e (-50)); [lia | lia | discriminate].
Qed.

(** And conversely: what is neither NaN, nor below 1, nor above 5 lies
    between them. *)
Lemma between_leb (x : number) :
  is_nan x = false -> ltb x (of_Z 1) = false -> ltb (of_Z 5) x = false ->
  leb (of_Z 1) x = true /\ leb x (of_Z 5) = true.
Proof.
  intros Hnan H1 H5. destruct (between_finite x Hnan H1 H5) as (m & e & -> & He).
  change (of_Z 1) with (S754_finite false 4503599627370496 (-52)).
  change (of_Z 5) with (S754_finite false 5629499534213120 (-50)).
  unfold leb, SFleb. rewrite !compare_finite.
  split.
  - destruct (Z.compare_spec (-52) e) as [Heq | Hlt | Hgt]; [| done | lia].
    pose proof (compare_cases 4503599627370496 m) as Hc.
    destruct (Pos.compare 4503599627370496 m); [done | done | lia].
  - destruct (Z.compare_spec e (-50)) as [Heq | Hlt | Hgt]; [| done | lia].
    pose proof (compare_cases m 5629499534213120) as Hc.
    destruct (Pos.compare m 5629499534213120); [done | done | lia].
Qed.

(** Such a number is written in positional notation. *)
Lemma between_positional (m : positive) (e : Z) :
  -52 <= e <= -50 -> positional (S754_finite false m e) = true.
Proof.
  intros He. unfold positional.
  set (lo := of_decimal false 1 (-6)). vm_compute in lo.
  set (hi := of_Z (10 ^ 21)). vm_compute in hi. subst lo hi.
  unfold leb, SFleb, ltb, SFltb, SFabs. rewrite !compare_finite.
  destruct (Z.compare_spec (-72) e); [lia | | lia].
  destruct (Z.compare_spec e 17); [lia | done | lia].
Qed.

(** A valid number with an exponent between -52 and -50 has a mantissa of
    53 binary digits. *)
Lemma valid_mantissa (m : positive) (e : Z) :
  valid (S754_finite false m e) = true -> -52 <= e <= -50 ->
  4503599627370496 <= Z.pos m < 9007199254740992.
Proof.
  unfold valid, valid_binary, bounded, canonical_mantissa, fexp, emin, prec, emax.
  intros Hv He. apply andb_true_iff in Hv as [Hc _]. apply Z.eqb_eq in Hc.
  rewrite digits2_pos_size in Hc.
  assert (Pos.size m = 53%positive) as Hs by lia.
  pose proof (Pos.size_gt m) as Hgt. pose proof (Pos.size_le m) as Hle.
  assert ((2 ^ 53)%positive = 9007199254740992%positive) as Hpow
    by (vm_compute; reflexivity).
  rewrite Hs, Hpow in Hgt, Hle.
  apply Pos2Z.pos_lt_pos in Hgt. apply Pos2Z.pos_le_pos in Hle.
  rewrite (Pos2Z.inj_xO m) in Hle. clear Hc Hs Hpow. lia.
Qed.

(** The integer part of a valid number between 1 and 5 is one of the
    integers 1 to 5, and [trunc] returns it. *)
Lemma trunc_between (x : number) :
  valid x = true -> leb (of_Z 1) x = true -> leb x (of_Z 5) = true ->
  exists k, 1 <= k <= 5 /\ trunc x = of_Z k /\ parseInt_number x = of_Z k.
Proof.
  intros Hv H1 H5. destruct (leb_between x H1 H5) as (Hnan & _ & Hlt & Hgt).
  destruct (between_finite x Hnan Hlt Hgt) as (m & e & -> & He).
  assert (-52 <= e <= -50) as Hrange by lia.
  pose proof (valid_mantissa m e Hv Hrange) as Hm.
  unfold parseInt_number. rewrite between_positional by done.
  unfold trunc. assert ((0 <=? e) = false) as -> by lia.
  rewrite Z.shiftr_div_pow2 by lia.
  assert (exists k, 1 <= k <= 5 /\ Z.pos m / 2 ^ (- e) = k) as (k & Hk & ->).
  { destruct He as [[-> Hm1] | [-> | [-> Hm5]]].
    - change (2 ^ (- (-52))) with 4503599627370496.
      exists (Z.pos m / 4503599627370496). split; [| done].
      Z.div_mod_to_equations. lia.
    - change (2 ^ (- (-51))) with 2251799813685248.
      exists (Z.pos m / 2251799813685248). split; [| done].
      Z.div_mod_to_equations. lia.
    - change (2 ^ (- (-50))) with 1125899906842624.
      exists (Z.pos m / 1125899906842624). split; [| done].
      Z.div_mod_to_equations. lia. }
  exists k. split; [done |].
  assert (k = 1 \/ k = 2 \/ k = 3 \/ k = 4 \/ k = 5) as Hcases by lia.
  destruct Hcases as [-> | [-> | [-> | [-> | ->]]]]; by split.
Qed.

Lemma compare_refl (m : positive) (e : Z) :
  SFcompare (S754_finite false m e) (S754_finite false m e) = Some Eq.
Proof. rewrite compare_finite. by rewrite Z.compare_refl, Pos.compare_refl. Qed.

(** A number that is not an integer differs from its integer part. *)
Lemma trunc_changes (x : number) :
  valid x = true -> leb (of_Z 1) x = true -> leb x (of_Z 5) = true ->
  is_integer x = false -> trunc x <> x.
Proof.
  intros Hv H1 H5 Hi Heq. destruct (leb_between x H1 H5) as (Hnan & _ & Hlt & Hgt).
  destruct (between_finite x Hnan Hlt Hgt) as (m & e & -> & He).
  unfold is_integer in Hi. rewrite Heq, compare_refl in Hi. discriminate.
Qed.

(** The order of numbers: [<=] is transitive, and excludes [>]. *)
Ltac compare_order :=
repeat match goal with
       | H : context [Z.compare ?a ?b] |- _ => destruct (Z.compare_spec a b)
       | |- context [Z.compare ?a ?b] => destruct (Z.compare_spec a b)
       | H : context [Pos.compare ?a ?b] |- _ => destruct (Pos.compare_spec a b)
       | |- context [Pos.compare ?a ?b] => destruct (Pos.compare_spec a b)
       end;
cbn in *; try discriminate; try reflexivity; try lia.

Lemma leb_trans (x y z : number) : leb x y = true -> leb y z = true -> leb x z = true.
Proof.
  unfold leb, SFleb.
  destruct x as [[] | [] | | [] mx ex], y as [[] | [] | | [] my ey],
           z as [[] | [] | | [] mz ez]; cbn; try discriminate; try reflexivity;
    change (Pos.compare_cont Eq) with Pos.compare; intros Hxy Hyz; compare_order.
Qed.

Lemma leb_not_ltb (x y : number) : leb x y = true -> ltb y x = false.
Proof.
  unfold leb, SFleb, ltb, SFltb.
  destruct x as [[] | [] | | [] mx ex], y as [[] | [] | | [] my ey];
    cbn; try discriminate; try reflexivity;
    change (Pos.compare_cont Eq) with Pos.compare; intros Hxy; compare_order.
Qed.

End NumberFacts.

(** ** Patterns of plain text *)

Module RegExpFacts.

Import RegExp.

Lemma compile_literal (l : list N) :
  forallb (fun b => printable b && negb (syntax_character b) && negb (b =? 46)%N) l = true ->
  compile l = Some (map Lit l).
Proof.
  induction l as [| b l IH]; [done |]. cbn [forallb compile map].
  intros Hl. apply andb_true_iff in Hl as [Hb Hl].
  apply andb_true_iff in Hb as [Hb Hdot]. apply andb_true_iff in Hb as [Hp Hs].
  rewrite Hp. apply negb_true_iff in Hs, Hdot. rewrite Hs, Hdot, (IH Hl). reflexivity.
Qed.

Lemma matches_here_literal (needle subject : list N) :
  matches_here (map Lit needle) subject = prefix_ci needle subject.
Proof.
  revert subject. induction needle as [| c n IH]; intros [| b s]; cbn; try done.
  by rewrite IH.
Qed.

Lemma search_literal (needle subject : list N) :
  search (map Lit needle) subject = substring_ci needle subject.
Proof.
  induction subject as [| b s IH]; cbn; rewrite matches_here_literal; [done |].
  by rewrite IH.
Qed.

Lemma has_any_char_literal (l : list N) : has_any_char (map Lit l) = false.
Proof. induction l; [done |]. cbn. done. Qed.

(** A pattern of plain text is a search for the text, letter case apart. *)
Lemma test_plain_text (pattern subject : string) :
  plain_text pattern = true ->
  exists atoms, compile (bytes pattern) = Some atoms /\
    test atoms subject = Some (substring_ci (bytes pattern) (bytes subject)).
Proof.
  intros Hp. exists (map Lit (bytes pattern)). split; [by apply compile_literal |].
  unfold test. rewrite has_any_char_literal. cbn. by rewrite search_literal.
Qed.

End RegExpFacts.

Section Properties.

Context {ObjectId : Type} `{Countable ObjectId}.
Variable castObjectId : value -> option ObjectId.
Variable castOperators : value -> option (ObjectId -> bool).
Variable castStringOperators : value -> option (string -> bool).
Variable RegExp_valid : string -> bool.
Variable RegExp_matches : string -> string -> bool.
Variable ratingValidator : number -> bool.

#[local] Abbreviation World := (@World ObjectId _ _).

(** The cast of a query condition, as one function of the value. *)
Lemma castFilter_eq path v (w : World) :
  castFilter castObjectId castOperators path v w =
    match query_reference castObjectId castOperators v with
    | Some c => (Normal c, w)
    | None => (Throw (CastError path), w)
    end.
Proof.
  unfold castFilter, query_reference.
  destruct v; try reflexivity; destruct (castObjectId _); try reflexivity;
    cbn; try reflexivity; destruct (castOperators _); reflexivity.
Qed.

(** A value that passes [if (v)] and stands for an identifier is cast to
    it. *)
Lemma query_reference_id v o :
  ToBoolean v = true -> castObjectId v = Some o ->
  query_reference castObjectId castOperators v = Some (is_id (Some o)).
Proof.
  unfold query_reference. intros Hv ->. by destruct v.
Qed.

(** A primitive value that stands for no identifier cannot be cast. *)
Lemma query_reference_primitive v :
  ToBoolean v = true -> primitive v = true -> castObjectId v = None ->
  query_reference castObjectId castOperators v = None.
Proof.
  unfold query_reference. intros Hv Hp ->. rewrite Hp. by destruct v.
Qed.

(** Any other object or array is cast as query operators. *)
Lemma query_reference_operators v :
  primitive v = false -> castObjectId v = None ->
  query_reference castObjectId castOperators v = meets <$> castOperators v.
Proof.
  unfold query_reference. intros Hp ->. rewrite Hp. by destruct v.
Qed.

Lemma castFilter_Str path s (w : World) :
  castFilter castObjectId castOperators path (Str s) w =
    match castObjectId (Str s) with
    | Some o => (Normal (is_id (Some o)), w)
    | None => (Throw (CastError path), w)
    end.
Proof. unfold castFilter. destruct (castObjectId _); reflexivity. Qed.

Lemma set_id (w : World) :
  set_console (fun l => l ++ []) (set_outbox (fun l => l ++ []) (set_calls (fun l => l ++ []) w))
  = w.
Proof. destruct w. unfold set_console, set_outbox, set_calls. cbn. by rewrite !app_nil_r. Qed.

(** The notification loop never throws: every address gets its attempt,
    an accepted mail reaches the outbox and a failed one leaves a line on
    the console. *)
Lemma notify_each (env : Env) (mk : string -> Mail) (addresses : list string) (w : World) :
  for_each addresses (fun address =>
    try_catch (sendMail env (mk address))
              (fun emailError => console_error "Email sending error:")) w
  = (Normal tt,
     set_console (fun l => l ++ map (fun _ => "Email sending error:")
                                  (List.filter (fun m => negb (accepted env m))
                                               (map mk addresses)))
       (set_outbox (fun l => l ++ List.filter (accepted env) (map mk addresses))
         (set_calls (fun l => l ++ sendMail_calls env (map mk addresses)) w))).
Proof.
  revert w. induction addresses as [| a l IH]; intros w.
  - change (for_each [] ?f) with (@ret ObjectId _ _ unit tt).
    unfold ret, sendMail_calls. destruct (emailTransporter env); cbn;
      by rewrite set_id.
  - change (for_each (a :: l) ?f) with (bind (f a) (fun _ => for_each l f)).
    unfold bind at 1, try_catch at 1, sendMail at 1.
    unfold accepted, sendMail_calls in *.
    destruct (emailTransporter env) as [accepts |]; run.
    + destruct (accepts (mk a)) eqn:Ha; run; rewrite IH; cbn; rewrite ?Ha; cbn;
        destruct w; unfold set_console, set_outbox, set_calls; cbn;
        by rewrite <- ?app_assoc.
    + rewrite IH. destruct w; unfold set_console, set_outbox, set_calls; cbn.
      by rewrite <- ?app_assoc.
Qed.

Lemma castRequired_eq path v (w : World) :
  castRequired castObjectId path v w =
    match reference castObjectId v with
    | Some o => (Normal o, w)
    | None => (Throw (ValidationError path), w)
    end.
Proof.
  unfold castRequired, reference.
  destruct v; try reflexivity; destruct (castObjectId _); reflexivity.
Qed.

Lemma query_reference_Some v o :
  query_reference castObjectId castOperators v = Some (is_id (Some o)) <->
  reference castObjectId v = Some o.
Proof.
  unfold query_reference, reference.
  destruct v; try (split; congruence); destruct (castObjectId _); cbn;
    try (split; congruence); destruct (castOperators _); cbn; split; congruence.
Qed.

(** A value cast to anything but one identifier is no reference a
    document can be saved with. *)
Lemma query_reference_other v c :
  query_reference castObjectId castOperators v = Some c ->
  (forall o, c <> is_id (Some o)) -> reference castObjectId v = None.
Proof.
  intros Hc Hne. destruct (reference castObjectId v) as [o |] eqn:Hr; [| done].
  apply query_reference_Some in Hr. rewrite Hr in Hc. injection Hc as <-.
  by destruct (Hne o).
Qed.

Lemma query_reference_Str s :
  query_reference castObjectId castOperators (Str s) =
    (fun o => is_id (Some o)) <$> castObjectId (Str s).
Proof. unfold query_reference. by destruct (castObjectId _). Qed.

Lemma reference_Str s : reference castObjectId (Str s) = castObjectId (Str s).
Proof. reflexivity. Qed.

(** *** Conditions on the stored documents *)

Lemma holds_id (a x : ObjectId) : holds (is_id (Some a)) x = true <-> a = x.
Proof. cbn. apply bool_decide_eq_true. Qed.

(** [Rating.find({ agent })] for an identifier gives the ratings stored
    for that agent. *)
Lemma filter_holds_id (a : ObjectId) (l : list Rating) :
  filter (fun r => bool_decide (a = rating_agent r) = true) l = ratings_of a l.
Proof.
  apply list_filter_iff. intros r. rewrite bool_decide_eq_true. split; congruence.
Qed.

Lemma same_triple_meeting (c : ObjectId) (A P : Condition) (c' a' p' : ObjectId) :
  same_triple c A P c' a' p' = true <-> meeting c A P (c', a', p').
Proof.
  unfold same_triple, meeting. rewrite !andb_true_iff, bool_decide_eq_true. cbn.
  split; [intros [[-> ?] ?] | intros (-> & ? & ?)]; done.
Qed.

(** [findOne] finds nothing exactly when no stored document meets the
    conditions. *)
Lemma find_meeting {A} (triple : A -> ObjectId * ObjectId * ObjectId)
    (l : list A) (c : ObjectId) (a p : Condition) :
  find (fun r => same_triple c a p (triple r).1.1 (triple r).1.2 (triple r).2) l = None <->
  ~ Exists (meeting c a p) (map triple l).
Proof.
  induction l as [| r l IH]; cbn.
  - split; [intros _ He; inversion He | done].
  - rewrite Exists_cons.
    destruct (same_triple _ _ _ _ _ _) eqn:Hs.
    + apply same_triple_meeting in Hs. destruct (triple r) as [[? ?] ?].
      split; [done | intros Hn; destruct Hn; by left].
    + rewrite IH. destruct (triple r) as [[c' a'] p']. cbn in Hs.
      split; [intros Hn [Hm | He]; [| done] | intros Hn He; apply Hn; by right].
      apply same_triple_meeting in Hm. congruence.
Qed.

Lemma find_request_meeting (l : list ContactRequest) (c : ObjectId) (a p : Condition) :
  find (fun r => same_triple c a p (request_client r) (request_agent r)
                   (request_property r)) l = None <->
  ~ Exists (meeting c a p) (map request_triple l).
Proof. apply (find_meeting request_triple). Qed.

Lemma find_rating_meeting (l : list Rating) (c : ObjectId) (a p : Condition) :
  find (fun r => same_triple c a p (rating_client r) (rating_agent r)
                   (rating_property r)) l = None <->
  ~ Exists (meeting c a p) (map rating_triple l).
Proof. apply (find_meeting rating_triple). Qed.

(** For two identifiers, meeting the conditions is being the triple. *)
Lemma Exists_meeting_ids (c a p : ObjectId) (l : list (ObjectId * ObjectId * ObjectId)) :
  Exists (meeting c (Some a) (Some p)) l <-> (c, a, p) ∈ l.
Proof.
  rewrite Exists_exists. split.
  - intros ([[c' a'] p'] & Hin & Hc & Ha & Hp). cbn in Hc, Ha, Hp.
    apply holds_id in Ha, Hp. by subst.
  - intros Hin. exists (c, a, p). split; [done |].
    repeat split; cbn; by apply bool_decide_eq_true.
Qed.

Lemma on_record_requested (w : World) (c a p : ObjectId) :
  on_record w c (Some a) (Some p) <-> requested w c a p.
Proof. apply Exists_meeting_ids. Qed.

Lemma rated_meeting_rated (w : World) (c a p : ObjectId) :
  rated_meeting w c (Some a) (Some p) <-> rated w c a p.
Proof. apply Exists_meeting_ids. Qed.

(** A condition left [undefined] or [null] matches no stored reference. *)
Lemma no_meeting_null (c : ObjectId) (a : Condition)
    (l : list (ObjectId * ObjectId * ObjectId)) :
  ~ Exists (meeting c a (is_id None)) l.
Proof.
  rewrite Exists_exists. intros (t & _ & _ & _ & Hp). discriminate.
Qed.

(** The document a lookup finds meets the condition and is the one
    stored under its identifier. *)
Lemma first_by_id_found {A} (c : Condition) (m : gmap ObjectId A) (d : Document A) :
  first_by_id c m = Some d -> holds c (_id d) = true /\ m !! _id d = Some (fields d).
Proof.
  destruct c as [[i |] | p]; cbn.
  - destruct (m !! i) as [x |] eqn:Hx; [| done]. intros [= <-]. cbn.
    split; [by apply bool_decide_eq_true | done].
  - done.
  - destruct (find _ _) as [[i x] |] eqn:Hf; [| done]. intros [= <-]. cbn.
    apply find_some in Hf as [Hin Hp]. split; [done |].
    apply elem_of_map_to_list. by apply list_elem_of_In.
Qed.

(** A lookup finds nothing exactly when no stored document meets the
    condition. *)
Lemma first_by_id_None {A} (c : Condition) (m : gmap ObjectId A) :
  first_by_id c m = None <-> forall i x, m !! i = Some x -> holds c i = false.
Proof.
  split.
  - intros Hnone i x Hx. destruct c as [[j |] | p]; cbn in *; [| done |].
    + apply bool_decide_eq_false. intros ->. by rewrite Hx in Hnone.
    + destruct (find _ _) as [[j y] |] eqn:Hf; [done |].
      apply (find_none _ _ Hf (i, x)). by apply list_elem_of_In, elem_of_map_to_list.
  - intros Hall. destruct (first_by_id c m) as [d |] eqn:Hd; [| done].
    apply first_by_id_found in Hd as [Hc Hm]. by rewrite (Hall _ _ Hm) in Hc.
Qed.

Lemma first_by_id_lookup {A} (i : ObjectId) (m : gmap ObjectId A) :
  first_by_id (Some i) m = (fun x => {| _id := i; fields := x |}) <$> m !! i.
Proof. cbn. by destruct (m !! i). Qed.

(** *** POST /contact-agent, case by case *)

Lemma set_calls_lookups (u : ObjectId) (a p : Condition) (w : World) :
  set_calls (fun l => l ++ [Property_findById_call p])
    (set_calls (fun l => l ++ [User_findById_call a])
      (set_calls (fun l => l ++ [User_findById_call (Some u)])
        (set_calls (fun l => l ++ [ContactRequest_findOne_call u a p]) w)))
  = set_calls (fun l => l ++ lookups_for u a p) w.
Proof. unfold set_calls, lookups_for. cbn. by rewrite <- !app_assoc. Qed.

Lemma lookups_ids (u a p : ObjectId) : lookups_for u (Some a) (Some p) = lookups u a p.
Proof. reflexivity. Qed.

(** The handler as one expression over the world it starts in. *)
Lemma createRequest_eq env (u : ObjectId) agentId propertyId (w : World) :
  createRequest castObjectId castOperators env u agentId propertyId w =
    if negb (ToBoolean agentId) || negb (ToBoolean propertyId)
    then (Normal MissingField, w)
    else
      match query_reference castObjectId castOperators agentId,
            query_reference castObjectId castOperators propertyId with
      | Some a, Some p =>
          if decide (on_record w u a p)
          then (Normal DuplicateRequest,
                set_calls (fun l => l ++ [ContactRequest_findOne_call u a p]) w)
          else
            match users w !! u, first_by_id a (users w), first_by_id p (properties w) with
            | Some client, Some agent, Some property =>
                let r := new_ContactRequest u (_id agent) (_id property) (now env) in
                let mails :=
                  map (notification env client (fields agent) (fields property))
                      adminEmails in
                (Normal Success,
                 set_console (fun l => l ++ map (fun _ => "Email sending error:")
                                              (List.filter (fun m => negb (accepted env m))
                                                           mails))
                   (set_outbox (fun l => l ++ List.filter (accepted env) mails)
                     (set_calls (fun l => l ++ sendMail_calls env mails)
                       (set_contactRequests (fun l => l ++ [r])
                         (set_calls (fun l => l ++ [ContactRequest_save_call r])
                           (set_calls (fun l => l ++ lookups_for u a p) w))))))
            | _, _, _ => (Normal NotFound, set_calls (fun l => l ++ lookups_for u a p) w)
            end
      | _, _ => (Normal Unexpected, request_failed w)
      end.
Proof.
  unfold createRequest.
  destruct (negb (ToBoolean agentId) || negb (ToBoolean propertyId)); [reflexivity |].
  destruct (query_reference castObjectId castOperators agentId) as [a |] eqn:Ha;
    [| run; by rewrite castFilter_eq, Ha].
  destruct (query_reference castObjectId castOperators propertyId) as [p |] eqn:Hp;
    [| run; rewrite castFilter_eq, Ha; cbn; by rewrite castFilter_eq, Hp].
  destruct (decide (on_record w u a p)) as [Hr | Hr].
  - run. rewrite castFilter_eq, Ha. cbn. rewrite castFilter_eq, Hp. cbn.
    destruct (find _ _) eqn:Hf; [reflexivity |].
    apply find_request_meeting in Hf. contradiction.
  - apply find_request_meeting in Hr.
    destruct (users w !! u) as [client |] eqn:Hu;
      destruct (first_by_id a (users w)) as [agent |] eqn:Hag;
      destruct (first_by_id p (properties w)) as [property |] eqn:Hpr;
      cbn zeta; match goal with |- _ = ?R => remember R as rhs eqn:Hrhs end;
      run; rewrite castFilter_eq, Ha; cbn; rewrite castFilter_eq, Hp; cbn; rewrite Hr;
      rewrite castFilter_eq, Ha; cbn; rewrite castFilter_eq, Hp; cbn;
      rewrite ?Hu, ?Hag, ?Hpr; cbn; rewrite ?set_calls_lookups; try (by subst rhs).
    change (for_each adminEmails _) with
      (for_each adminEmails (fun address =>
         try_catch (sendMail env (notification env client (fields agent) (fields property)
                                    address))
                   (fun _ => @console_error ObjectId _ _ "Email sending error:"))).
    rewrite notify_each. by subst rhs.
Qed.

Lemma createRequest_missing env (u : ObjectId) agentId propertyId (w : World) :
  ToBoolean agentId = false \/ ToBoolean propertyId = false ->
  createRequest castObjectId castOperators env u agentId propertyId w = (Normal MissingField, w).
Proof.
  intros Hm. rewrite createRequest_eq.
  assert (negb (ToBoolean agentId) || negb (ToBoolean propertyId) = true) as ->
    by (destruct Hm as [-> | ->]; [done | apply orb_true_r]).
  reflexivity.
Qed.

Lemma createRequest_cast_error env (u : ObjectId) agentId propertyId (w : World) :
  ToBoolean agentId = true -> ToBoolean propertyId = true ->
  query_reference castObjectId castOperators agentId = None \/
  query_reference castObjectId castOperators propertyId = None ->
  createRequest castObjectId castOperators env u agentId propertyId w =
    (Normal Unexpected, request_failed w).
Proof.
  intros Ha Hp Hc. rewrite createRequest_eq, Ha, Hp. cbn [negb orb].
  destruct Hc as [-> | ->]; [done |]. by destruct (query_reference _ _ agentId).
Qed.

Lemma createRequest_duplicate env (u a p : ObjectId) agentId propertyId (w : World) :
  ToBoolean agentId = true -> ToBoolean propertyId = true ->
  castObjectId agentId = Some a -> castObjectId propertyId = Some p ->
  requested w u a p ->
  createRequest castObjectId castOperators env u agentId propertyId w =
    (Normal DuplicateRequest,
     set_calls (fun l => l ++ [ContactRequest_findOne_call u (Some a) (Some p)]) w).
Proof.
  intros Ha Hp Hca Hcp Hr. rewrite createRequest_eq, Ha, Hp. cbn [negb orb].
  rewrite (query_reference_id agentId a), (query_reference_id propertyId p) by done.
  apply on_record_requested in Hr. by destruct (decide _).
Qed.

Lemma createRequest_success env (u a p : ObjectId) agentId propertyId (w : World)
    (client agent : User) (property : Property) :
  ToBoolean agentId = true -> ToBoolean propertyId = true ->
  castObjectId agentId = Some a -> castObjectId propertyId = Some p ->
  ~ requested w u a p ->
  users w !! u = Some client -> users w !! a = Some agent ->
  properties w !! p = Some property ->
  let r := new_ContactRequest u a p (now env) in
  let mails := map (notification env client agent property) adminEmails in
  createRequest castObjectId castOperators env u agentId propertyId w =
    (Normal Success,
     set_console (fun l => l ++ map (fun _ => "Email sending error:")
                                  (List.filter (fun m => negb (accepted env m)) mails))
       (set_outbox (fun l => l ++ List.filter (accepted env) mails)
         (set_calls (fun l => l ++ sendMail_calls env mails)
           (set_contactRequests (fun l => l ++ [r])
             (set_calls (fun l => l ++ [ContactRequest_save_call r])
               (set_calls (fun l => l ++ lookups u a p) w)))))).
Proof.
  intros Ha Hp Hca Hcp Hr Hu Hag Hpr r mails.
  rewrite createRequest_eq, Ha, Hp. cbn [negb orb].
  rewrite (query_reference_id agentId a), (query_reference_id propertyId p) by done.
  rewrite <- on_record_requested in Hr. destruct (decide _); [done |].
  rewrite !first_by_id_lookup, lookups_ids, Hu, Hag, Hpr. reflexivity.
Qed.

(** A request that is answered without a cast failure has its two values
    cast to conditions. *)
Lemma createRequest_cases env (u : ObjectId) agentId propertyId (w : World) :
  let result := createRequest castObjectId castOperators env u agentId propertyId w in
  result = (Normal MissingField, w) \/
  result = (Normal Unexpected, request_failed w) \/
  exists a p,
    ToBoolean agentId = true /\ ToBoolean propertyId = true /\
    query_reference castObjectId castOperators agentId = Some a /\
    query_reference castObjectId castOperators propertyId = Some p /\
    (on_record w u a p /\
     result = (Normal DuplicateRequest,
               set_calls (fun l => l ++ [ContactRequest_findOne_call u a p]) w) \/
     ~ on_record w u a p /\
     (result = (Normal NotFound, set_calls (fun l => l ++ lookups_for u a p) w) \/
      exists client agent property,
        users w !! u = Some client /\ first_by_id a (users w) = Some agent /\
        first_by_id p (properties w) = Some property /\
        let r := new_ContactRequest u (_id agent) (_id property) (now env) in
        let mails :=
          map (notification env client (fields agent) (fields property)) adminEmails in
        result =
          (Normal Success,
           set_console (fun l => l ++ map (fun _ => "Email sending error:")
                                        (List.filter (fun m => negb (accepted env m)) mails))
             (set_outbox (fun l => l ++ List.filter (accepted env) mails)
               (set_calls (fun l => l ++ sendMail_calls env mails)
                 (set_contactRequests (fun l => l ++ [r])
                   (set_calls (fun l => l ++ [ContactRequest_save_call r])
                     (set_calls (fun l => l ++ lookups_for u a p) w)))))))).
Proof.
  intros result. subst result. rewrite createRequest_eq.
  destruct (ToBoolean agentId) eqn:Ha; [| by left].
  destruct (ToBoolean propertyId) eqn:Hp; [| by left].
  cbn [negb orb]. right.
  destruct (query_reference _ _ agentId) as [a |] eqn:Hca; [| by left].
  destruct (query_reference _ _ propertyId) as [p |] eqn:Hcp; [| by left].
  right. exists a, p. repeat (split; [done |]).
  destruct (decide (on_record w u a p)) as [Hr | Hr]; [by left |].
  right. split; [done |].
  destruct (users w !! u) as [client |] eqn:Hu; [| by left].
  destruct (first_by_id a (users w)) as [agent |] eqn:Hag; [| by left].
  destruct (first_by_id p (properties w)) as [property |] eqn:Hpr; [| by left].
  right. by exists client, agent, property.
Qed.

(** C2, as the code has it: a request without a truthy [agentId] and
    [propertyId] fails with MissingField (400) and changes nothing.
    Otherwise each of the two values is cast to a condition on an
    identifier: a value that stands for one identifier to that
    identifier, a primitive value that stands for none (text that is no
    well-formed id) to nothing, any other object or array as query
    operators. If either cast fails the duplicate query throws and the
    request fails with Unexpected (500), nothing stored and no call made;
    otherwise, if a contact request of the client is on record whose
    agent and property meet the two conditions (for two identifiers: the
    exact triple), it fails with DuplicateRequest (400) after the
    duplicate query alone; otherwise, if the client is not found, or no
    user or no property meets its condition, it fails with NotFound
    (404), nothing stored; otherwise exactly one contact request is
    appended, for the client and a user and a property on record that
    meet the conditions, [pending] and with empty notes, and the
    response is the success. *)
Theorem createRequest_contract env (u : ObjectId) agentId propertyId (w : World) :
  let result := createRequest castObjectId castOperators env u agentId propertyId w in
  let cast := query_reference castObjectId castOperators in
  (ToBoolean agentId = false \/ ToBoolean propertyId = false ->
     result = (Normal MissingField, w)) /\
  (ToBoolean agentId = true -> ToBoolean propertyId = true ->
     (cast agentId = None \/ cast propertyId = None ->
        result.1 = Normal Unexpected /\ store result.2 = store w /\
        calls result.2 = calls w) /\
     (forall a p, cast agentId = Some a -> cast propertyId = Some p ->
        (on_record w u a p ->
           result.1 = Normal DuplicateRequest /\ store result.2 = store w /\
           calls result.2 = calls w ++ [ContactRequest_findOne_call u a p]) /\
        (~ on_record w u a p ->
           (users w !! u = None \/
            (forall i x, users w !! i = Some x -> holds a i = false) \/
            (forall j y, properties w !! j = Some y -> holds p j = false) ->
              result.1 = Normal NotFound /\ store result.2 = store w) /\
           (is_Some (users w !! u) ->
            (exists i, is_Some (users w !! i) /\ holds a i = true) ->
            (exists j, is_Some (properties w !! j) /\ holds p j = true) ->
              result.1 = Normal Success /\
              exists i j,
                is_Some (users w !! i) /\ holds a i = true /\
                is_Some (properties w !! j) /\ holds p j = true /\
                contactRequests result.2 =
                  contactRequests w ++
                    [{| request_client := u; request_agent := i; request_property := j;
                        request_status := pending; request_notes := "";
                        request_createdAt := now env; request_updatedAt := now env |}] /\
                users result.2 = users w /\ properties result.2 = properties w /\
                ratings result.2 = ratings w)))) /\
  (forall v, ToBoolean v = true ->
     match castObjectId v with
     | Some o => cast v = Some (is_id (Some o))
     | None => cast v = if primitive v then None else meets <$> castOperators v
     end) /\
  (forall i x : ObjectId, holds (Some i) x = true <-> i = x) /\
  (forall a p, on_record w u (Some a) (Some p) <-> requested w u a p).
Proof.
  intros result cast. subst result cast. split; [apply createRequest_missing |].
  split; [| split; [| split; [apply holds_id | apply on_record_requested]]].
  - intros Ha Hp. split.
    + intros Hc. by rewrite createRequest_cast_error.
    + intros a p Hca Hcp. rewrite createRequest_eq, Ha, Hp, Hca, Hcp. cbn [negb orb].
      split.
      * intros Hr. by destruct (decide _).
      * intros Hr. destruct (decide _); [done |]. split.
        -- intros Hnone. rewrite <- !first_by_id_None in Hnone.
           destruct (users w !! u); destruct (first_by_id a (users w));
             destruct (first_by_id p (properties w)); try done.
           destruct Hnone as [? | [? | ?]]; discriminate.
        -- intros [client Hu] (i & [x Hx] & Hi) (j & [y Hy] & Hj). rewrite Hu.
           destruct (first_by_id a (users w)) as [agent |] eqn:Hag.
           2: { pose proof (proj1 (first_by_id_None _ _) Hag) as Hn.
                by rewrite (Hn _ _ Hx) in Hi. }
           destruct (first_by_id p (properties w)) as [property |] eqn:Hpr.
           2: { pose proof (proj1 (first_by_id_None _ _) Hpr) as Hn.
                by rewrite (Hn _ _ Hy) in Hj. }
           destruct (first_by_id_found _ _ _ Hag) as [? Hfa].
           destruct (first_by_id_found _ _ _ Hpr) as [? Hfp].
           split; [done |]. exists (_id agent), (_id property).
           rewrite Hfa, Hfp. by repeat split.
  - intros v Hv. destruct (castObjectId v) as [o |] eqn:Ho.
    + by apply query_reference_id.
    + destruct (primitive v) eqn:Hp.
      * by apply query_reference_primitive.
      * by apply query_reference_operators.
Qed.

(** C6: once a request is to be recorded, the two operator addresses are
    each sent their mail, in order, whatever happens to the other: an
    accepted mail reaches the outbox, a failed one leaves one line on the
    error console, and the response is the success with the contact
    request stored. For every request and every transport, also none or
    one that refuses every mail, the response and the four collections
    are those of any other transport. *)
Theorem createRequest_notification_best_effort env (u : ObjectId) agentId propertyId
    (w : World) :
  (forall a p client agent property,
     ToBoolean agentId = true -> ToBoolean propertyId = true ->
     castObjectId agentId = Some a -> castObjectId propertyId = Some p ->
     ~ requested w u a p ->
     users w !! u = Some client -> users w !! a = Some agent ->
     properties w !! p = Some property ->
     let result := createRequest castObjectId castOperators env u agentId propertyId w in
     let r := new_ContactRequest u a p (now env) in
     let mails := map (notification env client agent property) adminEmails in
     result.1 = Normal Success /\
     contactRequests result.2 = contactRequests w ++ [r] /\
     calls result.2 =
       calls w ++ lookups u a p ++ [ContactRequest_save_call r] ++ sendMail_calls env mails /\
     outbox result.2 = outbox w ++ List.filter (accepted env) mails /\
     console result.2 =
       console w ++ map (fun _ => "Email sending error:")
                        (List.filter (fun m => negb (accepted env m)) mails)) /\
  (forall t,
     (createRequest castObjectId castOperators (with_transporter env t) u agentId propertyId w).1 =
       (createRequest castObjectId castOperators env u agentId propertyId w).1 /\
     store (createRequest castObjectId castOperators (with_transporter env t) u agentId propertyId w).2 =
       store (createRequest castObjectId castOperators env u agentId propertyId w).2).
Proof.
  split.
  - intros a p client agent property Ha Hp Hca Hcp Hr Hu Hag Hpr result r mails.
    subst result.
    rewrite (createRequest_success _ _ a p _ _ _ client agent property) by done.
    project. fold r mails. by rewrite <- !app_assoc.
  - intros t. rewrite !createRequest_eq. repeat case_match; done.
Qed.

(** *** POST /rate/:agentId, case by case *)

(** A value that cannot be made a primitive is an object or an array,
    which passes [if (v)] and whose number is taken as NaN. *)
Lemma convertible_primitive (v : value) : primitive v = true -> convertible v = true.
Proof. by destruct v. Qed.

Lemma unconvertible_number (v : value) :
  convertible v = false -> ToBoolean v = true /\ ToNumber v = NaN.
Proof.
  destruct v; try discriminate; intros Hv; (split; [done |]);
    unfold ToNumber; by rewrite Hv.
Qed.

Lemma rejected_convertible (v : value) : rejected v = true -> convertible v = true.
Proof.
  destruct (convertible v) eqn:Hv; [done |].
  destruct (unconvertible_number v Hv) as [Ht Hn].
  unfold rejected, lt, gt. by rewrite Ht, Hn.
Qed.

Lemma validated_eq (v : value) :
  validated v = true <-> convertible v = true /\ rejected v = false.
Proof. unfold validated. rewrite andb_true_iff, negb_true_iff. done. Qed.

(** A rating that cannot be made a number makes the comparison throw. *)
Lemma submitRating_unconvertible (u : ObjectId) agentId rating comment propertyId
    (w : World) :
  convertible rating = false ->
  submitRating castObjectId castOperators ratingValidator u agentId rating comment propertyId w =
    (Normal (redirect "/client/dashboard"), failed w).
Proof.
  intros Hv. unfold submitRating, ToPrimitive. rewrite Hv. reflexivity.
Qed.

Lemma submitRating_invalid (u : ObjectId) agentId rating comment propertyId (w : World) :
  rejected rating = true ->
  submitRating castObjectId castOperators ratingValidator u agentId rating comment propertyId w =
    (Normal (redirect ("/client/rate/" +:+ agentId)),
     set_flashes (fun l => l ++ [InvalidRating_flash]) w).
Proof.
  intros Hrej. pose proof (rejected_convertible rating Hrej) as Hv.
  unfold rejected in Hrej. unfold submitRating, ToPrimitive. rewrite Hv, Hrej.
  reflexivity.
Qed.

Lemma submitRating_cast_error (u : ObjectId) agentId rating comment propertyId (w : World) :
  rejected rating = false ->
  castObjectId (Str agentId) = None \/ query_reference castObjectId castOperators propertyId = None ->
  submitRating castObjectId castOperators ratingValidator u agentId rating comment propertyId w =
    (Normal (redirect "/client/dashboard"), failed w).
Proof.
  destruct (convertible rating) eqn:Hv; [| intros _ _; by apply submitRating_unconvertible].
  unfold rejected, submitRating, ToPrimitive. rewrite Hv. intros -> Hc. run.
  rewrite castFilter_eq, query_reference_Str.
  destruct (castObjectId (Str agentId)) as [a |]; cbn; [| reflexivity].
  rewrite castFilter_eq. destruct Hc as [Hc | ->]; [discriminate | reflexivity].
Qed.

(** A rating on record that meets the conditions of the duplicate query
    is found. *)
Lemma submitRating_found (u a : ObjectId) (po : Condition) agentId rating comment
    propertyId (w : World) :
  validated rating = true ->
  castObjectId (Str agentId) = Some a ->
  query_reference castObjectId castOperators propertyId = Some po ->
  rated_meeting w u (Some a) po ->
  submitRating castObjectId castOperators ratingValidator u agentId rating comment propertyId w =
    (Normal (redirect "/client/dashboard"),
     set_flashes (fun l => l ++ [DuplicateRating_flash])
       (set_calls (fun l => l ++ [Rating_findOne_call u (Some a) po]) w)).
Proof.
  intros [Hv Hrej]%validated_eq Ha Hp Hr.
  unfold rejected in Hrej. unfold submitRating, ToPrimitive. rewrite Hv, Hrej. run.
  rewrite castFilter_eq, query_reference_Str, Ha. cbn.
  rewrite castFilter_eq, Hp. cbn.
  destruct (find _ _) eqn:Hf; [reflexivity |].
  apply find_rating_meeting in Hf. contradiction.
Qed.

Lemma submitRating_duplicate (u a p : ObjectId) agentId rating comment propertyId
    (w : World) :
  validated rating = true ->
  castObjectId (Str agentId) = Some a -> reference castObjectId propertyId = Some p ->
  rated w u a p ->
  submitRating castObjectId castOperators ratingValidator u agentId rating comment propertyId w =
    (Normal (redirect "/client/dashboard"),
     set_flashes (fun l => l ++ [DuplicateRating_flash])
       (set_calls (fun l => l ++ [Rating_findOne_call u (Some a) (Some p)]) w)).
Proof.
  intros Hrej Ha Hp Hr. apply query_reference_Some in Hp.
  apply submitRating_found; [done .. |]. by apply rated_meeting_rated.
Qed.

(** Past the duplicate check: the rating is parsed, validated and stored,
    and the aggregate written back if the agent exists. *)
Lemma submitRating_fresh (u a : ObjectId) (po : Condition) agentId rating comment
    propertyId (w : World) :
  validated rating = true ->
  castObjectId (Str agentId) = Some a ->
  query_reference castObjectId castOperators propertyId = Some po ->
  ~ rated_meeting w u (Some a) po ->
  submitRating castObjectId castOperators ratingValidator u agentId rating comment propertyId w =
    let w1 := set_calls (fun l => l ++ [Rating_findOne_call u (Some a) po]) w in
    match po with
    | is_id (Some p) =>
        if ratingValidator (parseInt rating) then
          let r := {| rating_client := u; rating_agent := a; rating_property := p;
                      rating_rating := parseInt rating; rating_comment := comment |} in
          match users w !! a with
          | None => (Normal (redirect "/client/dashboard"), failed (stored r (Some p) w))
          | Some agent =>
              (Normal (redirect "/client/dashboard"),
               set_flashes (fun l => l ++ [Success_flash])
                 (set_calls (fun l => l ++ [User_save_call a])
                   (set_users
                      (fun m => <[a := with_aggregate agent (ratings_of a (ratings w ++ [r]))]> m)
                      (stored r (Some p) w))))
          end
        else (Normal (redirect "/client/dashboard"), failed w1)
    | _ => (Normal (redirect "/client/dashboard"), failed w1)
    end.
Proof.
  intros [Hv Hrej]%validated_eq Ha Hpo Hr.
  unfold rejected in Hrej. unfold submitRating, ToPrimitive. rewrite Hv, Hrej. run.
  rewrite castFilter_eq, query_reference_Str, Ha. cbn.
  rewrite castFilter_eq, Hpo. cbn.
  apply find_rating_meeting in Hr. rewrite Hr.
  rewrite castRequired_eq, reference_Str, Ha. cbn.
  destruct po as [[p |] | pred].
  - apply query_reference_Some in Hpo. rewrite castRequired_eq, Hpo. cbn.
    destruct (ratingValidator _); [| reflexivity]. cbn.
    rewrite castFilter_eq, query_reference_Str, Ha. cbn.
    rewrite castFilter_eq, query_reference_Str, Ha. cbn.
    destruct (users w !! a) as [agent |]; [| reflexivity].
    cbn. by rewrite filter_holds_id.
  - by rewrite castRequired_eq, (query_reference_other _ _ Hpo).
  - by rewrite castRequired_eq, (query_reference_other _ _ Hpo).
Qed.

(** The handler as one expression over the world it starts in. *)
Lemma submitRating_eq (u : ObjectId) agentId rating comment propertyId (w : World) :
  submitRating castObjectId castOperators ratingValidator u agentId rating comment propertyId w =
    if negb (convertible rating)
    then (Normal (redirect "/client/dashboard"), failed w)
    else if rejected rating
    then (Normal (redirect ("/client/rate/" +:+ agentId)),
          set_flashes (fun l => l ++ [InvalidRating_flash]) w)
    else
      match castObjectId (Str agentId), query_reference castObjectId castOperators propertyId with
      | Some a, Some po =>
          let w1 := set_calls (fun l => l ++ [Rating_findOne_call u (Some a) po]) w in
          match po with
          | is_id (Some p) =>
              if decide (rated w u a p)
              then (Normal (redirect "/client/dashboard"),
                    set_flashes (fun l => l ++ [DuplicateRating_flash]) w1)
              else
                if ratingValidator (parseInt rating) then
                  let r := {| rating_client := u; rating_agent := a;
                              rating_property := p; rating_rating := parseInt rating;
                              rating_comment := comment |} in
                  match users w !! a with
                  | None =>
                      (Normal (redirect "/client/dashboard"), failed (stored r (Some p) w))
                  | Some agent =>
                      (Normal (redirect "/client/dashboard"),
                       set_flashes (fun l => l ++ [Success_flash])
                         (set_calls (fun l => l ++ [User_save_call a])
                           (set_users
                              (fun m => <[a := with_aggregate agent
                                                 (ratings_of a (ratings w ++ [r]))]> m)
                              (stored r (Some p) w))))
                  end
                else (Normal (redirect "/client/dashboard"), failed w1)
          | is_id None => (Normal (redirect "/client/dashboard"), failed w1)
          | meets _ =>
              if decide (rated_meeting w u (Some a) po)
              then (Normal (redirect "/client/dashboard"),
                    set_flashes (fun l => l ++ [DuplicateRating_flash]) w1)
              else (Normal (redirect "/client/dashboard"), failed w1)
          end
      | _, _ => (Normal (redirect "/client/dashboard"), failed w)
      end.
Proof.
  destruct (convertible rating) eqn:Hv; [| by apply submitRating_unconvertible].
  cbn [negb].
  destruct (rejected rating) eqn:Hrej; [by apply submitRating_invalid |].
  assert (validated rating = true) as Hval by by apply validated_eq.
  destruct (castObjectId (Str agentId)) as [a |] eqn:Ha;
    [| apply submitRating_cast_error; auto].
  destruct (query_reference castObjectId castOperators propertyId) as [po |] eqn:Hpo;
    [| apply submitRating_cast_error; auto].
  destruct po as [[p |] | pred]; cbn zeta.
  - destruct (decide (rated w u a p)) as [Hr | Hr].
    + apply query_reference_Some in Hpo. by apply submitRating_duplicate.
    + rewrite (submitRating_fresh u a (Some p)); [done .. |].
      by rewrite rated_meeting_rated.
  - rewrite (submitRating_fresh u a (is_id None)); [done .. |]. apply no_meeting_null.
  - destruct (decide _) as [Hr | Hr].
    + by apply submitRating_found.
    + by rewrite (submitRating_fresh u a (meets pred)).
Qed.

(** *** What the two services do to the collections *)

(** No stored triple meets the conditions, so none is the triple of two
    identifiers that meet them. *)
Lemma not_meeting_fresh (c a p : ObjectId) (A P : Condition)
    (l : list (ObjectId * ObjectId * ObjectId)) :
  ~ Exists (meeting c A P) l -> holds A a = true -> holds P p = true -> (c, a, p) ∉ l.
Proof.
  intros Hn Ha Hp Hin. apply Hn, Exists_exists. by exists (c, a, p).
Qed.

Lemma createRequest_collections env (u : ObjectId) agentId propertyId (w : World) :
  let w' := (createRequest castObjectId castOperators env u agentId propertyId w).2 in
  users w' = users w /\ properties w' = properties w /\ ratings w' = ratings w /\
  (contactRequests w' = contactRequests w \/
   exists A P a p,
     ToBoolean agentId = true /\ ToBoolean propertyId = true /\
     query_reference castObjectId castOperators agentId = Some A /\
     query_reference castObjectId castOperators propertyId = Some P /\
     ~ on_record w u A P /\ holds A a = true /\ holds P p = true /\
     contactRequests w' = contactRequests w ++ [new_ContactRequest u a p (now env)]).
Proof.
  destruct (createRequest_cases env u agentId propertyId w)
    as [-> | [-> | (a & p & Ha & Hp & Hca & Hcp &
         [[Hr ->] | (Hr & [-> | (client & agent & property & Hu & Hag & Hpr & ->)])])]];
    cbn; repeat split; auto.
  right. exists a, p, (_id agent), (_id property).
  destruct (first_by_id_found _ _ _ Hag), (first_by_id_found _ _ _ Hpr). auto 10.
Qed.

Lemma submitRating_collections (u : ObjectId) agentId rating comment propertyId (w : World) :
  let w' := (submitRating castObjectId castOperators ratingValidator u agentId rating comment propertyId w).2 in
  properties w' = properties w /\ contactRequests w' = contactRequests w /\
  (ratings w' = ratings w /\ users w' = users w \/
   exists a p, castObjectId (Str agentId) = Some a /\
     reference castObjectId propertyId = Some p /\
     ~ rated w u a p /\ rejected rating = false /\
     ratingValidator (parseInt rating) = true /\
     ratings w' = ratings w ++ [{| rating_client := u; rating_agent := a;
                                   rating_property := p; rating_rating := parseInt rating;
                                   rating_comment := comment |}]).
Proof.
  rewrite submitRating_eq.
  destruct (convertible rating); cbn [negb]; [| cbn; auto].
  destruct (rejected rating) eqn:Hrej; [cbn; auto |].
  destruct (castObjectId (Str agentId)) as [a |] eqn:Ha; [| cbn; auto].
  destruct (query_reference castObjectId castOperators propertyId) as [[[p |] | pred] |] eqn:Hpo;
    [| cbn; auto | destruct (decide _); cbn; auto | cbn; auto].
  apply query_reference_Some in Hpo. cbn zeta.
  destruct (decide (rated w u a p)) as [Hr | Hr]; [cbn; auto |].
  destruct (ratingValidator _) eqn:Hv; [| cbn; auto].
  destruct (users w !! a) as [agent |]; cbn; (split; [done |]); (split; [done |]);
    right; exists a, p; auto 10.
Qed.

Lemma NoDup_snoc {A} (l : list A) (x : A) : NoDup l -> x ∉ l -> NoDup (l ++ [x]).
Proof.
  intros Hl Hx. apply NoDup_app. split; [done |]. split; [| apply NoDup_singleton].
  intros y Hy Hin. apply list_elem_of_singleton in Hin. by subst.
Qed.

Lemma step_unique_triples (o : Operation) (w : World) :
  unique_triples w -> unique_triples (step castObjectId castOperators ratingValidator o w).
Proof.
  intros [Hreq Hrat]. unfold unique_triples.
  destruct o as [env u agentId propertyId | u agentId rating comment propertyId]; cbn [step].
  - destruct (createRequest_collections env u agentId propertyId w)
      as (_ & _ & -> & [-> | (A & P & a & p & _ & _ & _ & _ & Hr & Ha & Hp & ->)]); [done |].
    split; [| done]. rewrite map_app. apply NoDup_snoc; [done |].
    by apply (not_meeting_fresh u a p A P).
  - destruct (submitRating_collections u agentId rating comment propertyId w)
      as (_ & -> & [[-> _] | (a & p & _ & _ & Hr & _ & _ & ->)]); [done |].
    split; [done |]. rewrite map_app. by apply NoDup_snoc.
Qed.

(** C1: a store in which no two contact requests and no two ratings share
    a (client, agent, property) triple stays so through every run of
    [createRequest] and [submitRating] operations, each carried out to
    its end before the next; and a request whose triple is already on
    record leaves its collection as it was. *)
Theorem unique_triples_invariant (os : list Operation) (w : World) :
  unique_triples w ->
  unique_triples (run castObjectId castOperators ratingValidator os w) /\
  (forall env u agentId propertyId a p,
     castObjectId agentId = Some a -> castObjectId propertyId = Some p ->
     requested w u a p ->
     contactRequests (createRequest castObjectId castOperators env u agentId propertyId w).2
       = contactRequests w) /\
  (forall u agentId rating comment propertyId a p,
     castObjectId (Str agentId) = Some a -> reference castObjectId propertyId = Some p ->
     rated w u a p ->
     ratings (submitRating castObjectId castOperators ratingValidator u agentId rating comment propertyId w).2
       = ratings w).
Proof.
  intros Hw. split; [| split].
  - revert w Hw. induction os as [| o os IH]; intros w Hw; [done |].
    cbn. apply IH. by apply step_unique_triples.
  - intros env u agentId propertyId a p Ha Hp Hr.
    destruct (createRequest_collections env u agentId propertyId w)
      as (_ & _ & _ & [-> | (A & P & a' & p' & Hta & Htp & HA & HP & Hr' & _)]); [done |].
    rewrite (query_reference_id agentId a) in HA by done.
    rewrite (query_reference_id propertyId p) in HP by done.
    injection HA as <-. injection HP as <-. by apply on_record_requested in Hr.
  - intros u agentId rating comment propertyId a p Ha Hp Hr.
    destruct (submitRating_collections u agentId rating comment propertyId w)
      as (_ & _ & [[-> _] | (a' & p' & Ha' & Hp' & Hr' & _)]); [done |].
    congruence.
Qed.

(** *** Ratings *)

Lemma rejected_between (x : number) :
  leb (of_Z 1) x = true -> leb x (of_Z 5) = true -> rejected (Num x) = false.
Proof.
  intros H1 H5. destruct (NumberFacts.leb_between x H1 H5) as (Hnan & Hzero & Hlt & Hgt).
  unfold rejected, lt, gt, ToBoolean, ToNumber. by rewrite Hnan, Hzero, Hlt, Hgt.
Qed.

(** A value whose number is at least 1 passes [if (v)]. *)
Lemma truthy_from_one (v : value) : leb (of_Z 1) (ToNumber v) = true -> ToBoolean v = true.
Proof.
  destruct v as [| | [] | n | s | |]; try done.
  - destruct n as [| | |]; done.
  - destruct s; done.
Qed.

(** A value whose number lies between 1 and 5 passes the validation. *)
Lemma validated_bounds (v : value) :
  leb (of_Z 1) (ToNumber v) = true -> leb (ToNumber v) (of_Z 5) = true ->
  validated v = true.
Proof.
  intros H1 H5. apply validated_eq. split.
  - destruct (convertible v) eqn:Hv; [done |].
    destruct (unconvertible_number v Hv) as [_ Hn]. by rewrite Hn in H1.
  - unfold rejected, lt, gt.
    by rewrite (truthy_from_one v H1), (NumberFacts.leb_not_ltb _ _ H1),
      (NumberFacts.leb_not_ltb _ _ H5).
Qed.

(** A rating in range passes the validation and is stored as one of the
    integers 1 to 5. *)
Lemma in_range_accepted (rating : value) :
  in_range rating ->
  validated rating = true /\ exists k, 1 <= k <= 5 /\ parseInt rating = of_Z k.
Proof.
  intros [x Hv H1 H5 | k Hk | v k H1 H5 Hk Hp].
  - split; [by apply validated_bounds |].
    destruct (NumberFacts.trunc_between x Hv H1 H5) as (k & Hk & _ & Hp). eauto.
  - assert (k = 1 \/ k = 2 \/ k = 3 \/ k = 4 \/ k = 5) as Hcases by lia.
    destruct Hcases as [-> | [-> | [-> | [-> | ->]]]]; (split; [by vm_compute |]);
      [exists 1 | exists 2 | exists 3 | exists 4 | exists 5];
      (split; [lia | by vm_compute]).
  - split; [by apply validated_bounds | eauto].
Qed.

(** Of decimal text with one leading digit and a point, [parseInt] reads
    the digit. *)
Lemma parseInt_leading_digit (k : Z) (rest : string) :
  1 <= k <= 5 -> parseInt (Str (digit_string k +:+ "." +:+ rest)) = of_Z k.
Proof.
  intros Hk. assert (k = 1 \/ k = 2 \/ k = 3 \/ k = 4 \/ k = 5) as Hcases by lia.
  destruct Hcases as [-> | [-> | [-> | [-> | ->]]]]; reflexivity.
Qed.

Lemma flashes_snoc_inv (l : list (string * string)) (a b : string * string) :
  l ++ [a] = l ++ [b] -> a = b.
Proof. intros Heq. by apply app_inj_tail in Heq as [_ ?]. Qed.

(** C3, in general: whenever [POST /rate/:agentId] ends with its success
    message, the new rating is in the collection and the agent's document
    holds, as [rating], the sum of the [rating] fields of all the ratings
    then stored for the agent divided by their number, and that number as
    [totalRatings]. *)
Lemma submitRating_aggregate_written (u : ObjectId) agentId rating comment propertyId
    (w : World) :
  let result :=
    submitRating castObjectId castOperators ratingValidator u agentId rating comment propertyId w in
  flashes result.2 = flashes w ++ [Success_flash] ->
  exists a r agent,
    castObjectId (Str agentId) = Some a /\
    ratings result.2 = ratings w ++ [r] /\ rating_agent r = a /\
    users result.2 !! a = Some agent /\
    let all := ratings_of a (ratings result.2) in
    r ∈ all /\
    user_rating agent =
      div (fold_left (fun sum r => add sum (rating_rating r)) all pos_zero)
          (of_nat (length all)) /\
    totalRatings agent = length all.
Proof.
  intros result. subst result. rewrite submitRating_eq.
  destruct (convertible rating); cbn [negb]; [| intros Hf; by apply flashes_snoc_inv in Hf].
  destruct (rejected rating) eqn:Hrej; [intros Hf; by apply flashes_snoc_inv in Hf |].
  destruct (castObjectId (Str agentId)) as [a |] eqn:Ha;
    [| intros Hf; by apply flashes_snoc_inv in Hf].
  destruct (query_reference castObjectId castOperators propertyId) as [[[p |] | pred] |] eqn:Hpo;
    [| intros Hf; by apply flashes_snoc_inv in Hf
     | destruct (decide _); intros Hf; by apply flashes_snoc_inv in Hf
     | intros Hf; by apply flashes_snoc_inv in Hf].
  cbn zeta. destruct (decide (rated w u a p)) as [Hr | Hr];
    [intros Hf; by apply flashes_snoc_inv in Hf |].
  destruct (ratingValidator _) eqn:Hv; [| intros Hf; by apply flashes_snoc_inv in Hf].
  destruct (users w !! a) as [agent |] eqn:Hag;
    [| intros Hf; by apply flashes_snoc_inv in Hf].
  intros _. eexists a, _, _. split; [done |]. cbn.
  split; [done |]. split; [done |]. rewrite lookup_insert_eq. split; [done |].
  split; [| done]. unfold ratings_of. rewrite filter_app, filter_cons_True by done.
  apply elem_of_app. right. apply list_elem_of_here.
Qed.

(** C4, as the code has it: when a rating is on record for the triple, a
    further submission stores no rating and leaves every user document,
    so the agent's [rating] and [totalRatings], as it was; it fails with
    DuplicateRating when its rating value passes the validation, and
    with InvalidRating when it does not, the validation coming first. A
    rating value that is an object which cannot be made a number makes
    the validation throw, and the answer is the unexpected failure. *)
Theorem submitRating_duplicate_rejected (u a p : ObjectId) agentId rating comment propertyId
    (w : World) :
  castObjectId (Str agentId) = Some a -> reference castObjectId propertyId = Some p ->
  rated w u a p ->
  let result :=
    submitRating castObjectId castOperators ratingValidator u agentId rating comment propertyId w in
  ratings result.2 = ratings w /\ users result.2 = users w /\
  (validated rating = true ->
     result.1 = Normal (redirect "/client/dashboard") /\
     flashes result.2 = flashes w ++ [DuplicateRating_flash]) /\
  (rejected rating = true ->
     result.1 = Normal (redirect ("/client/rate/" +:+ agentId)) /\
     flashes result.2 = flashes w ++ [InvalidRating_flash]) /\
  (convertible rating = false ->
     result.1 = Normal (redirect "/client/dashboard") /\
     flashes result.2 = flashes w ++ [Unexpected_flash]) /\
  (forall v, primitive v = true -> validated v = negb (rejected v)).
Proof.
  intros Ha Hp Hr result. subst result.
  assert (forall v, primitive v = true -> validated v = negb (rejected v)) as Hprim
    by (intros v Hv; unfold validated; by rewrite convertible_primitive).
  destruct (convertible rating) eqn:Hv.
  - destruct (rejected rating) eqn:Hrej.
    + assert (validated rating = false) as Hval by (unfold validated; by rewrite Hv, Hrej).
      rewrite submitRating_invalid, Hval by done. cbn. repeat split; done.
    + rewrite (submitRating_duplicate u a p) by (try done; by apply validated_eq).
      cbn. repeat split; done.
  - assert (rejected rating = false) as Hrej.
    { destruct (rejected rating) eqn:Hrej; [| done].
      apply rejected_convertible in Hrej. congruence. }
    assert (validated rating = false) as Hval by (unfold validated; by rewrite Hv).
    rewrite submitRating_unconvertible, Hrej, Hval by done. cbn. repeat split; done.
Qed.

(** C5, the part the code keeps: a rating value that is falsy, or whose
    number is below 1 or above 5, is turned away with InvalidRating; no
    collection changes and no call is made. *)
Lemma submitRating_out_of_range (u : ObjectId) agentId rating comment propertyId
    (w : World) :
  ToBoolean rating = false \/ ltb (ToNumber rating) (of_Z 1) = true \/
    ltb (of_Z 5) (ToNumber rating) = true ->
  let result :=
    submitRating castObjectId castOperators ratingValidator u agentId rating comment propertyId w in
  result.1 = Normal (redirect ("/client/rate/" +:+ agentId)) /\
  flashes result.2 = flashes w ++ [InvalidRating_flash] /\
  store result.2 = store w /\ calls result.2 = calls w.
Proof.
  intros Hout result. subst result. rewrite submitRating_invalid; [done |].
  unfold rejected, lt, gt. destruct Hout as [-> | [-> | ->]]; cbn;
    rewrite ?orb_true_r; done.
Qed.

(** A rating value that passes the validation never ends in
    InvalidRating. *)
Lemma submitRating_not_invalid (u : ObjectId) agentId rating comment propertyId (w : World) :
  rejected rating = false ->
  flashes (submitRating castObjectId castOperators ratingValidator u agentId rating comment propertyId w).2
    <> flashes w ++ [InvalidRating_flash].
Proof.
  intros Hrej. rewrite submitRating_eq, Hrej.
  repeat case_match; intros Hf; by apply flashes_snoc_inv in Hf.
Qed.

(** With a fresh triple and an existing agent, a rating value that passes
    the validation is stored as [parseInt] reads it if the schema takes
    that number, and is reported as the unexpected failure if not. *)
Lemma submitRating_accepted (u a p : ObjectId) agentId rating comment propertyId n
    (agent : User) (w : World) :
  validated rating = true -> parseInt rating = n ->
  castObjectId (Str agentId) = Some a -> reference castObjectId propertyId = Some p ->
  ~ rated w u a p -> users w !! a = Some agent ->
  let result :=
    submitRating castObjectId castOperators ratingValidator u agentId rating comment propertyId w in
  let r := {| rating_client := u; rating_agent := a; rating_property := p;
              rating_rating := n; rating_comment := comment |} in
  if ratingValidator n
  then ratings result.2 = ratings w ++ [r] /\
       flashes result.2 = flashes w ++ [Success_flash] /\
       users result.2 !! a = Some (with_aggregate agent (ratings_of a (ratings w ++ [r])))
  else ratings result.2 = ratings w /\
       flashes result.2 = flashes w ++ [Unexpected_flash] /\
       users result.2 = users w.
Proof.
  intros [Hv Hrej]%validated_eq Hn Ha Hp Hr Hag result r. subst result r.
  rewrite submitRating_eq, Hv, Hrej, Ha. apply query_reference_Some in Hp. rewrite Hp.
  cbn zeta. cbn [negb]. rewrite decide_False by done. rewrite Hn, Hag.
  destruct (ratingValidator n); project; [| done].
  by rewrite lookup_insert_eq.
Qed.

(** The same with the calls made, and the aggregate written out. *)
Lemma submitRating_stored (u a p : ObjectId) agentId rating comment propertyId
    (agent : User) (w : World) :
  validated rating = true ->
  castObjectId (Str agentId) = Some a -> reference castObjectId propertyId = Some p ->
  ~ rated w u a p -> users w !! a = Some agent ->
  ratingValidator (parseInt rating) = true ->
  let result :=
    submitRating castObjectId castOperators ratingValidator u agentId rating comment propertyId w in
  let r := {| rating_client := u; rating_agent := a; rating_property := p;
              rating_rating := parseInt rating; rating_comment := comment |} in
  result.1 = Normal (redirect "/client/dashboard") /\
  flashes result.2 = flashes w ++ [Success_flash] /\
  ratings result.2 = ratings w ++ [r] /\
  calls result.2 =
    calls w ++ [Rating_findOne_call u (Some a) (Some p); Rating_save_call r;
                User_findById_call (Some a); Rating_find_call (Some a);
                User_save_call a] /\
  exists agent', users result.2 !! a = Some agent' /\
    let all := filter (fun r => rating_agent r = a) (ratings result.2) in
    r ∈ all /\
    user_rating agent' =
      div (fold_left (fun sum r => add sum (rating_rating r)) all pos_zero)
          (of_nat (length all)) /\
    totalRatings agent' = length all.
Proof.
  intros [Hv Hrej]%validated_eq Ha Hp Hr Hag Hval result r. subst result.
  rewrite submitRating_eq, Hv, Hrej, Ha. apply query_reference_Some in Hp. rewrite Hp.
  cbn zeta. cbn [negb]. rewrite decide_False by done. rewrite Hval, Hag. fold r. project.
  split; [done |]. split; [done |]. split; [done |].
  split; [by rewrite <- !app_assoc |].
  rewrite lookup_insert_eq. eexists. split; [done |].
  assert (filter (fun r0 : Rating => rating_agent r0 = a) (ratings w ++ [r])
          = ratings_of a (ratings w ++ [r])) as ->
    by (apply list_filter_iff; intros r0; split; congruence).
  split; [| done]. unfold ratings_of. rewrite filter_app, filter_cons_True by done.
  apply elem_of_app. right. apply list_elem_of_here.
Qed.

(** C5 at rating values that are no numbers: [3abc] and [abc] convert to
    NaN, which is neither below 1 nor above 5, so both pass the validation
    and neither submission ends in InvalidRating. With a fresh triple and
    an existing agent, [3abc] is stored as the rating 3 and counted in the
    agent's mean; [abc] is stored with NaN as its rating if the schema
    takes NaN, and reported as the unexpected failure if not. *)
Theorem submitRating_letters_pass (u : ObjectId) agentId comment propertyId (w : World) :
  let submit rating :=
    submitRating castObjectId castOperators ratingValidator u agentId rating comment propertyId w in
  (ToNumber (Str "3abc") = NaN /\ rejected (Str "3abc") = false /\
   parseInt (Str "3abc") = of_Z 3 /\
   flashes (submit (Str "3abc")).2 <> flashes w ++ [InvalidRating_flash] /\
   forall a p agent,
     castObjectId (Str agentId) = Some a -> reference castObjectId propertyId = Some p ->
     ~ rated w u a p -> users w !! a = Some agent -> ratingValidator (of_Z 3) = true ->
     let r := {| rating_client := u; rating_agent := a; rating_property := p;
                 rating_rating := of_Z 3; rating_comment := comment |} in
     ratings (submit (Str "3abc")).2 = ratings w ++ [r] /\
     flashes (submit (Str "3abc")).2 = flashes w ++ [Success_flash] /\
     users (submit (Str "3abc")).2 !! a =
       Some (with_aggregate agent (ratings_of a (ratings w ++ [r])))) /\
  (ToNumber (Str "abc") = NaN /\ rejected (Str "abc") = false /\
   parseInt (Str "abc") = NaN /\
   flashes (submit (Str "abc")).2 <> flashes w ++ [InvalidRating_flash] /\
   forall a p agent,
     castObjectId (Str agentId) = Some a -> reference castObjectId propertyId = Some p ->
     ~ rated w u a p -> users w !! a = Some agent ->
     let r := {| rating_client := u; rating_agent := a; rating_property := p;
                 rating_rating := NaN; rating_comment := comment |} in
     if ratingValidator NaN
     then ratings (submit (Str "abc")).2 = ratings w ++ [r] /\
          flashes (submit (Str "abc")).2 = flashes w ++ [Success_flash]
     else ratings (submit (Str "abc")).2 = ratings w /\
          flashes (submit (Str "abc")).2 = flashes w ++ [Unexpected_flash]).
Proof.
  intros submit. subst submit. cbn beta.
  assert (rejected (Str "3abc") = false) as H3 by reflexivity.
  assert (validated (Str "3abc") = true) as V3 by reflexivity.
  assert (parseInt (Str "3abc") = of_Z 3) as P3 by reflexivity.
  assert (rejected (Str "abc") = false) as H0 by reflexivity.
  assert (validated (Str "abc") = true) as V0 by reflexivity.
  assert (parseInt (Str "abc") = NaN) as P0 by reflexivity.
  split.
  - split; [reflexivity |]. split; [done |]. split; [done |].
    split; [by apply submitRating_not_invalid |].
    intros a p agent Ha Hp Hr Hag Hval r.
    pose proof (submitRating_accepted u a p agentId (Str "3abc") comment propertyId
                  (of_Z 3) agent w V3 P3 Ha Hp Hr Hag) as Hacc.
    cbn zeta in Hacc. by rewrite Hval in Hacc.
  - split; [reflexivity |]. split; [done |]. split; [done |].
    split; [by apply submitRating_not_invalid |].
    intros a p agent Ha Hp Hr Hag r.
    pose proof (submitRating_accepted u a p agentId (Str "abc") comment propertyId
                  NaN agent w V0 P0 Ha Hp Hr Hag) as Hacc.
    cbn zeta in Hacc. destruct (ratingValidator NaN); by destruct_and?.
Qed.



(** *** GET /dashboard *)

Lemma buildFilter_eq (q : Query) (w : World) :
  if pattern_fails RegExp_valid (query_state q) || pattern_fails RegExp_valid (query_area q)
     || negb (readable (query_minPrice q)) || negb (readable (query_maxPrice q))
  then exists e, buildFilter RegExp_valid q w = (Throw e, w)
  else buildFilter RegExp_valid q w = (Normal (filter_of q), w).
Proof.
  unfold buildFilter, filter_of, pattern_fails, readable, price_condition, new_RegExp,
    ToPrimitive, given. run.
  destruct (ToBoolean (query_state q)); cbn;
    [destruct (convertible (query_state q)); cbn; [| by eexists];
     destruct (regexp_valid RegExp_valid (ToString (query_state q))); cbn; [| by eexists] |];
    (destruct (ToBoolean (query_area q)); cbn;
      [destruct (convertible (query_area q)); cbn; [| by eexists];
       destruct (regexp_valid RegExp_valid (ToString (query_area q))); cbn;
         [| by eexists] |]);
    (destruct (ToBoolean (query_minPrice q)); cbn;
      [destruct (convertible (query_minPrice q)); cbn; [| by eexists] |]);
    (destruct (ToBoolean (query_maxPrice q)); cbn;
      [destruct (convertible (query_maxPrice q)); cbn; [| by eexists] |]);
    destruct (ToBoolean (query_type q)); reflexivity.
Qed.

(** The filter can be cast when each price bound given is a number and
    the type given can be cast. *)
Lemma filter_of_castable (q : Query) :
  readable (query_minPrice q) = true -> readable (query_maxPrice q) = true ->
  match filter_price (filter_of q) with
  | Some c => castable (gte c) && castable (lte c)
  | None => true
  end
  && match filter_propertyType (filter_of q) with
     | Some v => match castString castStringOperators v with
                 | Some _ => true
                 | None => false
                 end
     | None => true
     end
  = numeric_param (query_minPrice q) && numeric_param (query_maxPrice q)
    && negb (type_fails castStringOperators (query_type q)).
Proof.
  unfold filter_of, price_condition, numeric_param, type_fails, readable. cbn.
  destruct (given (query_minPrice q)), (given (query_maxPrice q)),
    (given (query_type q)) as [t |]; cbn; intros Hmin Hmax; rewrite ?Hmin, ?Hmax; cbn;
    rewrite ?andb_true_r;
    try destruct (castString castStringOperators t); reflexivity.
Qed.

(** A parameter that cannot be read is no number. *)
Lemma numeric_readable (param : value) :
  readable param = false -> numeric_param param = false.
Proof.
  unfold readable, numeric_param. destruct (given param); [| done]. by intros ->.
Qed.

(** The handler as one expression over the world it starts in. *)
Lemma dashboard_eq (u : ObjectId) (q : Query) (w : World) :
  dashboard castStringOperators RegExp_valid RegExp_matches u q w =
    if query_fails castStringOperators RegExp_valid q
    then (Normal (redirect "/"), dashboard_failed w)
    else
      (Normal (render_dashboard "client/dashboard" "Client Dashboard"
                 (map (populate (users w))
                      (merge_sort newer_first
                         (select castStringOperators RegExp_matches
                            (filter_of q) (map_to_list (properties w)))))
                 (session_document u w) q),
       set_calls (fun l => l ++ [Property_find_call; User_findById_call (Some u)]) w).
Proof.
  unfold dashboard, dashboard_failed, session_document, query_fails. run.
  pose proof (buildFilter_eq q w) as Hb.
  destruct (pattern_fails RegExp_valid (query_state q)); [by destruct Hb as [e ->] |].
  destruct (pattern_fails RegExp_valid (query_area q)); [by destruct Hb as [e ->] |].
  destruct (readable (query_minPrice q)) eqn:Hmin;
    [| destruct Hb as [e ->]; by rewrite (numeric_readable _ Hmin)].
  destruct (readable (query_maxPrice q)) eqn:Hmax;
    [| destruct Hb as [e ->]; rewrite (numeric_readable _ Hmax); cbn;
       by rewrite orb_true_r].
  cbn in Hb. rewrite Hb.
  unfold Property_find. rewrite filter_of_castable by done. run.
  destruct (numeric_param (query_minPrice q)); [| reflexivity].
  destruct (numeric_param (query_maxPrice q)); [| reflexivity].
  destruct (type_fails castStringOperators (query_type q)); [reflexivity |].
  cbn. destruct (users w !! u); cbn; unfold set_calls; cbn; by rewrite <- !app_assoc.
Qed.

Lemma price_matches_spec (q : Query) (x : number) :
  price_matches (price_condition q) x = true <->
  (forall v, given (query_minPrice q) = Some v -> leb (parseInt v) x = true) /\
  (forall v, given (query_maxPrice q) = Some v -> leb x (parseInt v) = true).
Proof.
  unfold price_matches, price_condition.
  destruct (given (query_minPrice q)) as [lo |], (given (query_maxPrice q)) as [hi |]; cbn;
    rewrite ?andb_true_iff;
    (split;
     [intros Hb; split; intros s [= <-]; by destruct_and?
     | intros [Hlo Hhi]; repeat split; auto]).
Qed.

Lemma type_matches_spec (q : Query) (t : string) :
  type_matches castStringOperators (given (query_type q)) t = true <->
  (forall v, given (query_type q) = Some v ->
     exists condition, castString castStringOperators v = Some condition /\
       condition t = true).
Proof.
  unfold type_matches. destruct (given (query_type q)) as [v |]; [| done].
  destruct (castString castStringOperators v) as [condition |] eqn:Hc; split.
  - intros Ht ? [= <-]. eauto.
  - intros Ht. destruct (Ht v eq_refl) as (c & Hc' & ?). congruence.
  - done.
  - intros Ht. destruct (Ht v eq_refl) as (c & Hc' & ?). congruence.
Qed.

Lemma regex_matches_spec (param : value) (subject : string) :
  regex_matches RegExp_matches (ToString <$> given param) subject = true <->
  (forall v, given param = Some v ->
     regexp_test RegExp_matches (ToString v) subject = true).
Proof.
  unfold regex_matches. destruct (given param) as [v |]; cbn; [| done].
  split; [by intros Ht ? [= <-] | auto].
Qed.

(** The filter holds of a property exactly when the property meets the
    condition of every parameter given. *)
Lemma matches_satisfies (q : Query) (p : @Property ObjectId) :
  matches castStringOperators RegExp_matches (filter_of q) p = true <->
  satisfies castStringOperators RegExp_matches q p.
Proof.
  unfold matches, satisfies. cbn [filter_of filter_status filter_price filter_propertyType
    filter_location_state filter_location_area].
  rewrite !andb_true_iff, String.eqb_eq, price_matches_spec, type_matches_spec,
    !regex_matches_spec.
  tauto.
Qed.

Lemma elem_of_select (f : Filter) (l : list (ObjectId * Property)) (d : Document Property) :
  d ∈ select castStringOperators RegExp_matches f l <->
  (_id d, fields d) ∈ l /\
  matches castStringOperators RegExp_matches f (fields d) = true.
Proof.
  unfold select. rewrite list_elem_of_fmap. split.
  - intros ([i x] & -> & Hin). apply list_elem_of_filter in Hin as [Hm Hin]. done.
  - intros [Hin Hm]. exists (_id d, fields d). split; [by destruct d |].
    by apply list_elem_of_filter.
Qed.

Lemma NoDup_select (f : Filter) (m : gmap ObjectId Property) :
  NoDup (select castStringOperators RegExp_matches f (map_to_list m)).
Proof.
  unfold select. apply NoDup_fmap_2_strong.
  - intros [i x] [j y] _ _ [= -> ->]. done.
  - apply NoDup_filter, NoDup_map_to_list.
Qed.

#[local] Instance newer_first_transitive : Transitive (@newer_first ObjectId).
Proof. intros a b c. unfold newer_first. lia. Qed.

#[local] Instance newer_first_total : Total (@newer_first ObjectId).
Proof. intros a b. unfold newer_first. lia. Qed.

Lemma populated_property_populate (us : gmap ObjectId User) (l : list (Document Property)) :
  map populated_property (map (populate us) l) = l.
Proof. induction l as [| d l IH]; [done |]. cbn. by rewrite IH. Qed.

(** What a rendered dashboard lists: the stored properties that meet the
    conditions, each once, the newest first, each with the [_id], the
    name and the phone of its agent and nothing else of the agent. *)
Lemma dashboard_listing (q : Query) (w : World) :
  let listing :=
    map (populate (users w))
        (merge_sort newer_first
           (select castStringOperators RegExp_matches
              (filter_of q) (map_to_list (properties w)))) in
  Forall (fun p => populated_agent p =
                     (fun a => {| _id := property_agent (fields (populated_property p));
                                  fields := (fullName a, phone a) |}) <$>
                       users w !! property_agent (fields (populated_property p)))
         listing /\
  NoDup (map populated_property listing) /\
  StronglySorted newer_first (map populated_property listing) /\
  forall d, d ∈ map populated_property listing <->
            properties w !! _id d = Some (fields d) /\
            satisfies castStringOperators RegExp_matches q (fields d).
Proof.
  intros listing. subst listing. split.
  { apply Forall_forall. intros p Hp. apply list_elem_of_fmap in Hp as (d & -> & _).
    unfold populate. cbn. by destruct (users w !! property_agent (fields d)). }
  rewrite populated_property_populate.
  split; [rewrite merge_sort_Permutation; apply NoDup_select |].
  split; [apply StronglySorted_merge_sort; apply _ |].
  intros d. by rewrite merge_sort_Permutation, elem_of_select, elem_of_map_to_list,
    matches_satisfies.
Qed.

(** Plain text is a regular expression, and the search for it. *)
Lemma regexp_plain_text (pattern subject : string) :
  RegExp.plain_text pattern = true ->
  regexp_valid RegExp_valid pattern = true /\
  regexp_test RegExp_matches pattern subject =
    RegExp.substring_ci (bytes pattern) (bytes subject).
Proof.
  intros Hp. destruct (RegExpFacts.test_plain_text pattern subject Hp) as (atoms & Hc & Ht).
  unfold regexp_valid, regexp_test. by rewrite Hc, Ht.
Qed.

(** Plain parameters do not fail the query. *)
Lemma plain_param_valid (param : value) :
  plain_param param = true -> pattern_fails RegExp_valid param = false.
Proof.
  unfold plain_param, pattern_fails. destruct (given param) as [[| | | | s | |] |]; try done.
  intros Hp. cbn. by destruct (regexp_plain_text s "" Hp) as [-> _].
Qed.

(** C8, as the code has it. A dashboard query fails as a whole, with
    the message of the [catch] and a redirect to the home page, when
    [state] or [area] is given and no regular expression, when a price
    bound given is no number for [parseInt], or when the [type] given
    cannot be cast. Otherwise the page is rendered, and it lists exactly
    the stored properties with the status [active] that meet the
    condition of every parameter given (a non-empty string, an object or
    an array), each once, the newest first: [state] and [area] as
    regular expressions made of the parameter as a string and searched
    for in the field, letter case apart; [minPrice] and [maxPrice] as
    inclusive bounds on [price], each read by [parseInt]; [type] as the
    condition it is cast to, which for a text is the exact [propertyType].
    A pattern of plain text, free of the characters that have a meaning
    in a regular expression, is a search for that text. *)
Theorem dashboard_query (u : ObjectId) (q : Query) (w : World) :
  let result := dashboard castStringOperators RegExp_valid RegExp_matches u q w in
  (query_fails castStringOperators RegExp_valid q = true ->
     result = (Normal (redirect "/"), dashboard_failed w)) /\
  (query_fails castStringOperators RegExp_valid q = false ->
     exists listing,
       result =
         (Normal (render_dashboard "client/dashboard" "Client Dashboard" listing
                    (session_document u w) q),
          set_calls (fun l => l ++ [Property_find_call; User_findById_call (Some u)]) w) /\
       NoDup (map populated_property listing) /\
       StronglySorted newer_first (map populated_property listing) /\
       forall d, d ∈ map populated_property listing <->
                 properties w !! _id d = Some (fields d) /\
                 satisfies castStringOperators RegExp_matches q (fields d)) /\
  (forall p : @Property ObjectId,
     satisfies castStringOperators RegExp_matches q p <->
     property_status p = "active" /\
     (ToBoolean (query_state q) = true ->
        regexp_test RegExp_matches (ToString (query_state q))
          (state (location p)) = true) /\
     (ToBoolean (query_area q) = true ->
        regexp_test RegExp_matches (ToString (query_area q))
          (area (location p)) = true) /\
     (ToBoolean (query_minPrice q) = true ->
        leb (parseInt (query_minPrice q)) (price p) = true) /\
     (ToBoolean (query_maxPrice q) = true ->
        leb (price p) (parseInt (query_maxPrice q)) = true) /\
     (ToBoolean (query_type q) = true ->
        exists condition,
          castString castStringOperators (query_type q) = Some condition /\
          condition (propertyType p) = true)) /\
  (forall pattern subject, RegExp.plain_text pattern = true ->
     regexp_valid RegExp_valid pattern = true /\
     regexp_test RegExp_matches pattern subject =
       RegExp.substring_ci (bytes pattern) (bytes subject)) /\
  (forall text t,
     castString castStringOperators (Str text) = Some (String.eqb text) /\
     (String.eqb text t = true <-> t = text)).
Proof.
  intros result. subst result. rewrite dashboard_eq.
  split; [by intros -> |]. split; [| split; [| split]].
  - intros ->. eexists. split; [reflexivity |].
    destruct (dashboard_listing q w) as (_ & ? & ? & ?). done.
  - intros p. unfold satisfies, given.
    destruct (ToBoolean (query_state q)), (ToBoolean (query_area q)),
      (ToBoolean (query_minPrice q)), (ToBoolean (query_maxPrice q)),
      (ToBoolean (query_type q));
      (split; [intros (? & ? & ? & ? & ? & ?); repeat split; try done; eauto
              | intros (? & ? & ? & ? & ? & ?); repeat split; try done;
                intros ? [= <-]; eauto]).
  - apply regexp_plain_text.
  - intros text t. split; [reflexivity |]. rewrite String.eqb_eq. split; congruence.
Qed.


(** C10, as the code has it: when the identifier of the route is well
    formed and names no user, or a user whose role is not [agent],
    [GET /rate/:agentId] answers in one and the same way: the flash
    [Agent not found] and a redirect to the dashboard. The only call made
    is the lookup of that identifier, so the client's document, and with
    it the list of unlocked agents, is not read. When the identifier is
    not well formed the lookup throws on the cast, and the answer is the
    message of the [catch], [Error loading rating page], with one line on
    the console and no call made. *)
Theorem rateAgentPage_not_an_agent (sessionUser : ObjectId) (agentId : string)
    (w : World) :
  let result := rateAgentPage castObjectId castOperators sessionUser agentId w in
  (forall agent, castObjectId (Str agentId) = Some agent ->
     (users w !! agent = None \/
      exists u, users w !! agent = Some u /\ role u <> "agent") ->
     result =
       (Normal (redirect "/client/dashboard"),
        set_flashes (fun l => l ++ [("error_msg", "Agent not found")])
          (set_calls (fun l => l ++ [User_findById_call (Some agent)]) w))) /\
  (castObjectId (Str agentId) = None ->
     result =
       (Normal (redirect "/client/dashboard"),
        set_flashes (fun l => l ++ [("error_msg", "Error loading rating page")])
          (set_console (fun l => l ++ ["Rate agent error:"]) w))).
Proof.
  intros result. subst result. split.
  - intros agent Hcast Hagent. unfold rateAgentPage. run.
    rewrite castFilter_Str, Hcast. cbn.
    destruct Hagent as [-> | (u & -> & Hrole)]; [reflexivity |].
    simpl. destruct (String.eqb_spec (role u) "agent") as [Heq | _]; [contradiction |].
    reflexivity.
  - intros Hcast. unfold rateAgentPage. run. by rewrite castFilter_Str, Hcast.
Qed.

(** ** Beyond the claims *)

(** *** GET /rate/:agentId *)

(** The handler as one expression over the world it starts in. *)
Lemma rateAgentPage_eq (u : ObjectId) (agentId : string) (w : World) :
  rateAgentPage castObjectId castOperators u agentId w =
    match castObjectId (Str agentId) with
    | None => (Normal (redirect "/client/dashboard"), page_failed w)
    | Some a =>
        let w1 := set_calls (fun l => l ++ [User_findById_call (Some a)]) w in
        let not_found :=
          (Normal (redirect "/client/dashboard"),
           set_flashes (fun l => l ++ [("error_msg", "Agent not found")]) w1) in
        match users w !! a with
        | None => not_found
        | Some agent =>
            if negb (String.eqb (role agent) "agent") then not_found
            else
              let w2 := set_calls (fun l => l ++ [User_findById_call (Some u)]) w1 in
              match users w !! u with
              | None => (Normal (redirect "/client/dashboard"), page_failed w2)
              | Some client =>
                  if bool_decide (a ∈ unlockedAgents client)
                  then (Normal (render_rate_agent "client/rate-agent" "Rate Agent"
                                  {| _id := a; fields := agent |} (properties_of a w)),
                        set_calls (fun l => l ++ [Property_find_call]) w2)
                  else (Normal (redirect "/client/dashboard"),
                        set_flashes
                          (fun l => l ++ [("error_msg",
                                           "You can only rate agents you have unlocked")]) w2)
              end
        end
    end.
Proof.
  unfold rateAgentPage, page_failed, properties_of. run.
  rewrite castFilter_Str. destruct (castObjectId (Str agentId)) as [a |]; [| reflexivity].
  cbn. destruct (users w !! a) as [agent |]; [| reflexivity]. simpl.
  destruct (String.eqb (role agent) "agent"); [| reflexivity]. simpl.
  destruct (users w !! u) as [client |]; [| reflexivity]. simpl.
  destruct (bool_decide (a ∈ unlockedAgents client)); reflexivity.
Qed.

Lemma elem_of_properties_of (a : ObjectId) (w : World) (d : Document Property) :
  d ∈ properties_of a w <->
  properties w !! _id d = Some (fields d) /\ property_agent (fields d) = a.
Proof.
  unfold properties_of. rewrite list_elem_of_fmap. split.
  - intros ([i x] & -> & Hin). apply list_elem_of_filter in Hin as [Ha Hin].
    by apply elem_of_map_to_list in Hin.
  - intros [Hin Ha]. exists (_id d, fields d). split; [by destruct d |].
    apply list_elem_of_filter. split; [done |]. by apply elem_of_map_to_list.
Qed.

(** The unlock gate of the rating page. The agent is a user with the role
    [agent] and the client is on record. If the client has unlocked the
    agent, the form is rendered with the agent's document and exactly the
    stored properties of that agent, each once; if not, the request is
    turned away with its own message and the properties are not queried.
    Neither leaves a trace in the collections. *)
Theorem rateAgentPage_unlock_gate (u a : ObjectId) (agentId : string) (agent client : User)
    (w : World) :
  castObjectId (Str agentId) = Some a ->
  users w !! a = Some agent -> role agent = "agent" ->
  users w !! u = Some client ->
  let result := rateAgentPage castObjectId castOperators u agentId w in
  let w2 := set_calls (fun l => l ++ [User_findById_call (Some a);
                                      User_findById_call (Some u)]) w in
  (a ∈ unlockedAgents client ->
     exists listing,
       result = (Normal (render_rate_agent "client/rate-agent" "Rate Agent"
                           {| _id := a; fields := agent |} listing),
                 set_calls (fun l => l ++ [Property_find_call]) w2) /\
       NoDup listing /\
       forall d, d ∈ listing <->
                 properties w !! _id d = Some (fields d) /\
                 property_agent (fields d) = a) /\
  (a ∉ unlockedAgents client ->
     result = (Normal (redirect "/client/dashboard"),
               set_flashes
                 (fun l => l ++ [("error_msg", "You can only rate agents you have unlocked")])
                 w2)).
Proof.
  intros Hcast Hagent Hrole Hclient result w2. subst result w2.
  rewrite rateAgentPage_eq, Hcast. cbn zeta.
  rewrite Hagent, Hrole, String.eqb_refl, Hclient. cbn [negb].
  split.
  - intros Hin. rewrite bool_decide_eq_true_2 by done.
    exists (properties_of a w). split.
    + unfold set_calls. cbn. by rewrite <- !app_assoc.
    + split; [| apply elem_of_properties_of].
      unfold properties_of. apply NoDup_fmap_2_strong.
      * intros [i x] [j y] _ _ [= -> ->]. done.
      * apply NoDup_filter, NoDup_map_to_list.
  - intros Hout. rewrite bool_decide_eq_false_2 by done.
    unfold set_calls, set_flashes. cbn. by rewrite <- !app_assoc.
Qed.

(** The rating page fails as a whole, with the message of its [catch]
    and one line on the console, when the identifier of the route is not
    well formed, and when the agent is found but the session's user is
    not on record. *)
Theorem rateAgentPage_fails (u : ObjectId) (agentId : string) (w : World) :
  (castObjectId (Str agentId) = None \/
   exists a agent, castObjectId (Str agentId) = Some a /\ users w !! a = Some agent /\
     role agent = "agent" /\ users w !! u = None) ->
  let result := rateAgentPage castObjectId castOperators u agentId w in
  result.1 = Normal (redirect "/client/dashboard") /\
  flashes result.2 = flashes w ++ [("error_msg", "Error loading rating page")] /\
  console result.2 = console w ++ ["Rate agent error:"] /\
  store result.2 = store w.
Proof.
  intros Hfail result. subst result. rewrite rateAgentPage_eq.
  destruct Hfail as [-> | (a & agent & -> & Hagent & Hrole & Hclient)]; [done |].
  cbn zeta. by rewrite Hagent, Hrole, String.eqb_refl, Hclient.
Qed.

(** The rating page never writes: whatever the request, the four
    collections are as they were, and the answer is either the rendered
    form, with no message left, or a redirect to the dashboard with
    exactly one error message. *)
Theorem rateAgentPage_read_only (u : ObjectId) (agentId : string) (w : World) :
  let result := rateAgentPage castObjectId castOperators u agentId w in
  store result.2 = store w /\ outbox result.2 = outbox w /\
  ((exists agent listing,
      result.1 = Normal (render_rate_agent "client/rate-agent" "Rate Agent" agent listing) /\
      flashes result.2 = flashes w) \/
   (exists message,
      result.1 = Normal (redirect "/client/dashboard") /\
      flashes result.2 = flashes w ++ [("error_msg", message)])).
Proof.
  cbn zeta. rewrite rateAgentPage_eq.
  destruct (castObjectId (Str agentId)) as [a |]; [| split; [done |]; split; [done |]; eauto].
  cbn zeta. destruct (users w !! a) as [agent |];
    [| split; [done |]; split; [done |]; eauto].
  destruct (String.eqb (role agent) "agent"); cbn [negb];
    [| split; [done |]; split; [done |]; eauto].
  destruct (users w !! u) as [client |]; [| split; [done |]; split; [done |]; eauto].
  destruct (bool_decide (a ∈ unlockedAgents client));
    (split; [done |]); (split; [done |]); eauto.
Qed.

(** *** GET /dashboard, as a whole *)

(** Plain parameters, prices that are numbers and a type that is a
    primitive value do not fail the query. *)
Lemma query_plain (q : Query) :
  plain_param (query_state q) = true -> plain_param (query_area q) = true ->
  numeric_param (query_minPrice q) = true -> numeric_param (query_maxPrice q) = true ->
  primitive (query_type q) = true ->
  query_fails castStringOperators RegExp_valid q = false.
Proof.
  intros Hstate Harea Hmin Hmax Htype. unfold query_fails.
  rewrite (plain_param_valid _ Hstate), (plain_param_valid _ Harea), Hmin, Hmax. cbn.
  unfold type_fails, given, castString. destruct (ToBoolean (query_type q)); [| done].
  by rewrite Htype.
Qed.

(** A dashboard query that does not fail is always answered with the
    rendered page; such is every query whose text parameters are each
    absent, empty or plain text, of whose price parameters given
    [parseInt] makes a number, and whose type is absent or a text. The
    page [client/dashboard] is rendered with the document of the
    session's user ([null] if there is none), the parameters as they
    came, and the stored properties that meet the conditions, each once,
    the newest first, each with the [_id], the name and the phone of its
    agent and nothing else of the agent. The two calls made are the
    query and the lookup of the session's user; nothing is written and
    no message is left. *)
Theorem dashboard_renders (u : ObjectId) (q : Query) (w : World) :
  (plain_param (query_state q) = true -> plain_param (query_area q) = true ->
   numeric_param (query_minPrice q) = true -> numeric_param (query_maxPrice q) = true ->
   primitive (query_type q) = true ->
     query_fails castStringOperators RegExp_valid q = false) /\
  (query_fails castStringOperators RegExp_valid q = false ->
   exists listing,
     dashboard castStringOperators RegExp_valid RegExp_matches u q w =
       (Normal (render_dashboard "client/dashboard" "Client Dashboard" listing
                  (session_document u w) q),
        set_calls (fun l => l ++ [Property_find_call; User_findById_call (Some u)]) w) /\
     Forall (fun p => populated_agent p =
                        (fun a => {| _id := property_agent (fields (populated_property p));
                                     fields := (fullName a, phone a) |}) <$>
                          users w !! property_agent (fields (populated_property p)))
            listing /\
     NoDup (map populated_property listing) /\
     StronglySorted newer_first (map populated_property listing) /\
     forall d, d ∈ map populated_property listing <->
               properties w !! _id d = Some (fields d) /\
               satisfies castStringOperators RegExp_matches q (fields d)).
Proof.
  split; [apply query_plain |].
  intros Hq. rewrite dashboard_eq, Hq. eexists. split; [reflexivity |].
  apply dashboard_listing.
Qed.

(** A price range given upside down, the minimum above the maximum, is
    no error: with the other parameters in order, the page is rendered,
    and it lists nothing. *)
Theorem dashboard_inverted_range (u : ObjectId) (q : Query) (lo hi : value) (w : World) :
  query_fails castStringOperators RegExp_valid q = false ->
  given (query_minPrice q) = Some lo -> given (query_maxPrice q) = Some hi ->
  ltb (parseInt hi) (parseInt lo) = true ->
  dashboard castStringOperators RegExp_valid RegExp_matches u q w =
    (Normal (render_dashboard "client/dashboard" "Client Dashboard" []
               (session_document u w) q),
     set_calls (fun l => l ++ [Property_find_call; User_findById_call (Some u)]) w).
Proof.
  intros Hq Hlo Hhi Hlt. rewrite dashboard_eq, Hq.
  assert (select castStringOperators RegExp_matches (filter_of q)
            (map_to_list (properties w)) = []) as ->; [| done].
  apply elem_of_nil_inv. intros d Hd.
  apply elem_of_select in Hd as [_ Hd].
  apply matches_satisfies in Hd as (_ & _ & _ & Hmin & Hmax & _).
  pose proof (NumberFacts.leb_trans _ _ _ (Hmin lo Hlo) (Hmax hi Hhi)) as Hle.
  apply NumberFacts.leb_not_ltb in Hle. congruence.
Qed.

(** A price parameter that is given and of which [parseInt] makes no
    number, like [abc], fails the dashboard as a whole: the bound NaN
    cannot be cast, the query is not made, and the answer is the message
    of the [catch], one line on the console and a redirect to the home
    page, whatever the other parameters. *)
Theorem dashboard_bad_price (u : ObjectId) (q : Query) (w : World) :
  numeric_param (query_minPrice q) = false \/ numeric_param (query_maxPrice q) = false ->
  let result := dashboard castStringOperators RegExp_valid RegExp_matches u q w in
  result.1 = Normal (redirect "/") /\
  flashes result.2 = flashes w ++ [("error_msg", "Error loading dashboard")] /\
  console result.2 = console w ++ ["Dashboard error:"] /\
  calls result.2 = calls w /\ store result.2 = store w.
Proof.
  intros Hbad result. subst result. rewrite dashboard_eq.
  assert (query_fails castStringOperators RegExp_valid q = true) as ->; [| done].
  unfold query_fails. destruct Hbad as [-> | ->]; cbn; by rewrite ?orb_true_r.
Qed.

(** The dashboard never writes and lets no exception out: whatever the
    request, the four collections and the outbox are as they were, and
    the answer is the rendered page, with no message left, or the
    redirect to the home page with the one message of the [catch]. *)
Theorem dashboard_read_only (u : ObjectId) (q : Query) (w : World) :
  let result := dashboard castStringOperators RegExp_valid RegExp_matches u q w in
  store result.2 = store w /\ outbox result.2 = outbox w /\
  ((exists listing,
      result.1 = Normal (render_dashboard "client/dashboard" "Client Dashboard" listing
                           (session_document u w) q) /\
      flashes result.2 = flashes w) \/
   (result.1 = Normal (redirect "/") /\
    flashes result.2 = flashes w ++ [("error_msg", "Error loading dashboard")])).
Proof.
  cbn zeta. rewrite dashboard_eq.
  destruct (query_fails castStringOperators RegExp_valid q).
  - split; [done |]. split; [done |]. by right.
  - split; [done |]. split; [done |]. left. eauto.
Qed.

(** *** POST /contact-agent, as a whole *)

Lemma filter_triple_nil {A} (triple : A -> ObjectId * ObjectId * ObjectId) (l : list A)
    (t : ObjectId * ObjectId * ObjectId) :
  t ∉ map triple l -> filter (fun r => triple r = t) l = [].
Proof.
  induction l as [| r l IH]; [done |]. cbn [map]. rewrite not_elem_of_cons.
  intros [Hne Hl]. rewrite filter_cons_False by done. by apply IH.
Qed.

(** A contact request made twice. The first request, for a triple not on
    record and entities that exist, succeeds; the same request again,
    whatever the surroundings then, is answered DuplicateRequest (400),
    writes nothing and sends no mail, and the collection holds one
    contact request for the triple, the one of the first request. *)
Theorem createRequest_twice env env' (u a p : ObjectId) agentId propertyId (w : World) :
  ToBoolean agentId = true -> ToBoolean propertyId = true ->
  castObjectId agentId = Some a -> castObjectId propertyId = Some p ->
  ~ requested w u a p ->
  is_Some (users w !! u) -> is_Some (users w !! a) -> is_Some (properties w !! p) ->
  let first := createRequest castObjectId castOperators env u agentId propertyId w in
  let second := createRequest castObjectId castOperators env' u agentId propertyId first.2 in
  first.1 = Normal Success /\ second.1 = Normal DuplicateRequest /\
  store second.2 = store first.2 /\ outbox second.2 = outbox first.2 /\
  filter (fun r => request_triple r = (u, a, p)) (contactRequests second.2) =
    [new_ContactRequest u a p (now env)].
Proof.
  intros Ha Hp Hca Hcp Hr [client Hu] [agent Hag] [property Hpr] first second.
  assert (first.1 = Normal Success /\
          contactRequests first.2 = contactRequests w ++ [new_ContactRequest u a p (now env)])
    as [Hfirst Hreq].
  { subst first.
    by rewrite (createRequest_success _ _ a p _ _ _ client agent property). }
  assert (requested first.2 u a p) as Hdup.
  { unfold requested. rewrite Hreq, map_app. apply elem_of_app. right.
    apply list_elem_of_here. }
  subst second. rewrite (createRequest_duplicate env' u a p) by done.
  split; [done |]. split; [done |]. split; [done |]. split; [done |].
  project. rewrite Hreq, filter_app, (filter_triple_nil request_triple) by done.
  by rewrite filter_cons_True.
Qed.

(** What a contact request can do, whatever it carries. The answer is
    one of the five JSON answers and no exception gets out; no flash
    message is left; unless the answer is the success, the collections
    and the outbox are as they were; and the mail that reaches the outbox
    comes from the configured sender and goes to operator addresses only,
    each at most once and in their order. *)
Theorem createRequest_effects env (u : ObjectId) agentId propertyId (w : World) :
  let result := createRequest castObjectId castOperators env u agentId propertyId w in
  (exists r, result.1 = Normal r /\ r ∈ request_answers) /\
  flashes result.2 = flashes w /\
  (result.1 <> Normal Success -> store result.2 = store w /\ outbox result.2 = outbox w) /\
  exists sent, outbox result.2 = outbox w ++ sent /\
    Forall (fun m => mail_from m = sender env) sent /\
    map mail_to sent `sublist_of` adminEmails.
Proof.
  assert (forall l : list Mail, l = l ++ []) as Hnil by (intros; by rewrite app_nil_r).
  unfold request_answers.
  destruct (createRequest_cases env u agentId propertyId w)
    as [-> | [-> | (a & p & Ha & Hp & Hca & Hcp &
         [[Hr ->] | (Hr & [-> | (client & agent & property & Hu & Hag & Hpr & ->)])])]];
    cbn zeta; project.
  1-4: split; [eexists; split; [done | member] |]; split; [done |]; split; [done |];
       exists []; split; [apply Hnil |]; split; [constructor | apply sublist_nil_l].
  split; [eexists; split; [done | member] |]. split; [done |]. split; [done |].
  eexists. split; [done |]. split.
  - apply Forall_forall. intros m Hm. apply list_elem_of_In, filter_In in Hm as [Hm _].
    apply list_elem_of_In, list_elem_of_fmap in Hm as (to & -> & _). done.
  - unfold adminEmails. cbn [map List.filter].
    repeat match goal with |- context [accepted env ?m] => destruct (accepted env m) end;
      cbn [map notification mail_to]; repeat constructor.
Qed.

(** *** POST /rate/:agentId, as a whole *)

(** For a rating that arrives as a number the check is exact: such a
    submission is turned away with InvalidRating, nothing stored and no
    call made, exactly when the number does not lie between 1 and 5. *)
Theorem submitRating_number_check (u : ObjectId) agentId (x : number) comment propertyId
    (w : World) :
  let result :=
    submitRating castObjectId castOperators ratingValidator u agentId (Num x) comment propertyId w in
  (leb (of_Z 1) x = true /\ leb x (of_Z 5) = true ->
     flashes result.2 <> flashes w ++ [InvalidRating_flash]) /\
  (~ (leb (of_Z 1) x = true /\ leb x (of_Z 5) = true) ->
     result = (Normal (redirect ("/client/rate/" +:+ agentId)),
               set_flashes (fun l => l ++ [InvalidRating_flash]) w)).
Proof.
  cbn zeta. split.
  - intros [H1 H5]. apply submitRating_not_invalid. by apply rejected_between.
  - intros Hout. apply submitRating_invalid.
    destruct (rejected (Num x)) eqn:Hrej; [done |]. destruct Hout.
    unfold rejected, lt, gt, ToBoolean, ToNumber in Hrej.
    apply orb_false_elim in Hrej as [Hrej H5]. apply orb_false_elim in Hrej as [Ht H1].
    apply negb_false_iff, negb_true_iff, orb_false_elim in Ht as [_ Hnan].
    by apply NumberFacts.between_leb.
Qed.

(** Every submission ends in exactly one flash message, one of the four
    of the route, and a redirect: to the rating page of the agent for
    InvalidRating, to the dashboard otherwise. The console gets its line
    exactly with the message of the [catch]. No exception gets out. *)
Theorem submitRating_one_flash (u : ObjectId) agentId rating comment propertyId (w : World) :
  let result :=
    submitRating castObjectId castOperators ratingValidator u agentId rating comment propertyId w in
  exists f, f ∈ rating_flashes /\
    flashes result.2 = flashes w ++ [f] /\
    result.1 = Normal (redirect (if decide (f = InvalidRating_flash)
                                 then "/client/rate/" +:+ agentId
                                 else "/client/dashboard")) /\
    console result.2 = (if decide (f = Unexpected_flash)
                        then console w ++ ["Submit rating error:"]
                        else console w).
Proof.
  cbn zeta. rewrite submitRating_eq. unfold rating_flashes.
  destruct (convertible rating); cbn [negb];
    [| exists Unexpected_flash; split; [member | done]].
  destruct (rejected rating) eqn:Hrej.
  { exists InvalidRating_flash. split; [member |]. done. }
  destruct (castObjectId (Str agentId)) as [a |];
    [| exists Unexpected_flash; split; [member | done]].
  destruct (query_reference castObjectId castOperators propertyId) as [[[p |] | pred] |];
    [| exists Unexpected_flash; split; [member | done]
     | destruct (decide _); [exists DuplicateRating_flash | exists Unexpected_flash];
       (split; [member | done])
     | exists Unexpected_flash; split; [member | done]].
  cbn zeta. destruct (decide (rated w u a p)) as [Hr | Hr].
  { exists DuplicateRating_flash. split; [member | done]. }
  destruct (ratingValidator _); [| exists Unexpected_flash; split; [member | done]].
  destruct (users w !! a);
    [exists Success_flash | exists Unexpected_flash]; (split; [member | done]).
Qed.

(** What a submission leaves alone, whatever it carries: the properties,
    the contact requests and the outbox; every user other than the one
    the route names; and of every user the name, the e-mail address, the
    phone, the role and the unlocked agents. No user is added or
    removed. *)
Theorem submitRating_frame (u : ObjectId) agentId rating comment propertyId (w : World) :
  let result :=
    submitRating castObjectId castOperators ratingValidator u agentId rating comment propertyId w in
  properties result.2 = properties w /\ contactRequests result.2 = contactRequests w /\
  outbox result.2 = outbox w /\
  (forall i, castObjectId (Str agentId) <> Some i -> users result.2 !! i = users w !! i) /\
  (forall i, identity <$> users result.2 !! i = identity <$> users w !! i).
Proof.
  cbn zeta. rewrite submitRating_eq.
  destruct (convertible rating); cbn [negb]; [| done].
  destruct (rejected rating); [done |].
  destruct (castObjectId (Str agentId)) as [a |]; [| done].
  destruct (query_reference castObjectId castOperators propertyId) as [[[p |] | pred] |];
    [| done | by destruct (decide _) | done].
  cbn zeta. destruct (decide (rated w u a p)) as [Hr | Hr]; [done |].
  destruct (ratingValidator _); [| done].
  destruct (users w !! a) as [agent |] eqn:Hag; [| done]. project.
  split; [done |]. split; [done |]. split; [done |]. split.
  - intros i Hi. apply lookup_insert_ne. congruence.
  - intros i. destruct (decide (a = i)) as [<- | Hne].
    + by rewrite lookup_insert_eq, Hag.
    + by rewrite lookup_insert_ne.
Qed.



(** *** The four routes, one request after the other *)

Lemma dashboard_store (u : ObjectId) (q : Query) (w : World) :
  store (dashboard castStringOperators RegExp_valid RegExp_matches u q w).2 = store w.
Proof.
  rewrite dashboard_eq. by destruct (query_fails castStringOperators RegExp_valid q).
Qed.

Lemma rateAgentPage_store (u : ObjectId) (agentId : string) (w : World) :
  store (rateAgentPage castObjectId castOperators u agentId w).2 = store w.
Proof.
  rewrite rateAgentPage_eq.
  destruct (castObjectId (Str agentId)) as [a |]; [| done]. cbn zeta.
  destruct (users w !! a) as [agent |]; [| done].
  destruct (String.eqb (role agent) "agent"); [| done]. cbn [negb].
  destruct (users w !! u) as [client |]; [| done].
  by destruct (bool_decide (a ∈ unlockedAgents client)).
Qed.

(** What a submission does to the ratings and the users: nothing; or one
    rating more for the agent, who is not on record; or one rating more
    and the aggregate over all of the agent's ratings written back. *)
Lemma submitRating_users (u : ObjectId) agentId rating comment propertyId (w : World) :
  let w' := (submitRating castObjectId castOperators ratingValidator u agentId rating comment propertyId w).2 in
  (ratings w' = ratings w /\ users w' = users w) \/
  exists a r, rating_agent r = a /\ ratings w' = ratings w ++ [r] /\
    (users w !! a = None /\ users w' = users w \/
     exists agent, users w !! a = Some agent /\
       users w' = <[a := with_aggregate agent (ratings_of a (ratings w ++ [r]))]> (users w)).
Proof.
  cbn zeta. rewrite submitRating_eq.
  destruct (convertible rating); cbn [negb]; [| by left].
  destruct (rejected rating); [by left |].
  destruct (castObjectId (Str agentId)) as [a |]; [| by left].
  destruct (query_reference castObjectId castOperators propertyId) as [[[p |] | pred] |];
    [| by left | destruct (decide _); by left | by left].
  cbn zeta. destruct (decide (rated w u a p)) as [Hr | Hr]; [by left |].
  destruct (ratingValidator _); [| by left].
  destruct (users w !! a) as [agent |] eqn:Hag; right;
    exists a, {| rating_client := u; rating_agent := a; rating_property := p;
                 rating_rating := parseInt rating; rating_comment := comment |}; project;
    (split; [done |]); (split; [done |]); [right | left]; eauto.
Qed.

Lemma router_store (r : Request) (w : World) :
  let w' := (router castObjectId castOperators castStringOperators RegExp_valid RegExp_matches ratingValidator r w).2 in
  properties w' = properties w /\
  contactRequests w `prefix_of` contactRequests w' /\
  ratings w `prefix_of` ratings w' /\
  (forall i, identity <$> users w' !! i = identity <$> users w !! i).
Proof.
  destruct r as [u q | env u agentId propertyId | u agentId
                 | u agentId rating comment propertyId]; cbn [router]; cbn zeta.
  - pose proof (dashboard_store u q w) as [= -> -> -> ->]. done.
  - destruct (createRequest_collections env u agentId propertyId w)
      as (-> & -> & -> & [-> | (A & P & a & p & _ & _ & _ & _ & _ & _ & _ & ->)]);
      repeat split; try done.
    by apply prefix_app_r.
  - pose proof (rateAgentPage_store u agentId w) as [= -> -> -> ->]. done.
  - destruct (submitRating_collections u agentId rating comment propertyId w)
      as (-> & -> & _).
    split; [done |]. split; [done |].
    destruct (submitRating_users u agentId rating comment propertyId w)
      as [[-> ->] | (a & r & _ & -> & [[_ ->] | (agent & Hag & ->)])];
      (split; [first [done | by apply prefix_app_r] |]); try done.
    intros i. destruct (decide (a = i)) as [<- | Hne].
    + by rewrite lookup_insert_eq, Hag.
    + by rewrite lookup_insert_ne.
Qed.

(** Through every sequence of requests to the four routes, the stored
    documents are only added to: the properties stay as they are, the
    contact requests and the ratings of before are still there, unchanged
    and in their order, with the new ones after them, and the users are
    the same, each with the same name, e-mail address, phone, role and
    unlocked agents. Nothing is updated but an aggregate, and nothing is
    deleted. *)
Theorem serve_append_only (rs : list Request) (w : World) :
  let w' := serve castObjectId castOperators castStringOperators RegExp_valid RegExp_matches ratingValidator rs w in
  properties w' = properties w /\
  contactRequests w `prefix_of` contactRequests w' /\
  ratings w `prefix_of` ratings w' /\
  (forall i, identity <$> users w' !! i = identity <$> users w !! i).
Proof.
  cbn zeta. revert w. induction rs as [| r rs IH]; intros w; [done |].
  cbn [serve fold_left].
  destruct (router_store r w) as (Hp & Hc & Hr & Hu).
  destruct (IH (router castObjectId castOperators castStringOperators RegExp_valid RegExp_matches ratingValidator r w).2) as (Hp' & Hc' & Hr' & Hu').
  unfold serve in *. split; [congruence |].
  split; [by etrans |]. split; [by etrans |].
  intros i. by rewrite Hu', Hu.
Qed.

Lemma router_new_documents (r : Request) (w : World) :
  let w' := (router castObjectId castOperators castStringOperators RegExp_valid RegExp_matches ratingValidator r w).2 in
  (exists added, contactRequests w' = contactRequests w ++ added /\
     Forall (fun c => request_status c = pending /\ request_notes c = "" /\
                      request_updatedAt c = request_createdAt c) added) /\
  (exists added, ratings w' = ratings w ++ added /\
     Forall (fun x => ratingValidator (rating_rating x) = true) added).
Proof.
  assert (forall A (l : list A), l = l ++ []) as Hnil by (intros; by rewrite app_nil_r).
  destruct r as [u q | env u agentId propertyId | u agentId
                 | u agentId rating comment propertyId]; cbn [router]; cbn zeta.
  - pose proof (dashboard_store u q w) as [= _ _ -> ->].
    split; exists []; (split; [apply Hnil | constructor]).
  - destruct (createRequest_collections env u agentId propertyId w)
      as (_ & _ & -> & [-> | (A & P & a & p & _ & _ & _ & _ & _ & _ & _ & ->)]);
      (split; [| exists []; split; [apply Hnil | constructor]]).
    + exists []. split; [apply Hnil | constructor].
    + eexists. split; [done |]. by repeat constructor.
  - pose proof (rateAgentPage_store u agentId w) as [= _ _ -> ->].
    split; exists []; (split; [apply Hnil | constructor]).
  - destruct (submitRating_collections u agentId rating comment propertyId w)
      as (_ & -> & [[-> _] | (a & p & _ & _ & _ & _ & Hv & ->)]);
      (split; [exists []; split; [apply Hnil | constructor] |]).
    + exists []. split; [apply Hnil | constructor].
    + eexists. split; [done |]. by repeat constructor.
Qed.

(** What the four routes add to the collections. Through every sequence
    of requests, the contact requests added are all [pending], with empty
    notes and never updated since they were created, and the ratings
    added all carry a rating the schema accepted; the documents of before
    come first, as they were. No route moves a contact request to
    [contacted] or [closed]. *)
Theorem serve_new_documents (rs : list Request) (w : World) :
  let w' := serve castObjectId castOperators castStringOperators RegExp_valid RegExp_matches ratingValidator rs w in
  (exists added, contactRequests w' = contactRequests w ++ added /\
     Forall (fun c => request_status c = pending /\ request_notes c = "" /\
                      request_updatedAt c = request_createdAt c) added) /\
  (exists added, ratings w' = ratings w ++ added /\
     Forall (fun x => ratingValidator (rating_rating x) = true) added).
Proof.
  cbn zeta. revert w. induction rs as [| r rs IH]; intros w.
  - split; exists []; (split; [by rewrite app_nil_r | constructor]).
  - cbn [serve fold_left].
    destruct (router_new_documents r w) as [(c1 & Hc1 & Hf1) (r1 & Hr1 & Hg1)].
    destruct (IH (router castObjectId castOperators castStringOperators RegExp_valid RegExp_matches ratingValidator r w).2)
      as [(c2 & Hc2 & Hf2) (r2 & Hr2 & Hg2)].
    unfold serve in *. split.
    + exists (c1 ++ c2). rewrite Hc2, Hc1, <- app_assoc. split; [done |].
      by apply Forall_app.
    + exists (r1 ++ r2). rewrite Hr2, Hr1, <- app_assoc. split; [done |].
      by apply Forall_app.
Qed.

Lemma ratings_of_other (a i : ObjectId) (r : Rating) (l : list Rating) :
  rating_agent r = a -> a <> i -> ratings_of i (l ++ [r]) = ratings_of i l.
Proof.
  intros Hr Hne. unfold ratings_of. rewrite filter_app, filter_cons_False, filter_nil.
  - apply app_nil_r.
  - intros [= Heq]. congruence.
Qed.

Lemma router_aggregate_consistent (r : Request) (w : World) :
  aggregate_consistent w ->
  aggregate_consistent (router castObjectId castOperators castStringOperators RegExp_valid RegExp_matches ratingValidator r w).2.
Proof.
  intros Hw.
  destruct r as [u q | env u agentId propertyId | u agentId
                 | u agentId rating comment propertyId]; cbn [router].
  - pose proof (dashboard_store u q w) as [= Hu _ _ Hr].
    unfold aggregate_consistent. by rewrite Hu, Hr.
  - destruct (createRequest_collections env u agentId propertyId w) as (Hu & _ & Hr & _).
    unfold aggregate_consistent. by rewrite Hu, Hr.
  - pose proof (rateAgentPage_store u agentId w) as [= Hu _ _ Hr].
    unfold aggregate_consistent. by rewrite Hu, Hr.
  - destruct (submitRating_users u agentId rating comment propertyId w)
      as [[Hr Hu] | (a & r & Ha & Hr & [[Hnone Hu] | (agent & Hag & Hu)])];
      unfold aggregate_consistent; rewrite Hu, Hr; [done | |].
    + intros i x Hi. destruct (decide (a = i)) as [<- | Hne]; [congruence |].
      rewrite (ratings_of_other a i) by done. by apply Hw.
    + intros i x Hi. destruct (decide (a = i)) as [<- | Hne].
      * rewrite lookup_insert_eq in Hi. injection Hi as <-. done.
      * rewrite lookup_insert_ne in Hi by done.
        rewrite (ratings_of_other a i) by done. by apply Hw.
Qed.

(** The aggregate on the user documents is kept right. If every rated
    user on record carries, as [rating] and [totalRatings], the mean and
    the number of the ratings stored for them, then so it is after every
    sequence of requests to the four routes, each served to its end
    before the next. *)
Theorem serve_aggregate_consistent (rs : list Request) (w : World) :
  aggregate_consistent w ->
  aggregate_consistent (serve castObjectId castOperators castStringOperators RegExp_valid RegExp_matches ratingValidator rs w).
Proof.
  revert w. induction rs as [| r rs IH]; intros w Hw; [done |].
  cbn [serve fold_left]. apply IH. by apply router_aggregate_consistent.
Qed.

(** The mean of a single rating from 1 to 5 is that rating. *)
Lemma avgRating_single (r : @Rating ObjectId) (k : Z) :
  1 <= k <= 5 -> rating_rating r = of_Z k -> avgRating [r] = of_Z k.
Proof.
  intros Hk Hr. unfold avgRating, totalRating. cbn [fold_left length]. rewrite Hr.
  assert (k = 1 \/ k = 2 \/ k = 3 \/ k = 4 \/ k = 5) as Hcases by lia.
  destruct Hcases as [-> | [-> | [-> | [-> | ->]]]]; by vm_compute.
Qed.


(** An identifier that is not well formed, for the agent or for the
    property, fails a submission whose rating passes the check: the
    duplicate query throws on the cast before it is sent, so no call is
    made and nothing is stored, and the answer is the message of the
    [catch] with one line on the console. A property value that is not
    well formed is a primitive value that stands for no identifier, or
    an object or an array that spells no query operators either. *)
Theorem submitRating_malformed_id (u : ObjectId) agentId rating comment propertyId
    (w : World) :
  rejected rating = false ->
  castObjectId (Str agentId) = None \/
    (ToBoolean propertyId = true /\ castObjectId propertyId = None /\
     (primitive propertyId = true \/ castOperators propertyId = None)) ->
  let result :=
    submitRating castObjectId castOperators ratingValidator u agentId rating comment propertyId w in
  result.1 = Normal (redirect "/client/dashboard") /\
  flashes result.2 = flashes w ++ [Unexpected_flash] /\
  console result.2 = console w ++ ["Submit rating error:"] /\
  calls result.2 = calls w /\ store result.2 = store w.
Proof.
  intros Hrej Hbad result. subst result. rewrite submitRating_cast_error; [done | done |].
  destruct Hbad as [Ha | (Ht & Hp & [Hprim | Hop])]; [by left | right ..].
  - by apply query_reference_primitive.
  - destruct (primitive propertyId) eqn:Hprim; [by apply query_reference_primitive |].
    by rewrite query_reference_operators, Hop.
Qed.

(** *** Contact requests and ratings side by side *)

Lemma notification_identity env (client client' agent agent' : @User ObjectId)
    (property : @Property ObjectId) (to : string) :
  identity client = identity client' -> identity agent = identity agent' ->
  notification env client agent property to = notification env client' agent' property to.
Proof.
  unfold identity, notification, emailContent. intros [= -> -> -> _ _] [= -> -> _ _ _]. done.
Qed.

Lemma identity_lookup (m m' : gmap ObjectId (@User ObjectId)) (i : ObjectId) :
  identity <$> m !! i = identity <$> m' !! i ->
  match m !! i with
  | Some x => exists x', m' !! i = Some x' /\ identity x = identity x'
  | None => m' !! i = None
  end.
Proof.
  destruct (m !! i) as [x |], (m' !! i) as [x' |]; cbn; intros Heq;
    try discriminate; [| done].
  exists x'. split; [done | congruence].
Qed.

(** The keys of a map come in an order that its values do not change. *)
Lemma find_key_fmap {A B} (p : ObjectId -> bool) (g : A -> B) (l : list (ObjectId * A)) :
  find (fun ix => p ix.1) (prod_map id g <$> l) = prod_map id g <$> find (fun ix => p ix.1) l.
Proof.
  induction l as [| [i x] l IH]; [done |]. cbn. by destruct (p i).
Qed.

Lemma find_key_same_keys {A B} (p : ObjectId -> bool) (m : gmap ObjectId A)
    (m' : gmap ObjectId B) :
  (forall i, is_Some (m !! i) <-> is_Some (m' !! i)) ->
  fst <$> find (fun ix => p ix.1) (map_to_list m) =
  fst <$> find (fun ix => p ix.1) (map_to_list m').
Proof.
  intros Hdom.
  assert ((fun _ => tt) <$> m = (fun _ => tt) <$> m') as Hunit.
  { apply map_eq. intros i. rewrite !lookup_fmap.
    destruct (Hdom i) as [H1 H2].
    destruct (m !! i) as [x |], (m' !! i) as [x' |]; try done.
    - by destruct H1.
    - by destruct H2. }
  apply (f_equal (fun m0 => fst <$> find (fun ix => p ix.1) (map_to_list m0))) in Hunit.
  rewrite !map_to_list_fmap, !find_key_fmap in Hunit.
  destruct (find _ (map_to_list m)) as [[i x] |], (find _ (map_to_list m')) as [[i' x'] |];
    cbn in *; congruence.
Qed.

(** A lookup by a condition finds the same user in two stores that agree
    on who the users are. *)
Lemma first_by_id_agree (c : Condition) (m m' : gmap ObjectId (@User ObjectId)) :
  (forall i, identity <$> m !! i = identity <$> m' !! i) ->
  match first_by_id c m with
  | Some d => exists d', first_by_id c m' = Some d' /\ _id d = _id d' /\
                identity (fields d) = identity (fields d')
  | None => first_by_id c m' = None
  end.
Proof.
  intros Hid. destruct c as [[i |] | p]; cbn.
  - pose proof (identity_lookup _ _ i (Hid i)) as Hi.
    destruct (m !! i) as [x |]; [| by rewrite Hi].
    destruct Hi as (x' & -> & ?). eauto.
  - done.
  - assert (forall j, is_Some (m !! j) <-> is_Some (m' !! j)) as Hdom.
    { intros j. specialize (Hid j).
      destruct (m !! j), (m' !! j); cbn in Hid; try done; split; intros [? ?]; done. }
    pose proof (find_key_same_keys p m m' Hdom) as Hkey.
    destruct (find _ (map_to_list m)) as [[i x] |] eqn:Hf,
             (find _ (map_to_list m')) as [[i' x'] |] eqn:Hf'; cbn in Hkey;
      try done.
    injection Hkey as <-.
    apply find_some in Hf as [Hin _], Hf' as [Hin' _].
    apply list_elem_of_In, elem_of_map_to_list in Hin, Hin'.
    pose proof (Hid i) as Hi. rewrite Hin, Hin' in Hi. cbn in Hi.
    cbn. eexists. split; [done |]. split; [done |]. cbn. congruence.
Qed.

(** The answer to a contact request, the contact request stored and the
    mail that goes out are the same in two worlds that agree on the
    contact requests, on the properties, and on who the users are. *)
Lemma createRequest_reads env (u : ObjectId) agentId propertyId (w w' : World) :
  contactRequests w = contactRequests w' -> properties w = properties w' ->
  (forall i, identity <$> users w !! i = identity <$> users w' !! i) ->
  let result := createRequest castObjectId castOperators env u agentId propertyId w in
  let result' := createRequest castObjectId castOperators env u agentId propertyId w' in
  result.1 = result'.1 /\ contactRequests result.2 = contactRequests result'.2 /\
  exists sent, outbox result.2 = outbox w ++ sent /\ outbox result'.2 = outbox w' ++ sent.
Proof.
  intros Hc Hp Hu result result'. subst result result'.
  assert (forall l : list Mail, l = l ++ []) as Hnil by (intros; by rewrite app_nil_r).
  rewrite !createRequest_eq.
  destruct (negb (ToBoolean agentId) || negb (ToBoolean propertyId));
    [project; split; [done |]; split; [done |]; exists []; split; apply Hnil |].
  destruct (query_reference castObjectId castOperators agentId) as [a |];
    [| project; split; [done |]; split; [done |]; exists []; split; apply Hnil].
  destruct (query_reference castObjectId castOperators propertyId) as [p |];
    [| project; split; [done |]; split; [done |]; exists []; split; apply Hnil].
  assert (on_record w u a p <-> on_record w' u a p) as Hreq
    by (unfold on_record; by rewrite Hc).
  destruct (decide (on_record w u a p)) as [Hr | Hr],
           (decide (on_record w' u a p)) as [Hr' | Hr']; [| tauto | tauto |];
    [project; split; [done |]; split; [done |]; exists []; split; apply Hnil |].
  pose proof (identity_lookup _ _ u (Hu u)) as Hiu.
  pose proof (first_by_id_agree a _ _ Hu) as Hia.
  rewrite <- Hp.
  destruct (users w !! u) as [client |].
  - destruct Hiu as (client' & -> & Hic).
    destruct (first_by_id a (users w)) as [agent |].
    + destruct Hia as (agent' & -> & Hid & Hia).
      destruct (first_by_id p (properties w)) as [property |];
        [| project; split; [done |]; split; [done |]; exists []; split; apply Hnil].
      cbn zeta. project. rewrite Hid, Hc. split; [done |]. split; [done |].
      eexists. split; [done |].
      f_equal. f_equal. apply map_ext. intros to. symmetry. by apply notification_identity.
    + rewrite Hia. project. split; [done |]. split; [done |]. exists []. split; apply Hnil.
  - rewrite Hiu. project. split; [done |]. split; [done |]. exists []. split; apply Hnil.
Qed.

(** The outcome of a submission is the same in two worlds that agree on
    the ratings and on the users. *)
Lemma submitRating_reads (u : ObjectId) agentId rating comment propertyId (w w' : World) :
  ratings w = ratings w' -> users w = users w' ->
  let result :=
    submitRating castObjectId castOperators ratingValidator u agentId rating comment propertyId w in
  let result' :=
    submitRating castObjectId castOperators ratingValidator u agentId rating comment propertyId w' in
  result.1 = result'.1 /\ ratings result.2 = ratings result'.2 /\
  users result.2 = users result'.2.
Proof.
  intros Hr Hu. cbn zeta. rewrite !submitRating_eq.
  destruct (convertible rating); cbn [negb]; [| done].
  destruct (rejected rating); [done |].
  destruct (castObjectId (Str agentId)) as [a |]; [| done].
  destruct (query_reference castObjectId castOperators propertyId) as [[[p |] | pred] |];
    [| done | | done]; cbn zeta.
  2: { assert (rated_meeting w u (Some a) (meets pred) <->
               rated_meeting w' u (Some a) (meets pred)) as Hrated
         by (unfold rated_meeting; by rewrite Hr).
       destruct (decide (rated_meeting w u (Some a) (meets pred))),
                (decide (rated_meeting w' u (Some a) (meets pred))); done || tauto. }
  assert (rated w u a p <-> rated w' u a p) as Hrated by (unfold rated; by rewrite Hr).
  destruct (decide (rated w u a p)) as [Hin | Hin],
           (decide (rated w' u a p)) as [Hin' | Hin']; [done | tauto | tauto |].
  destruct (ratingValidator _); [| done].
  rewrite <- Hu. destruct (users w !! a) as [agent |]; project; by rewrite <- ?Hr, <- ?Hu.
Qed.

(** Contact requests and ratings do not touch each other. A contact
    request and a rating submission, from whatever clients and for
    whatever triples, can be served in either order: each gets the same
    answer, and the four collections end up the same. *)
Theorem contact_and_rating_commute env (u u' : ObjectId) agentId propertyId agentId'
    rating comment propertyId' (w : World) :
  let contact := createRequest castObjectId castOperators env u agentId propertyId in
  let rate :=
    submitRating castObjectId castOperators ratingValidator u' agentId' rating comment propertyId' in
  (contact (rate w).2).1 = (contact w).1 /\
  (rate (contact w).2).1 = (rate w).1 /\
  store (rate (contact w).2).2 = store (contact (rate w).2).2.
Proof.
  intros contact rate. subst contact rate. cbn beta.
  destruct (createRequest_collections env u agentId propertyId w) as (Hcu & Hcp & Hcr & _).
  destruct (router_store (POST_rate u' agentId' rating comment propertyId') w)
    as (Hrp & _ & _ & Hru).
  destruct (submitRating_collections u' agentId' rating comment propertyId' w)
    as (_ & Hrc & _).
  cbn [router] in Hrp, Hru.
  destruct (createRequest_reads env u agentId propertyId w _
              (eq_sym Hrc) (eq_sym Hrp) (fun i => eq_sym (Hru i)))
    as (Hanswer & Hstored & _).
  destruct (submitRating_reads u' agentId' rating comment propertyId' w _
              (eq_sym Hcr) (eq_sym Hcu))
    as (Hanswer' & Hratings & Husers).
  split; [done |]. split; [done |].
  set (wc := (createRequest castObjectId castOperators env u agentId propertyId w).2) in *.
  set (wr := (submitRating castObjectId castOperators ratingValidator u' agentId' rating comment
                propertyId' w).2) in *.
  destruct (createRequest_collections env u agentId propertyId wr) as (Hcu' & Hcp' & Hcr' & _).
  destruct (submitRating_collections u' agentId' rating comment propertyId' wc)
    as (Hrp' & Hrc' & _).
  unfold store. rewrite Hcu', Hcp', Hcr', Hrp', Hrc', <- Husers, <- Hratings, <- Hstored.
  by rewrite Hcp, Hrp.
Qed.

End Properties.

(** ** The claims on the concrete deployment *)

Section Deployment.

Import Fixture.

#[local] Abbreviation submit := (submitRating castObjectId castOperators ratingValidator).
#[local] Abbreviation create := (createRequest castObjectId castOperators).
#[local] Abbreviation page := (rateAgentPage castObjectId castOperators).
#[local] Abbreviation board := (dashboard castStringOperators RegExp_valid RegExp_matches).

Lemma validator_accepts k : 1 <= k <= 5 -> ratingValidator (of_Z k) = true.
Proof.
  intros Hk. assert (k = 1 \/ k = 2 \/ k = 3 \/ k = 4 \/ k = 5) as Hcases by lia.
  destruct Hcases as [-> | [-> | [-> | [-> | ->]]]]; reflexivity.
Defined.

Lemma world_unique : unique_triples world.
Proof. split; constructor. Defined.

(** C3: whenever a submission ends with its success message, the agent's
    document holds the sum of the stored ratings of the agent, the new
    one among them, divided by their number, and that number; and once
    three clients have rated the agent 5, 3 and 4 under three distinct
    triples, the agent's [rating] is 4.0 and [totalRatings] is 3. *)
Theorem submitRating_aggregate :
  (forall (ObjectId : Type) (EqDecision0 : EqDecision ObjectId) (H : Countable ObjectId)
          (castObjectId : value -> option ObjectId)
          (castOperators : value -> option (ObjectId -> bool))
          (ratingValidator : number -> bool)
          (u : ObjectId) agentId rating comment propertyId (w : World),
     let result :=
       submitRating castObjectId castOperators ratingValidator u agentId rating comment propertyId w in
     flashes result.2 = flashes w ++ [Success_flash] ->
     exists a r agent,
       castObjectId (Str agentId) = Some a /\
       ratings result.2 = ratings w ++ [r] /\ rating_agent r = a /\
       users result.2 !! a = Some agent /\
       let all := ratings_of a (ratings result.2) in
       r ∈ all /\
       user_rating agent =
         div (fold_left (fun sum r => add sum (rating_rating r)) all pos_zero)
             (of_nat (length all)) /\
       totalRatings agent = length all) /\
  (let w3 := run castObjectId castOperators ratingValidator three_ratings world in
   map rating_rating (ratings w3) = [of_Z 5; of_Z 3; of_Z 4] /\
   NoDup (map rating_triple (ratings w3)) /\
   map rating_agent (ratings w3) = [agent_id; agent_id; agent_id] /\
   exists agent,
     users w3 !! agent_id = Some agent /\
     user_rating agent = of_Z 4 /\ totalRatings agent = 3%nat).
Proof.
  split.
  - intros. by apply submitRating_aggregate_written.
  - cbn zeta. split; [by vm_compute |]. split.
    + apply (bool_decide_unpack _). by vm_compute.
    + split; [by vm_compute |]. eexists. split; [by vm_compute |]. by split.
Qed.

Lemma submitRating_aggregate_witness :
  let result := submit ada (hex agent_id) (Num (of_Z 5)) Undefined (Str (hex flat)) world in
  flashes result.2 = flashes world ++ [Success_flash] /\
  exists a r agent,
    castObjectId (Str (hex agent_id)) = Some a /\
    ratings result.2 = ratings world ++ [r] /\ rating_agent r = a /\
    users result.2 !! a = Some agent /\
    let all := ratings_of a (ratings result.2) in
    r ∈ all /\
    user_rating agent =
      div (fold_left (fun sum r => add sum (rating_rating r)) all pos_zero)
          (of_nat (length all)) /\
    totalRatings agent = length all.
Proof.
  assert (flashes (submit ada (hex agent_id) (Num (of_Z 5)) Undefined (Str (hex flat))
                     world).2 = flashes world ++ [Success_flash]) as Hs by by vm_compute.
  split; [exact Hs |].
  exact (proj1 submitRating_aggregate N _ _ castObjectId castOperators ratingValidator ada
           (hex agent_id) (Num (of_Z 5)) Undefined (Str (hex flat)) world Hs).
Defined.

Lemma unique_triples_invariant_witness :
  unique_triples world /\
  unique_triples (run castObjectId castOperators ratingValidator repeated world) /\
  length (contactRequests (run castObjectId castOperators ratingValidator repeated world)) = 1%nat /\
  length (ratings (run castObjectId castOperators ratingValidator repeated world)) = 1%nat.
Proof.
  split; [exact world_unique |]. split.
  - exact (proj1 (unique_triples_invariant castObjectId castOperators ratingValidator
                    repeated world world_unique)).
  - split; by vm_compute.
Defined.

(** C2 as stated fails on an identifier that is not well formed: both
    values are present, no contact request is on record and the agent
    value names no user, and the response is the unexpected failure
    (500), not NotFound (404). *)
Lemma createRequest_malformed_id :
  let result := create (env None) ada (Str "xyz") (Str (hex flat)) world in
  ToBoolean (Str "xyz") = true /\ ToBoolean (Str (hex flat)) = true /\
  contactRequests world = [] /\
  castObjectId (Str "xyz") = None /\
  result.1 = Normal Unexpected /\ result.1 <> Normal NotFound /\
  contactRequests result.2 = [].
Proof. cbn zeta. repeat split; try by vm_compute. Qed.

(** An agent given as a query operator is no identifier, yet the request
    is recorded: the lookup takes the first user that meets the operator,
    be it [{$ne: null}] or a list of identifiers, and that user is
    recorded as the agent, whatever their role. *)
Example createRequest_operator :
  let create' agentId := create (env None) ada agentId (Str (hex flat)) world in
  (create' (Obj [("$ne", Null)])).1 = Normal Success /\
  map request_triple (contactRequests (create' (Obj [("$ne", Null)])).2)
    = [(ada, agent_id, flat)] /\
  (create' (Arr [Str (hex bola); Str (hex chidi)])).1 = Normal Success /\
  map request_triple (contactRequests (create' (Arr [Str (hex bola); Str (hex chidi)])).2)
    = [(ada, bola, flat)].
Proof. cbn zeta beta. repeat split; by vm_compute. Qed.

Lemma world_not_requested u a p : ~ requested world u a p.
Proof. intros Hr. by apply elem_of_nil in Hr. Defined.

Lemma world_not_on_record u a p : ~ on_record world u a p.
Proof. intros Hr. inversion Hr. Defined.

Lemma world_not_rated u a p : ~ rated world u a p.
Proof. intros Hr. by apply elem_of_nil in Hr. Defined.

Lemma createRequest_contract_witness :
  let result := create (env None) ada (Str (hex agent_id)) (Str (hex flat)) world in
  query_reference castObjectId castOperators (Str (hex agent_id)) = Some (is_id (Some agent_id)) /\
  query_reference castObjectId castOperators (Str (hex flat)) = Some (is_id (Some flat)) /\
  result.1 = Normal Success /\
  contactRequests result.2 =
    [{| request_client := ada; request_agent := agent_id; request_property := flat;
        request_status := pending; request_notes := "";
        request_createdAt := now (env None); request_updatedAt := now (env None) |}].
Proof.
  cbn zeta. split; [reflexivity |]. split; [reflexivity |].
  destruct (createRequest_contract castObjectId castOperators (env None) ada
              (Str (hex agent_id)) (Str (hex flat)) world) as (_ & Hpresent & _).
  destruct (Hpresent eq_refl eq_refl) as [_ Hids].
  destruct (Hids (is_id (Some agent_id)) (is_id (Some flat)) eq_refl eq_refl) as [_ Hfresh].
  destruct (Hfresh (world_not_on_record _ _ _)) as [_ Hfound].
  destruct (Hfound (ex_intro _ _ eq_refl)
                   (ex_intro _ agent_id (conj (ex_intro _ _ eq_refl) eq_refl))
                   (ex_intro _ flat (conj (ex_intro _ _ eq_refl) eq_refl)))
    as (Hres & i & j & _ & Hi & _ & Hj & Hreq & _).
  apply bool_decide_eq_true in Hi, Hj. subst i j.
  split; [exact Hres | exact Hreq].
Defined.

Lemma createRequest_notification_witness :
  let result :=
    create (env (Some (fun _ => false))) ada (Str (hex agent_id)) (Str (hex flat)) world in
  result.1 = Normal Success /\
  length (contactRequests result.2) = 1%nat /\
  outbox result.2 = [] /\
  console result.2 = ["Email sending error:"; "Email sending error:"].
Proof.
  cbn zeta.
  destruct (proj1 (createRequest_notification_best_effort castObjectId castOperators
                     (env (Some (fun _ => false))) ada (Str (hex agent_id))
                     (Str (hex flat)) world)
              agent_id flat (client_user "Ada" []) agent_user
              (property_in "Lagos" (of_Z 5) 100)
              eq_refl eq_refl eq_refl eq_refl (world_not_requested _ _ _)
              eq_refl eq_refl eq_refl)
    as (Hres & Hreq & _ & Hout & Hcon).
  split; [exact Hres |]. rewrite Hreq, Hout, Hcon. by vm_compute.
Defined.

Example submitRating_3abc :
  let result := submit ada (hex agent_id) (Str "3abc") Undefined (Str (hex flat)) world in
  flashes result.2 = [Success_flash] /\
  map rating_rating (ratings result.2) = [of_Z 3] /\
  (user_rating <$> users result.2 !! agent_id) = Some (of_Z 3).
Proof. repeat split; by vm_compute. Qed.

Example submitRating_abc :
  let result := submit ada (hex agent_id) (Str "abc") Undefined (Str (hex flat)) world in
  flashes result.2 = [Unexpected_flash] /\ ratings result.2 = [] /\
  console result.2 = ["Submit rating error:"].
Proof. repeat split; by vm_compute. Qed.

Lemma submitRating_out_of_range_witness :
  let submit' rating := submit ada (hex agent_id) rating Undefined (Str (hex flat)) world in
  ToBoolean Null = false /\ ltb (ToNumber (Num (of_Z 0))) (of_Z 1) = true /\
  ltb (of_Z 5) (ToNumber (Str "6")) = true /\
  flashes (submit' Null).2 = [InvalidRating_flash] /\
  flashes (submit' (Num (of_Z 0))).2 = [InvalidRating_flash] /\
  flashes (submit' (Str "6")).2 = [InvalidRating_flash] /\
  store (submit' (Str "6")).2 = store world.
Proof.
  cbn zeta beta. repeat (split; [reflexivity |]).
  destruct (submitRating_out_of_range castObjectId castOperators ratingValidator ada
              (hex agent_id) Null Undefined (Str (hex flat)) world (or_introl eq_refl))
    as (_ & Hnull & _).
  destruct (submitRating_out_of_range castObjectId castOperators ratingValidator ada
              (hex agent_id) (Num (of_Z 0)) Undefined (Str (hex flat)) world
              (or_intror (or_introl eq_refl)))
    as (_ & Hzero & _).
  destruct (submitRating_out_of_range castObjectId castOperators ratingValidator ada
              (hex agent_id) (Str "6") Undefined (Str (hex flat)) world
              (or_intror (or_intror eq_refl)))
    as (_ & Hsix & Hstore & _).
  repeat split; assumption.
Defined.

(** C4 as stated fails when the further submission carries a rating
    value out of range: the triple is on record, and the submission
    fails with InvalidRating, not DuplicateRating. *)
Lemma submitRating_invalid_before_duplicate :
  let result := submit ada (hex agent_id) (Num (of_Z 0)) Undefined (Str (hex flat))
                  rated_world in
  rated rated_world ada agent_id flat /\
  castObjectId (Str (hex agent_id)) = Some agent_id /\
  reference castObjectId (Str (hex flat)) = Some flat /\
  flashes result.2 = [InvalidRating_flash] /\
  flashes result.2 <> [DuplicateRating_flash].
Proof.
  cbn zeta. split; [apply (bool_decide_unpack _); by vm_compute |].
  repeat split; by vm_compute.
Qed.

(** A rating that is an object with a field [toString] of its own
    cannot be compared: the answer is the unexpected failure, for a
    triple on record too, and no query is sent. *)
Example submitRating_object :
  let result := submit ada (hex agent_id) (Obj [("toString", Num (of_Z 3))]) Undefined
                  (Str (hex flat)) rated_world in
  convertible (Obj [("toString", Num (of_Z 3))]) = false /\
  flashes result.2 = [Unexpected_flash] /\ calls result.2 = [] /\
  ratings result.2 = ratings rated_world.
Proof. cbn zeta. repeat split; by vm_compute. Qed.

Lemma rated_world_rated : rated rated_world ada agent_id flat.
Proof. apply (bool_decide_unpack _). by vm_compute. Defined.

Lemma submitRating_duplicate_rejected_witness :
  let result := submit ada (hex agent_id) (Str "3") Undefined (Str (hex flat)) rated_world in
  rated rated_world ada agent_id flat /\
  rejected (Str "3") = false /\
  result.1 = Normal (redirect "/client/dashboard") /\
  flashes result.2 = flashes rated_world ++ [DuplicateRating_flash] /\
  ratings result.2 = ratings rated_world /\ users result.2 = users rated_world.
Proof.
  cbn zeta. split; [exact rated_world_rated |]. split; [reflexivity |].
  destruct (submitRating_duplicate_rejected castObjectId castOperators ratingValidator
              ada agent_id flat
              (hex agent_id) (Str "3") Undefined (Str (hex flat)) rated_world
              eq_refl eq_refl rated_world_rated)
    as (Hrat & Hus & Hdup & _).
  destruct (Hdup eq_refl) as [Hres Hfl]. by repeat split.
Defined.

Lemma ada_not_unlocked (client : @User N) :
  users world !! ada = Some client -> agent_id ∉ unlockedAgents client.
Proof. intros [= <-]. apply not_elem_of_nil. Defined.





(** C10 as stated fails on an identifier that is not well formed: [xyz]
    names no user, and the answer is not [Agent not found] but the
    message of the [catch]. *)
Lemma rateAgentPage_malformed_id :
  let result := page ada "xyz" world in
  castObjectId (Str "xyz") = None /\
  result.1 = Normal (redirect "/client/dashboard") /\
  flashes result.2 = [("error_msg", "Error loading rating page")] /\
  flashes result.2 <> [("error_msg", "Agent not found")] /\
  console result.2 = ["Rate agent error:"].
Proof. cbn zeta. repeat split; by vm_compute. Qed.

Lemma rateAgentPage_not_an_agent_witness :
  role (client_user "Bola" []) <> "agent" /\
  page ada (hex bola) world =
    (Normal (redirect "/client/dashboard"),
     set_flashes (fun l => l ++ [("error_msg", "Agent not found")])
       (set_calls (fun l => l ++ [User_findById_call (Some bola)]) world)) /\
  page ada "0000000000000000000000ff" world =
    (Normal (redirect "/client/dashboard"),
     set_flashes (fun l => l ++ [("error_msg", "Agent not found")])
       (set_calls (fun l => l ++ [User_findById_call (Some 255%N)]) world)) /\
  page ada "xyz" world =
    (Normal (redirect "/client/dashboard"),
     set_flashes (fun l => l ++ [("error_msg", "Error loading rating page")])
       (set_console (fun l => l ++ ["Rate agent error:"]) world)).
Proof.
  assert (role (client_user "Bola" []) <> "agent") as Hrole by discriminate.
  split; [exact Hrole |]. split; [| split].
  - apply (proj1 (rateAgentPage_not_an_agent castObjectId castOperators ada (hex bola)
                    world) bola eq_refl).
    right. exists (client_user "Bola" []). split; [reflexivity | exact Hrole].
  - apply (proj1 (rateAgentPage_not_an_agent castObjectId castOperators ada
                    "0000000000000000000000ff" world) 255%N eq_refl).
    left. reflexivity.
  - exact (proj2 (rateAgentPage_not_an_agent castObjectId castOperators ada "xyz" world)
             eq_refl).
Defined.

(** C8 as stated fails on a pattern and on a price that are not plain:
    the state parameter [.] lists the property in Lagos and the one in
    Abuja though neither name contains a dot, and the minimum price
    [1e3], a thousand, lists the flat priced 5, because [parseInt] reads
    it as 1. *)
Lemma dashboard_not_substring :
  map _id (listed (board ada (query (Some ".") None) world).1) = [duplex; flat] /\
  RegExp.substring_ci (bytes ".") (bytes "Lagos") = false /\
  RegExp.substring_ci (bytes ".") (bytes "Abuja") = false /\
  map _id (listed (board ada (query None (Some "1e3")) world).1) = [duplex; flat] /\
  properties world !! flat = Some (property_in "Lagos" (of_Z 5) 100) /\
  StringToNumber "1e3" = of_Z 1000 /\ ltb (of_Z 5) (of_Z 1000) = true /\
  parseInt_string "1e3" = of_Z 1.
Proof. repeat split; by vm_compute. Qed.

(** A [type] given as the query operator [{$ne: apartment}] is no exact
    match: it lists the properties of every other type; and a pattern
    that is no regular expression fails the query. *)
Example dashboard_operator :
  let q t := {| query_state := Undefined; query_area := Undefined;
                query_minPrice := Undefined; query_maxPrice := Undefined;
                query_type := t |} in
  map _id (listed (board ada (q (Str "apartment")) world).1) = [duplex; flat] /\
  map _id (listed (board ada (q (Obj [("$ne", Str "apartment")])) world).1) = [] /\
  map _id (listed (board ada (q (Obj [("$ne", Str "house")])) world).1) = [duplex; flat] /\
  (board ada (query (Some "(") None) world).1 = Normal (redirect "/") /\
  (board ada {| query_state := Obj [("toString", Str "x")]; query_area := Undefined;
                query_minPrice := Undefined; query_maxPrice := Undefined;
                query_type := Undefined |} world).1 = Normal (redirect "/").
Proof. cbn zeta beta. repeat split; by vm_compute. Qed.

Lemma dashboard_query_witness :
  let q := query (Some "lag") None in
  query_fails castStringOperators RegExp_valid q = false /\
  RegExp.plain_text "lag" = true /\
  map _id (listed (board ada q world).1) = [flat] /\
  (regexp_valid RegExp_valid "lag" = true /\
   regexp_test RegExp_matches "lag" "Lagos" =
     RegExp.substring_ci (bytes "lag") (bytes "Lagos")) /\
  exists listing,
    board ada q world =
      (Normal (render_dashboard "client/dashboard" "Client Dashboard" listing
                 (session_document ada world) q),
       set_calls (fun l => l ++ [Property_find_call; User_findById_call (Some ada)]) world) /\
    NoDup (map populated_property listing) /\
    StronglySorted newer_first (map populated_property listing) /\
    forall d, d ∈ map populated_property listing <->
              properties world !! _id d = Some (fields d) /\
              satisfies castStringOperators RegExp_matches q (fields d).
Proof.
  cbn zeta. split; [reflexivity |]. split; [reflexivity |]. split; [by vm_compute |].
  destruct (dashboard_query castStringOperators RegExp_valid RegExp_matches ada
              (query (Some "lag") None) world) as (_ & Hrender & _ & Hplain & _).
  split; [exact (Hplain "lag" "Lagos" eq_refl) | exact (Hrender eq_refl)].
Defined.

(** *** Beyond the claims *)

Lemma rateAgentPage_unlock_gate_witness :
  (exists listing,
     page ada (hex agent_id) unlocked_world =
       (Normal (render_rate_agent "client/rate-agent" "Rate Agent"
                  {| _id := agent_id; fields := agent_user |} listing),
        set_calls (fun l => l ++ [Property_find_call])
          (set_calls (fun l => l ++ [User_findById_call (Some agent_id);
                                     User_findById_call (Some ada)]) unlocked_world)) /\
     NoDup listing /\
     forall d, d ∈ listing <->
               properties unlocked_world !! _id d = Some (fields d) /\
               property_agent (fields d) = agent_id) /\
  page bola (hex agent_id) unlocked_world =
    (Normal (redirect "/client/dashboard"),
     set_flashes
       (fun l => l ++ [("error_msg", "You can only rate agents you have unlocked")])
       (set_calls (fun l => l ++ [User_findById_call (Some agent_id);
                                  User_findById_call (Some bola)]) unlocked_world)).
Proof.
  split.
  - apply (proj1 (rateAgentPage_unlock_gate castObjectId castOperators ada agent_id
                    (hex agent_id)
                    agent_user (client_user "Ada" [agent_id]) unlocked_world
                    eq_refl eq_refl eq_refl eq_refl)).
    apply list_elem_of_here.
  - apply (proj2 (rateAgentPage_unlock_gate castObjectId castOperators bola agent_id
                    (hex agent_id)
                    agent_user (client_user "Bola" []) unlocked_world
                    eq_refl eq_refl eq_refl eq_refl)).
    apply not_elem_of_nil.
Defined.

Lemma rateAgentPage_fails_witness :
  let result := page ada "xyz" world in
  castObjectId (Str "xyz") = None /\
  result.1 = Normal (redirect "/client/dashboard") /\
  flashes result.2 = flashes world ++ [("error_msg", "Error loading rating page")] /\
  console result.2 = console world ++ ["Rate agent error:"] /\
  store result.2 = store world.
Proof.
  split; [reflexivity |].
  exact (rateAgentPage_fails castObjectId castOperators ada "xyz" world
           (or_introl eq_refl)).
Defined.

Lemma dashboard_renders_witness :
  let q := {| query_state := Str "lag"; query_area := Str ""; query_minPrice := Str "3";
              query_maxPrice := Undefined; query_type := Str "apartment" |} in
  query_fails castStringOperators RegExp_valid q = false /\
  exists listing,
    board ada q world =
      (Normal (render_dashboard "client/dashboard" "Client Dashboard" listing
                 (session_document ada world) q),
       set_calls (fun l => l ++ [Property_find_call; User_findById_call (Some ada)]) world) /\
    Forall (fun p => populated_agent p =
                       (fun a => {| _id := property_agent (fields (populated_property p));
                                    fields := (fullName a, phone a) |}) <$>
                         users world !! property_agent (fields (populated_property p)))
           listing /\
    NoDup (map populated_property listing) /\
    StronglySorted newer_first (map populated_property listing) /\
    forall d, d ∈ map populated_property listing <->
              properties world !! _id d = Some (fields d) /\
              satisfies castStringOperators RegExp_matches q (fields d).
Proof.
  cbn zeta.
  destruct (dashboard_renders castStringOperators RegExp_valid RegExp_matches ada
              {| query_state := Str "lag"; query_area := Str ""; query_minPrice := Str "3";
                 query_maxPrice := Undefined; query_type := Str "apartment" |}
              world) as [Hplain Hrender].
  split; [exact (Hplain eq_refl eq_refl eq_refl eq_refl eq_refl) |].
  exact (Hrender (Hplain eq_refl eq_refl eq_refl eq_refl eq_refl)).
Defined.

Lemma dashboard_inverted_range_witness :
  let q := {| query_state := Undefined; query_area := Undefined;
              query_minPrice := Str "2000"; query_maxPrice := Str "5";
              query_type := Undefined |} in
  ltb (parseInt (Str "5")) (parseInt (Str "2000")) = true /\
  board ada q world =
    (Normal (render_dashboard "client/dashboard" "Client Dashboard" []
               (session_document ada world) q),
     set_calls (fun l => l ++ [Property_find_call; User_findById_call (Some ada)]) world).
Proof.
  split; [reflexivity |].
  exact (dashboard_inverted_range castStringOperators RegExp_valid RegExp_matches ada
           {| query_state := Undefined; query_area := Undefined;
              query_minPrice := Str "2000"; query_maxPrice := Str "5";
              query_type := Undefined |}
           (Str "2000") (Str "5") world eq_refl eq_refl eq_refl eq_refl).
Defined.

Lemma dashboard_bad_price_witness :
  let result := board ada (query (Some "lag") (Some "abc")) world in
  numeric_param (Str "abc") = false /\
  result.1 = Normal (redirect "/") /\
  flashes result.2 = flashes world ++ [("error_msg", "Error loading dashboard")] /\
  console result.2 = console world ++ ["Dashboard error:"] /\
  calls result.2 = calls world /\ store result.2 = store world.
Proof.
  split; [reflexivity |].
  exact (dashboard_bad_price castStringOperators RegExp_valid RegExp_matches ada
           (query (Some "lag") (Some "abc")) world (or_introl eq_refl)).
Defined.

Lemma createRequest_twice_witness :
  let first := create (env None) ada (Str (hex agent_id)) (Str (hex flat)) world in
  let second :=
    create (env (Some (fun _ => true))) ada (Str (hex agent_id)) (Str (hex flat)) first.2 in
  first.1 = Normal Success /\ second.1 = Normal DuplicateRequest /\
  store second.2 = store first.2 /\ outbox second.2 = outbox first.2 /\
  filter (fun r => request_triple r = (ada, agent_id, flat)) (contactRequests second.2) =
    [new_ContactRequest ada agent_id flat (now (env None))].
Proof.
  exact (createRequest_twice castObjectId castOperators (env None)
           (env (Some (fun _ => true)))
           ada agent_id flat (Str (hex agent_id)) (Str (hex flat)) world
           eq_refl eq_refl eq_refl eq_refl (world_not_requested _ _ _)
           (ex_intro _ _ eq_refl) (ex_intro _ _ eq_refl) (ex_intro _ _ eq_refl)).
Defined.

Lemma submitRating_number_check_witness :
  let submit' x := submit ada (hex agent_id) (Num x) Undefined (Str (hex flat)) world in
  flashes (submit' (of_decimal false 47 (-1))).2 <> flashes world ++ [InvalidRating_flash] /\
  submit' (of_decimal false 55 (-1)) =
    (Normal (redirect ("/client/rate/" +:+ hex agent_id)),
     set_flashes (fun l => l ++ [InvalidRating_flash]) world) /\
  submit' (of_decimal true 3 0) =
    (Normal (redirect ("/client/rate/" +:+ hex agent_id)),
     set_flashes (fun l => l ++ [InvalidRating_flash]) world).
Proof.
  cbn zeta beta. split; [| split].
  - apply (proj1 (submitRating_number_check castObjectId castOperators ratingValidator ada
                    (hex agent_id)
                    (of_decimal false 47 (-1)) Undefined (Str (hex flat)) world)).
    split; reflexivity.
  - apply (proj2 (submitRating_number_check castObjectId castOperators ratingValidator ada
                    (hex agent_id)
                    (of_decimal false 55 (-1)) Undefined (Str (hex flat)) world)).
    intros [_ H5]. discriminate H5.
  - apply (proj2 (submitRating_number_check castObjectId castOperators ratingValidator ada
                    (hex agent_id)
                    (of_decimal true 3 0) Undefined (Str (hex flat)) world)).
    intros [H1 _]. discriminate H1.
Defined.




Lemma submitRating_malformed_id_witness :
  let result := submit ada (hex agent_id) (Str "4") Undefined (Str "the-flat") world in
  castObjectId (Str "the-flat") = None /\
  result.1 = Normal (redirect "/client/dashboard") /\
  flashes result.2 = flashes world ++ [Unexpected_flash] /\
  console result.2 = console world ++ ["Submit rating error:"] /\
  calls result.2 = calls world /\ store result.2 = store world.
Proof.
  split; [reflexivity |].
  exact (submitRating_malformed_id castObjectId castOperators ratingValidator ada
           (hex agent_id)
           (Str "4") Undefined (Str "the-flat") world eq_refl
           (or_intror (conj eq_refl (conj eq_refl (or_introl eq_refl))))).
Defined.

Lemma world_consistent : aggregate_consistent world.
Proof. intros a agent _ Hne. by destruct Hne. Defined.

Lemma serve_aggregate_consistent_witness :
  let w' := serve castObjectId castOperators castStringOperators RegExp_valid RegExp_matches
              ratingValidator session world in
  aggregate_consistent world /\ aggregate_consistent w' /\
  map rating_rating (ratings w') = [of_Z 5; of_Z 2] /\
  (user_rating <$> users w' !! agent_id) = Some (of_decimal false 35 (-1)) /\
  (totalRatings <$> users w' !! agent_id) = Some 2%nat.
Proof.
  cbn zeta. split; [exact world_consistent |]. split.
  - exact (serve_aggregate_consistent castObjectId castOperators castStringOperators
             RegExp_valid RegExp_matches ratingValidator session world world_consistent).
  - repeat split; by vm_compute.
Defined.

End Deployment.
